(** * isc-radius: a shallow embedding of the RADIUS protocol engine

    The development follows the layout of the JavaScript sources:

    - [Js]          the few ECMAScript / Node.js primitives the code relies on
                    (exceptions, Buffer reads and writes, strings, UTF-8,
                    [Number], the MD5 digest of [crypto]);
    - [Code]        lib/code.js;
    - [Vendor]      lib/vendor.js;
    - [AV]          lib/avalue.js;
    - [Dictionary]  lib/dictent.js and lib/dictionary.js;
    - [Attribute]   lib/attribute.js;
    - [AttributeList] lib/attrlist.js;
    - [RadiusPacket] lib/packet.js;
    - [Mem]         the Buffer views of lib/packet.js over a shared store;
    - [RadiusServer] lib/server.js;
    - [RadiusClient] lib/client.js.

    Bytes are integers in [0, 256) (type [Z]); a Buffer is a [list Z].
    Offsets and lengths are natural numbers.  A JavaScript exception is an
    explicit [Throw] result. *)

From Stdlib Require Import ZArith Lia List Ascii String QArith Qround Qabs.
From stdpp Require Import base option list gmap strings pretty.

Local Open Scope Z_scope.

(* ===================================================================== *)
(** * ECMAScript and Node.js primitives                                   *)
(* ===================================================================== *)

Module Js.

(** The exception classes the sources throw ([ParseError] is declared by
    the dictionary files). *)
Inductive exn : Type :=
| TypeError (msg : string)
| RangeError (msg : string)
| ParseError (msg : string)
| Error (msg : string).

Inductive result (A : Type) : Type :=
| Ok (a : A)
| Throw (e : exn).
Arguments Ok {A} a.
Arguments Throw {A} e.

Definition bind {A B} (m : result A) (k : A -> result B) : result B :=
  match m with
  | Ok a => k a
  | Throw e => Throw e
  end.

Definition is_ok {A} (m : result A) : bool :=
  match m with Ok _ => true | Throw _ => false end.

(** ** Buffers *)

Definition byte_ok (b : Z) : Prop := 0 <= b < 256.
Definition bytes_ok (l : list Z) : Prop := Forall byte_ok l.

(** [buf.slice(a, b)] for [0 <= a], clamped to the buffer like Node does. *)
Definition slice (a b : nat) (l : list Z) : list Z := take (b - a) (drop a l).

(** [buf[i]]; reading past the end yields [undefined], which every use in
    the sources turns into 0 (a slice end, a length). *)
Definition at_ (l : list Z) (i : nat) : Z := nth i l 0.

(** Big-endian bytes of [v], [n] of them, most significant first. *)
Fixpoint be_bytes (n : nat) (v : Z) : list Z :=
  match n with
  | O => []
  | S n' => be_bytes n' (v / 256) ++ [v mod 256]
  end.

(** Big-endian value of a byte list. *)
Definition be_value (l : list Z) : Z :=
  fold_left (fun acc b => acc * 256 + b) l 0.

(** [buf.readUIntBE(offset, n)]: Node throws when the field leaves the
    buffer. *)
Definition readUIntBE (l : list Z) (offset n : nat) : result Z :=
  if decide (offset + n <= length l)%nat
  then Ok (be_value (slice offset (offset + n) l))
  else Throw (RangeError "ERR_OUT_OF_RANGE").

(** Overwrite [l] from [offset] with [src] ([src.copy(l, offset)]): bytes
    that would fall past the end of [l] are dropped. *)
Definition blit (src : list Z) (offset : nat) (l : list Z) : list Z :=
  take offset l ++ take (length l - offset) src ++ drop (offset + length src) l.

(** [buf.writeUIntBE(v, offset, n)] (also [writeUInt8], [writeUInt16BE],
    [writeUInt32BE]): Node throws a RangeError when [v] does not fit in
    [n] bytes or the field leaves the buffer; otherwise it stores the
    bytes and returns the offset after them. *)
Definition writeUIntBE (v : Z) (offset n : nat) (l : list Z)
  : result (nat * list Z) :=
  if decide (0 <= v < 256 ^ Z.of_nat n) then
    if decide (offset + n <= length l)%nat
    then Ok ((offset + n)%nat, blit (be_bytes n v) offset l)
    else Throw (RangeError "ERR_OUT_OF_RANGE")
  else Throw (RangeError "ERR_OUT_OF_RANGE").

(** [Buffer.alloc(n)]. *)
Definition alloc (n : nat) : list Z := replicate n 0.

(** ** Strings

    A JavaScript string value is a sequence of UTF-16 code units. *)

Abbreviation jsstring := (list Z) (only parsing).

(** A string literal of the sources. *)
Definition str (s : string) : jsstring :=
  map (fun c => Z.of_N (N_of_ascii c)) (list_ascii_of_string s).

(** [s.toLowerCase()] and [s.toUpperCase()]: the letters A-Z and a-z are
    mapped; the names the library handles (dictionary files are read as
    ASCII) have no other cased letters. *)
Definition lower_unit (u : Z) : Z :=
  if (65 <=? u) && (u <=? 90) then u + 32 else u.
Definition upper_unit (u : Z) : Z :=
  if (97 <=? u) && (u <=? 122) then u - 32 else u.
Definition toLowerCase (s : jsstring) : jsstring := map lower_unit s.
Definition toUpperCase (s : jsstring) : jsstring := map upper_unit s.

(** [s.replace(a, b)] for one-character strings [a] and [b]: only the
    FIRST occurrence is replaced. *)
Fixpoint replace_first (a b : Z) (s : jsstring) : jsstring :=
  match s with
  | [] => []
  | c :: s' => if c =? a then b :: s' else c :: replace_first a b s'
  end.

(** [s.split(sep)] for a one-character separator: always at least one
    segment. *)
Fixpoint split (sep : Z) (s : jsstring) : list jsstring :=
  match s with
  | [] => [[]]
  | c :: s' =>
      if c =? sep then [] :: split sep s'
      else match split sep s' with
           | seg :: segs => (c :: seg) :: segs
           | [] => [[c]]
           end
  end.

(** WhiteSpace and LineTerminator code units: what [trim] removes and
    what [Number] skips around a literal. *)
Definition is_space (u : Z) : bool :=
  (u =? 0x09) || (u =? 0x0A) || (u =? 0x0B) || (u =? 0x0C) || (u =? 0x0D)
  || (u =? 0x20) || (u =? 0xA0) || (u =? 0x1680)
  || ((0x2000 <=? u) && (u <=? 0x200A))
  || (u =? 0x2028) || (u =? 0x2029) || (u =? 0x202F) || (u =? 0x205F)
  || (u =? 0x3000) || (u =? 0xFEFF).

Fixpoint trim_start (s : jsstring) : jsstring :=
  match s with
  | [] => []
  | c :: s' => if is_space c then trim_start s' else s
  end.

(** [s.trim()]. *)
Definition trim (s : jsstring) : jsstring :=
  rev (trim_start (rev (trim_start s))).

(** ** UTF-8 *)

Definition replacement : list Z := [0xEF; 0xBF; 0xBD].

Definition utf8_of_cp (cp : Z) : list Z :=
  if cp <? 0x80 then [cp]
  else if cp <? 0x800 then
    [Z.lor 0xC0 (Z.shiftr cp 6); Z.lor 0x80 (Z.land cp 0x3F)]
  else if cp <? 0x10000 then
    [Z.lor 0xE0 (Z.shiftr cp 12);
     Z.lor 0x80 (Z.land (Z.shiftr cp 6) 0x3F);
     Z.lor 0x80 (Z.land cp 0x3F)]
  else
    [Z.lor 0xF0 (Z.shiftr cp 18);
     Z.lor 0x80 (Z.land (Z.shiftr cp 12) 0x3F);
     Z.lor 0x80 (Z.land (Z.shiftr cp 6) 0x3F);
     Z.lor 0x80 (Z.land cp 0x3F)].

Definition is_high (u : Z) : bool := (0xD800 <=? u) && (u <=? 0xDBFF).
Definition is_low (u : Z) : bool := (0xDC00 <=? u) && (u <=? 0xDFFF).

(** [Buffer.from(s, 'utf-8')]: surrogate pairs are one code point, a lone
    surrogate is encoded as U+FFFD. *)
Fixpoint utf8_encode (s : jsstring) : list Z :=
  match s with
  | [] => []
  | u :: rest =>
      if is_high u then
        match rest with
        | lo :: rest' =>
            if is_low lo
            then utf8_of_cp (0x10000 + (u - 0xD800) * 0x400 + (lo - 0xDC00))
                   ++ utf8_encode rest'
            else replacement ++ utf8_encode rest
        | [] => replacement
        end
      else if is_low u then replacement ++ utf8_encode rest
      else utf8_of_cp u ++ utf8_encode rest
  end.

(** Decoder state: continuation bytes still needed, the code point so
    far, and the range allowed for the next byte. *)
Record dstate : Type := DState {
  d_needed : nat; d_cp : Z; d_lower : Z; d_upper : Z
}.

Definition units_of_cp (cp : Z) : jsstring :=
  if cp <? 0x10000 then [cp]
  else [0xD800 + Z.shiftr (cp - 0x10000) 10;
        0xDC00 + Z.land (cp - 0x10000) 0x3FF].

(** A byte met in the initial state: what is emitted and the next state. *)
Definition lead (b : Z) : jsstring * option dstate :=
  if b <=? 0x7F then ([b], None)
  else if (0xC2 <=? b) && (b <=? 0xDF)
    then ([], Some (DState 1 (Z.land b 0x1F) 0x80 0xBF))
  else if (0xE0 <=? b) && (b <=? 0xEF)
    then ([], Some (DState 2 (Z.land b 0xF)
                      (if b =? 0xE0 then 0xA0 else 0x80)
                      (if b =? 0xED then 0x9F else 0xBF)))
  else if (0xF0 <=? b) && (b <=? 0xF4)
    then ([], Some (DState 3 (Z.land b 0x7)
                      (if b =? 0xF0 then 0x90 else 0x80)
                      (if b =? 0xF4 then 0x8F else 0xBF)))
  else ([0xFFFD], None).

Fixpoint utf8_decode_from (st : option dstate) (bs : list Z) : jsstring :=
  match bs with
  | [] => match st with None => [] | Some _ => [0xFFFD] end
  | b :: rest =>
      match st with
      | Some s =>
          if (d_lower s <=? b) && (b <=? d_upper s) then
            let cp := Z.lor (Z.shiftl (d_cp s) 6) (Z.land b 0x3F) in
            match d_needed s with
            | 1%nat => units_of_cp cp ++ utf8_decode_from None rest
            | n => utf8_decode_from
                     (Some (DState (Nat.pred n) cp 0x80 0xBF)) rest
            end
          else
            let '(out, st') := lead b in
            0xFFFD :: out ++ utf8_decode_from st' rest
      | None =>
          let '(out, st') := lead b in
          out ++ utf8_decode_from st' rest
      end
  end.

(** [buf.toString()] (UTF-8, ill-formed sequences become U+FFFD). *)
Definition toString (bs : list Z) : jsstring := utf8_decode_from None bs.

End Js.

(* ===================================================================== *)
(** * The MD5 digest (RFC 1321), as computed by Node's [crypto] module     *)
(* ===================================================================== *)

Module MD5.

Definition mask32 (x : Z) : Z := x mod 2 ^ 32.

Definition rotl32 (x c : Z) : Z :=
  mask32 (Z.lor (Z.shiftl x c) (Z.shiftr x (32 - c))).

Definition not32 (x : Z) : Z := Z.lxor x 0xFFFFFFFF.

Definition shifts : list Z :=
  [7; 12; 17; 22; 7; 12; 17; 22; 7; 12; 17; 22; 7; 12; 17; 22;
   5; 9; 14; 20; 5; 9; 14; 20; 5; 9; 14; 20; 5; 9; 14; 20;
   4; 11; 16; 23; 4; 11; 16; 23; 4; 11; 16; 23; 4; 11; 16; 23;
   6; 10; 15; 21; 6; 10; 15; 21; 6; 10; 15; 21; 6; 10; 15; 21].

Definition sines : list Z :=
  [0xd76aa478; 0xe8c7b756; 0x242070db; 0xc1bdceee; 0xf57c0faf; 0x4787c62a; 0xa8304613; 0xfd469501;
   0x698098d8; 0x8b44f7af; 0xffff5bb1; 0x895cd7be; 0x6b901122; 0xfd987193; 0xa679438e; 0x49b40821;
   0xf61e2562; 0xc040b340; 0x265e5a51; 0xe9b6c7aa; 0xd62f105d; 0x02441453; 0xd8a1e681; 0xe7d3fbc8;
   0x21e1cde6; 0xc33707d6; 0xf4d50d87; 0x455a14ed; 0xa9e3e905; 0xfcefa3f8; 0x676f02d9; 0x8d2a4c8a;
   0xfffa3942; 0x8771f681; 0x6d9d6122; 0xfde5380c; 0xa4beea44; 0x4bdecfa9; 0xf6bb4b60; 0xbebfbc70;
   0x289b7ec6; 0xeaa127fa; 0xd4ef3085; 0x04881d05; 0xd9d4d039; 0xe6db99e5; 0x1fa27cf8; 0xc4ac5665;
   0xf4292244; 0x432aff97; 0xab9423a7; 0xfc93a039; 0x655b59c3; 0x8f0ccc92; 0xffeff47d; 0x85845dd1;
   0x6fa87e4f; 0xfe2ce6e0; 0xa3014314; 0x4e0811a1; 0xf7537e82; 0xbd3af235; 0x2ad7d2bb; 0xeb86d391].

(** Little-endian bytes of [v], [n] of them. *)
Fixpoint le_bytes (n : nat) (v : Z) : list Z :=
  match n with
  | O => []
  | S n' => (v mod 256) :: le_bytes n' (v / 256)
  end.

Definition le_value (l : list Z) : Z :=
  fold_right (fun b acc => b + 256 * acc) 0 l.

(** The message followed by 0x80, zeros up to 56 modulo 64, and the bit
    length on 64 bits. *)
Definition pad (msg : list Z) : list Z :=
  let len := Z.of_nat (length msg) in
  msg ++ [0x80] ++ replicate (Z.to_nat ((55 - len) mod 64)) 0
      ++ le_bytes 8 ((8 * len) mod 2 ^ 64).

(** The sixteen 32-bit words of a 64-byte block. *)
Definition words (block : list Z) : list Z :=
  map (fun i => le_value (Js.slice (4 * i) (4 * i + 4) block)) (seq 0 16).

Record state : Type := State { sa : Z; sb : Z; sc : Z; sd : Z }.

Definition init : state :=
  State 0x67452301 0xefcdab89 0x98badcfe 0x10325476.

Definition step (M : list Z) (st : state) (i : nat) : state :=
  let '(State A B C D) := st in
  let iz := Z.of_nat i in
  let '(F, g) :=
    if iz <? 16 then (Z.lor (Z.land B C) (Z.land (not32 B) D), iz)
    else if iz <? 32 then
      (Z.lor (Z.land D B) (Z.land (not32 D) C), (5 * iz + 1) mod 16)
    else if iz <? 48 then (Z.lxor (Z.lxor B C) D, (3 * iz + 5) mod 16)
    else (Z.lxor C (Z.lor B (not32 D)), (7 * iz) mod 16) in
  let F' := mask32 (F + A + nth i sines 0 + nth (Z.to_nat g) M 0) in
  State D (mask32 (B + rotl32 F' (nth i shifts 0))) B C.

Definition compress (st : state) (block : list Z) : state :=
  let '(State A B C D) := fold_left (step (words block)) (seq 0 64) st in
  State (mask32 (sa st + A)) (mask32 (sb st + B))
        (mask32 (sc st + C)) (mask32 (sd st + D)).

Fixpoint blocks (n : nat) (l : list Z) : list (list Z) :=
  match n with
  | O => []
  | S n' => take 64 l :: blocks n' (drop 64 l)
  end.

Definition digest (msg : list Z) : list Z :=
  let p := pad msg in
  let '(State A B C D) :=
    fold_left compress (blocks (length p / 64) p) init in
  le_bytes 4 A ++ le_bytes 4 B ++ le_bytes 4 C ++ le_bytes 4 D.

End MD5.

(* ===================================================================== *)
(** * Number values and [Number(string)]                                  *)
(* ===================================================================== *)

Module Num.

(** A Number value: an integer, a finite non-integer, NaN or an infinity.
    The sign of zero is not kept (no operation of the sources tells +0 from
    -0). *)
Inductive number : Type :=
| Int (z : Z)
| Frac (q : Q)
| NaN
| Inf (negative : bool).

Definition of_Q (q : Q) : number :=
  let r := Qred q in
  if (Zpos (Qden r) =? 1) then Int (Qnum r) else Frac r.

Definition to_Q (x : number) : option Q :=
  match x with
  | Int z => Some (inject_Z z)
  | Frac q => Some q
  | _ => None
  end.

(** [Number.isInteger(x)]. *)
Definition isInteger (x : number) : bool :=
  match x with Int _ => true | _ => false end.

(** [x >= y] and [x <= y]: false as soon as one side is NaN. *)
Definition le (x y : number) : bool :=
  match x, y with
  | NaN, _ | _, NaN => false
  | Inf true, _ => true
  | _, Inf false => true
  | Inf false, _ => false
  | _, Inf true => false
  | _, _ =>
      match to_Q x, to_Q y with
      | Some a, Some b => Qle_bool a b
      | _, _ => false
      end
  end.
Definition ge (x y : number) : bool := le y x.

(** ** Rounding a rational to the nearest double (ties to even) *)

Definition pow2 (e : Z) : Q :=
  if 0 <=? e then inject_Z (2 ^ e) else (1 # Z.to_pos (2 ^ (- e)))%Q.

Definition round_half_even (q : Q) : Z :=
  let f := Qfloor q in
  match Qcompare (q - inject_Z f) (1 # 2) with
  | Lt => f
  | Gt => f + 1
  | Eq => if Z.even f then f else f + 1
  end.

(** For [q > 0], the [k] with [2^k <= q < 2^(k+1)]. *)
Definition binade (q : Q) : Z :=
  let k := Z.log2 (Qnum q) - Z.log2 (Zpos (Qden q)) in
  if Qle_bool (pow2 k) q then k else k - 1.

Definition to_double (q : Q) : number :=
  if Qeq_bool q 0 then Int 0 else
  let a := Qabs q in
  let e := Z.max (binade a - 52) (-1074) in
  let m := round_half_even (a / pow2 e) in
  let v := (inject_Z m * pow2 e)%Q in
  if Qle_bool (pow2 1024) v then Inf (negb (Qle_bool 0 q))
  else of_Q (if Qle_bool 0 q then v else (- v)%Q).

(** ** The StringNumericLiteral grammar *)

Definition is_digit (u : Z) : bool := (48 <=? u) && (u <=? 57).

Definition digit_value (radix : Z) (u : Z) : option Z :=
  let v :=
    if is_digit u then u - 48
    else if (97 <=? u) && (u <=? 102) then u - 87
    else if (65 <=? u) && (u <=? 70) then u - 55
    else 99 in
  if v <? radix then Some v else None.

(** Value of a non-empty run of digits in [radix]; [None] on any other
    character or on the empty string. *)
Fixpoint digits_from (radix : Z) (acc : Z) (s : Js.jsstring) : option Z :=
  match s with
  | [] => Some acc
  | u :: s' =>
      match digit_value radix u with
      | Some v => digits_from radix (acc * radix + v) s'
      | None => None
      end
  end.

Definition digits (radix : Z) (s : Js.jsstring) : option Z :=
  match s with
  | [] => None
  | _ => digits_from radix 0 s
  end.

Fixpoint span_digits (s : Js.jsstring) : Js.jsstring * Js.jsstring :=
  match s with
  | u :: s' =>
      if is_digit u
      then let '(d, r) := span_digits s' in (u :: d, r)
      else ([], s)
  | [] => ([], [])
  end.

(** [0x..], [0o..], [0b..] (either case), without sign. *)
Definition nondecimal (s : Js.jsstring) : option Z :=
  match s with
  | 48 :: p :: ds =>
      if (p =? 120) || (p =? 88) then digits 16 ds
      else if (p =? 111) || (p =? 79) then digits 8 ds
      else if (p =? 98) || (p =? 66) then digits 2 ds
      else None
  | _ => None
  end.

(** The exponent part [e±ddd], or nothing. *)
Definition exponent (s : Js.jsstring) : option Z :=
  match s with
  | [] => Some 0
  | e :: s' =>
      if (e =? 101) || (e =? 69) then
        match s' with
        | 43 :: ds => digits 10 ds
        | 45 :: ds => option_map Z.opp (digits 10 ds)
        | _ => digits 10 s'
        end
      else None
  end.

Definition pow10 (e : Z) : Q :=
  if 0 <=? e then inject_Z (10 ^ e) else (1 # Z.to_pos (10 ^ (- e)))%Q.

(** An unsigned decimal literal: [ddd], [ddd.], [ddd.ddd], [.ddd], each
    with an optional exponent. *)
Definition decimal (s : Js.jsstring) : option Q :=
  let '(ip, r1) := span_digits s in
  let '(fp, r2) :=
    match r1 with
    | 46 :: r => span_digits r
    | _ => ([], r1)
    end in
  match ip, fp with
  | [], [] => None
  | _, _ =>
      match exponent r2, digits_from 10 0 (ip ++ fp) with
      | Some e, Some m =>
          Some (inject_Z m * pow10 (e - Z.of_nat (length fp)))%Q
      | _, _ => None
      end
  end.

Definition Infinity_lit : Js.jsstring := Js.str "Infinity".

Definition signed (s : Js.jsstring) : number :=
  let '(neg, body) :=
    match s with
    | 43 :: b => (false, b)
    | 45 :: b => (true, b)
    | _ => (false, s)
    end in
  if decide (body = Infinity_lit) then Inf neg
  else match decimal body with
       | Some q => to_double (if neg then - q else q)%Q
       | None => NaN
       end.

(** [Number(s)] for a string [s]. *)
Definition Number (s : Js.jsstring) : number :=
  match Js.trim s with
  | [] => Int 0
  | t =>
      match nondecimal t with
      | Some z => to_double (inject_Z z)
      | None => signed t
      end
  end.

(** Storing a Number into a [Uint8Array] slot ([Buffer.from(array)]):
    truncation, then reduction modulo 256; NaN and the infinities
    become 0. *)
Definition to_uint8 (x : number) : Z :=
  match x with
  | Int z => z mod 256
  | Frac q => (Z.quot (Qnum q) (Zpos (Qden q))) mod 256
  | _ => 0
  end.

End Num.

(** The JavaScript values that reach the library's entry points. *)
Inductive jsvalue : Type :=
| JUndefined
| JNull
| JBool (b : bool)
| JNumber (x : Num.number)
| JString (s : Js.jsstring)
| JBuffer (b : list Z)
| JArray (xs : list Num.number)
| JObject.

Import Js.

#[global] Instance result_ret : MRet Js.result := @Js.Ok.
#[global] Instance result_bind : MBind Js.result :=
  fun A B k m => Js.bind m k.

(** Code that updates a store of type [S] and may throw: what was written
    before the exception stays written. *)
Definition ST (S A : Type) : Type := S -> Js.result A * S.

#[global] Instance ST_ret {S} : MRet (ST S) := fun A a s => (Js.Ok a, s).
#[global] Instance ST_bind {S} : MBind (ST S) :=
  fun A B k m s =>
    match m s with
    | (Js.Ok a, s') => k a s'
    | (Js.Throw e, s') => (Js.Throw e, s')
    end.

Definition throw {S A} (e : Js.exn) : ST S A := fun s => (Js.Throw e, s).
Definition lift {S A} (r : Js.result A) : ST S A := fun s => (r, s).

(* ===================================================================== *)
(** * lib/code.js                                                         *)
(* ===================================================================== *)

Module Code.

(** A Code object; there is exactly one object per numeric code, so two
    Code objects are the same object ([===]) when their [code] is equal. *)
Record t : Type := Mk { code : Z }.

Definition codeTable : list (Z * string) :=
  [ (1, "Access-Request"%string);
    (2, "Access-Accept"%string);
    (3, "Access-Reject"%string);
    (4, "Accounting-Request"%string);
    (5, "Accounting-Response"%string);
    (11, "Access-Challenge"%string);
    (12, "Status-Server"%string);
    (13, "Status-Client"%string);
    (40, "Disconnect-Request"%string);
    (41, "Disconnect-ACK"%string);
    (42, "Disconnect-NAK"%string);
    (43, "CoA-Request"%string);
    (44, "CoA-ACK"%string);
    (45, "CoA-NAK"%string) ].

Definition valueOf (c : t) : Z := code c.

(** [c.toString()]: the name of the table. *)
Definition toString (c : t) : option string :=
  snd <$> List.find (fun p => fst p =? code c) codeTable.

(** The property key of a name: upper case, first hyphen replaced. *)
Definition keyname (name : string) : jsstring :=
  replace_first 45 95 (toUpperCase (str name)).

(** The static properties the loop at the end of the file defines on
    [Code]: for each row, the number (as a property key) and the key
    name, both holding the row's object. *)
Definition statics : list (jsstring * t) :=
  flat_map (fun '(c, name) => [ (str (pretty c), Mk c); (keyname name, Mk c) ])
           codeTable.

(** [Code[key]] / [Code.KEY]: [None] is [undefined]. *)
Definition prop (key : jsstring) : option t :=
  snd <$> List.find (fun p => bool_decide (fst p = key)) statics.

(** [Code[n]] for a byte [n]. *)
Definition at_byte (n : Z) : option t := prop (str (pretty n)).

(** The argument of [Code.from]. *)
Inductive arg : Type :=
| OfCode (c : t)
| OfValue (v : jsvalue).

Definition key_of (v : jsvalue) : jsstring :=
  match v with
  | JString s => replace_first 45 95 (toUpperCase s)
  | JNumber (Num.Int z) => str (pretty z)
  | JUndefined => str "undefined"
  | JNull => str "null"
  | JBool true => str "true"
  | JBool false => str "false"
  | _ => str "[object]"
  end.

Definition from (a : arg) : result t :=
  match a with
  | OfCode c => Ok c
  | OfValue v =>
      match prop (key_of v) with
      | Some c => Ok c
      | None => Throw (RangeError "Code lookup for unknown value")
      end
  end.

End Code.

(* ===================================================================== *)
(** * lib/vendor.js                                                       *)
(* ===================================================================== *)

Module Vendor.

(** A Vendor object.  [oid] is the identity of the object: two
    references are the same object ([===]) when their [oid] is equal.
    Vendors are frozen by their constructor. *)
Record t : Type := Mk {
  oid : positive;
  name : jsstring;
  id : Z;
  typeSize : nat;
  lengthSize : nat
}.

Definition is_line_terminator (u : Z) : bool :=
  (u =? 0x0A) || (u =? 0x0D) || (u =? 0x2028) || (u =? 0x2029).

(** The match of [/^format=(\d+),(\d+)(,(.*?))?$/]: the two numbers. *)
Definition format (field : jsstring) : option (Num.number * Num.number) :=
  let pre := str "format=" in
  if decide (take (length pre) field = pre) then
    let '(d1, r1) := Num.span_digits (drop (length pre) field) in
    match d1, r1 with
    | _ :: _, 44 :: r1' =>
        let '(d2, r2) := Num.span_digits r1' in
        match d2 with
        | _ :: _ =>
            let tail_ok :=
              match r2 with
              | [] => true
              | 44 :: r => forallb (fun u => negb (is_line_terminator u)) r
              | _ => false
              end in
            if tail_ok then Some (Num.Number d1, Num.Number d2) else None
        | [] => None
        end
    | _, _ => None
    end
  else None.

Definition apply_format (sizes : Num.number * Num.number) (field : jsstring)
  : Num.number * Num.number :=
  match format field with
  | Some r => r
  | None => sizes
  end.

(** [new Vendor(name, id, ...extra)], the new object getting identity
    [o]. *)
Definition new (o : positive) (name : jsstring) (id : Num.number)
    (extra : list jsstring) : result t :=
  match id with
  | Num.Int z =>
      if (z <? 0) || (2 ^ 32 <=? z)
      then Throw (RangeError "Vendor id must be a 32 bit unsigned integer")
      else
        let '(ts, ls) := fold_left apply_format extra (Num.Int 1, Num.Int 1) in
        match ts with
        | Num.Int tz =>
            if (tz =? 1) || (tz =? 2) || (tz =? 4) then
              match ls with
              | Num.Int lz =>
                  if (lz =? 0) || (lz =? 1) || (lz =? 2)
                  then Ok (Mk o name z (Z.to_nat tz) (Z.to_nat lz))
                  else Throw (Error "illegal VSA type length specified")
              | _ => Throw (Error "illegal VSA type length specified")
              end
            else Throw (Error "illegal VSA type size specified")
        | _ => Throw (Error "illegal VSA type size specified")
        end
  | _ => Throw (TypeError "Vendor id must be an integer")
  end.

End Vendor.

(* ===================================================================== *)
(** * lib/avalue.js                                                       *)
(* ===================================================================== *)

Module AV.

(** The classes exported by the file (the abstract [ANumeric] and
    [AFixed] have no instances). *)
Inductive kind : Type :=
| Buffer | String | Byte | Short | Integer | Inet4 | Date | VSA.

#[global] Instance kind_eq_dec : EqDecision kind.
Proof. solve_decision. Defined.

(** [prototype instanceof AV.Numeric]. *)
Definition is_numeric (k : kind) : bool :=
  match k with
  | Byte | Short | Integer | Date => true
  | _ => false
  end.

(** The static [length] of the classes that extend [AFixed]. *)
Definition fixed_length (k : kind) : option nat :=
  match k with
  | Byte => Some 1%nat
  | Short => Some 2%nat
  | Integer | Inet4 | Date => Some 4%nat
  | _ => None
  end.

(** No class of the file defines [minimumLength] or [maximumLength]:
    reading them gives [undefined]. *)
Definition minimumLength (k : kind) : option nat := None.
Definition maximumLength (k : kind) : option nat := None.

(** The wrapped value: the bytes of a buffer-backed value, or the number
    of a numeric one. *)
Inductive payload : Type :=
| Bytes (b : list Z)
| Number (n : Z).

Record t : Type := Mk { kind_of : kind; value : payload }.

(** [bufferCheck(buf)]: [ABuffer] allows 1..253 bytes, [AFixed] exactly
    its length. *)
Definition bufferCheck (k : kind) (v : jsvalue) : result (list Z) :=
  match v with
  | JBuffer buf =>
      let '(min, max) :=
        match fixed_length k with
        | Some n => (n, n)
        | None => (1%nat, 253%nat)
        end in
      if ((length buf <? min) || (max <? length buf))%nat
      then Throw (RangeError "invalid buffer length")
      else Ok buf
  | _ => Throw (TypeError "invalid type")
  end.

(** [ANumeric.fromValue]. *)
Definition numeric_fromValue (k : kind) (len : nat) (v : jsvalue) : result t :=
  match v with
  | JNumber x =>
      match x with
      | Num.Int z =>
          if (z <? 0) || (2 ^ (8 * Z.of_nat len) <=? z)
          then Throw (RangeError "integer paramer out of range")
          else Ok (Mk k (Number z))
      | _ => Throw (RangeError "non-integer parameter passed for attribute")
      end
  | _ => Throw (TypeError "non-numeric parameter passed for attribute")
  end.

(** [K.fromBuffer(buf)]. *)
Definition fromBuffer (k : kind) (v : jsvalue) : result t :=
  buf ← bufferCheck k v;
  if is_numeric k then
    match fixed_length k with
    | Some len =>
        n ← readUIntBE buf 0 len;
        numeric_fromValue k len (JNumber (Num.Int n))
    | None => Throw (Error "illegal call to AFixed.length")
    end
  else Ok (Mk k (Bytes buf)).

(** [x >= 0 && x <= 255]. *)
Definition octet (x : Num.number) : bool :=
  Num.ge x (Num.Int 0) && Num.le x (Num.Int 255).

(** The second half of [AInet4.fromValue], on the array [value]. *)
Definition inet4_of_array (xs : list Num.number) : result t :=
  if negb (length xs =? 4)%nat then
    Throw (TypeError "illegal IP address string")
  else if negb (forallb octet xs) then
    Throw (TypeError "illegal IP address string")
  else fromBuffer Inet4 (JBuffer (map Num.to_uint8 xs)).

(** [AInet4.fromValue(value)]. *)
Definition inet4_fromValue (v : jsvalue) : result t :=
  match v with
  | JString s => inet4_of_array (map Num.Number (split 46 (trim s)))
  | JArray xs => inet4_of_array xs
  | JBuffer b => inet4_of_array (map Num.Int b)
  | JUndefined | JNull =>
      Throw (TypeError "Cannot read properties of undefined")
  | _ => Throw (TypeError "illegal IP address string")
  end.

(** [K.fromValue(value)]. *)
Definition fromValue (k : kind) (v : jsvalue) : result t :=
  match k with
  | Buffer | VSA => fromBuffer k v
  | String =>
      match v with
      | JString s => fromBuffer k (JBuffer (utf8_encode s))
      | JBuffer _ => fromBuffer k v
      | _ => Throw (TypeError "value must be a string or a buffer")
      end
  | Inet4 => inet4_fromValue v
  | Byte | Short | Integer | Date =>
      match fixed_length k with
      | Some len => numeric_fromValue k len v
      | None => Throw (Error "illegal call to AFixed.length")
      end
  end.

(** [v.toBuffer()]. *)
Definition toBuffer (v : t) : list Z :=
  match value v with
  | Bytes b => b
  | Number n =>
      match fixed_length (kind_of v) with
      | Some len => be_bytes len n
      | None => []
      end
  end.

End AV.

(* ===================================================================== *)
(** * lib/dictent.js and lib/dictionary.js                                *)
(* ===================================================================== *)

Module Dictionary.

(** ** DictionaryEntry *)

Definition typeMap : list (string * AV.kind) :=
  [ ("string"%string, AV.String);
    ("octets"%string, AV.Buffer);
    ("uint8"%string, AV.Byte);
    ("byte"%string, AV.Byte);
    ("uint16"%string, AV.Short);
    ("short"%string, AV.Short);
    ("integer"%string, AV.Integer);
    ("uint64"%string, AV.Buffer);
    ("integer64"%string, AV.Buffer);
    ("signed"%string, AV.Integer);
    ("ipaddr"%string, AV.Inet4);
    ("ipv4prefix"%string, AV.Buffer);
    ("ipv6addr"%string, AV.Buffer);
    ("ipv6prefix"%string, AV.Buffer);
    ("ifid"%string, AV.Buffer);
    ("date"%string, AV.Date);
    ("tlv"%string, AV.Buffer);
    ("combo-ip"%string, AV.Buffer);
    ("abinary"%string, AV.Buffer);
    ("ether"%string, AV.Buffer);
    ("struct"%string, AV.Buffer);
    ("vsa"%string, AV.VSA) ].

Definition typeMap_get (type : jsstring) : option AV.kind :=
  snd <$> List.find (fun p => bool_decide (str (fst p) = type)) typeMap.

(** [/^octets\[\d+\]$/]. *)
Definition is_octets_n (type : jsstring) : bool :=
  let pre := str "octets[" in
  bool_decide (take (length pre) type = pre) &&
  match Num.span_digits (drop (length pre) type) with
  | (_ :: _, [93]) => true
  | _ => false
  end.

(** An attribute descriptor.  [oid] is the identity of the object; the
    object is frozen by its constructor.  The [values] table of a numeric
    entry, which only serves the display of a value, is left out. *)
Record Entry : Type := MkEntry {
  oid : positive;
  type : AV.kind;
  id : Z;
  name : jsstring;
  vendor : option Vendor.t;
  sub_id : option Z;
  sub_type : option AV.kind;
  flags : gmap (list Z) Num.number;
  extra : list jsstring
}.

Definition realType (e : Entry) : AV.kind :=
  match sub_type e with
  | Some k => k
  | None => type e
  end.

Definition isNumeric (e : Entry) : bool := AV.is_numeric (realType e).
Definition isVSA (e : Entry) : bool := bool_decide (type e = AV.VSA).

(** One [key=value] or [key] item of the flags field. *)
Definition add_flag (fl : gmap (list Z) Num.number) (flag : jsstring)
  : gmap (list Z) Num.number :=
  match split 61 flag with
  | key :: value :: _ => <[key := Num.Number value]> fl
  | key :: [] => <[key := Num.Int 1]> fl
  | [] => fl
  end.

Definition parse_flags (fl : option jsstring) : gmap (list Z) Num.number :=
  match fl with
  | Some (c :: f) => fold_left add_flag (split 44 (c :: f)) ∅
  | _ => ∅
  end.

(** [new DictionaryEntry(vendor, name, id, type, flags, ...extra)] for an
    integer [id], the new object getting identity [o].  (The constructor
    leaves the object half built when [Number(id)] is not an integer; no
    caller in this development passes such an id.) *)
Definition newEntry (o : positive) (vendor : option Vendor.t)
    (name : jsstring) (id : Z) (type : jsstring)
    (fl : option jsstring) (extra : list jsstring) : result Entry :=
  let type := toLowerCase type in
  let type := if is_octets_n type then str "octets" else type in
  match typeMap_get type with
  | None => Throw (ParseError "unknown dictionary type entry")
  | Some k =>
      Ok match vendor with
         | Some v =>
             MkEntry o AV.VSA 26 name (Some v) (Some id) (Some k)
                     (parse_flags fl) extra
         | None =>
             MkEntry o k id name None None None (parse_flags fl) extra
         end
  end.

(** ** The global tables

    [dict] is keyed by attribute number and by lower-case name, [vendors]
    by Enterprise ID and by lower-case name, [vsas] by Enterprise ID and
    then by sub-ID.  [next] is the identity the next object created will
    get. *)
Record state : Type := MkState {
  dict : gmap (Z + list Z) Entry;
  vendors : gmap (Z + list Z) Vendor.t;
  vsas : gmap Z (gmap Z Entry);
  next : positive
}.

Definition empty : state := MkState ∅ ∅ ∅ 1%positive.

(** A computation over the tables that may throw; what it wrote before
    throwing stays written. *)
Abbreviation M := (ST state).

Definition set_dict (k : Z + list Z) (e : Entry) (s : state) : state :=
  MkState (<[k := e]> (dict s)) (vendors s) (vsas s) (next s).

Definition set_vendor (k : Z + list Z) (v : Vendor.t) (s : state) : state :=
  MkState (dict s) (<[k := v]> (vendors s)) (vsas s) (next s).

Definition set_vsas (k : Z) (m : gmap Z Entry) (s : state) : state :=
  MkState (dict s) (vendors s) (<[k := m]> (vsas s)) (next s).

Definition fresh (s : state) : positive * state :=
  (next s, MkState (dict s) (vendors s) (vsas s) (Pos.succ (next s))).

Definition addAttributeSpec (vendor : option Vendor.t) (name : jsstring)
    (id : Z) (type : jsstring) (fl : option jsstring)
    (extra : list jsstring) : M unit :=
  fun s =>
    let '(o, s) := fresh s in
    match newEntry o vendor name id type fl extra with
    | Throw e => (Throw e, s)
    | Ok ent =>
        let s :=
          match vendor with
          | Some v =>
              match vsas s !! Vendor.id v with
              | Some m => set_vsas (Vendor.id v) (<[id := ent]> m) s
              | None => s
              end
          | None => set_dict (inl (id)) ent s
          end in
        (Ok tt, set_dict (inr (toLowerCase name)) ent s)
    end.

Definition addVendor (name : jsstring) (id : Num.number)
    (extra : list jsstring) : M unit :=
  fun s =>
    match id with
    | Num.Int z =>
        match vendors s !! inl z with
        | Some _ => (Throw (ParseError "duplicate VENDOR entry"), s)
        | None =>
            let s := set_vsas z ∅ s in
            let '(o, s) := fresh s in
            match Vendor.new o name id extra with
            | Throw e => (Throw e, s)
            | Ok v =>
                (Ok tt,
                 set_vendor (inr (toLowerCase name)) v (set_vendor (inl z) v s))
            end
        end
    | _ => (Throw (ParseError "VENDOR entry's id is not an integer"), s)
    end.

(** [Dictionary.vendor(id)].  The last line reads the table again:
    [undefined] there is the [None] of the result. *)
Definition vendor_ (id : jsvalue) : M (option Vendor.t) :=
  fun s =>
    match id with
    | JNumber (Num.Int z) =>
        match vendors s !! inl z with
        | Some v => (Ok (Some v), s)
        | None =>
            match addVendor (str "Vendor" ++ str (pretty z)) (Num.Int z) [] s with
            | (Throw e, s) => (Throw e, s)
            | (Ok _, s) => (Ok (vendors s !! inl z), s)
            end
        end
    | JNumber _ => (Throw (TypeError "Dictionary vendor value not an integer"), s)
    | _ => (Throw (TypeError "Dictionary.vendor requires a numeric ID"), s)
    end.

(** [Dictionary.vsa(vendor_id, sub_id)]. *)
Definition vsa (vendor_id sub_id : jsvalue) : M (option Entry) :=
  fun s =>
    match vendor_id, sub_id with
    | JUndefined, _ =>
        (Throw (TypeError "dictionary VSA vendor id unspecified"), s)
    | _, JUndefined =>
        (Throw (TypeError "dictionary VSA attribute sub-id not specified"), s)
    | JNumber (Num.Int _), JNumber (Num.Int sub) =>
        match vendor_ vendor_id s with
        | (Throw e, s) => (Throw e, s)
        | (Ok None, s) =>
            (Throw (TypeError "Cannot read properties of undefined"), s)
        | (Ok (Some v), s) =>
            match vsas s !! Vendor.id v with
            | None =>
                (Throw (TypeError "Cannot read properties of undefined"), s)
            | Some d =>
                match d !! sub with
                | Some e => (Ok (Some e), s)
                | None =>
                    match addAttributeSpec (Some v)
                            (Vendor.name v ++ str "-Unknown-Attribute-"
                               ++ str (pretty sub))
                            sub (str "octets") None [] s with
                    | (Throw e, s) => (Throw e, s)
                    | (Ok _, s) =>
                        (Ok (d' ← vsas s !! Vendor.id v; d' !! sub), s)
                    end
                end
            end
        end
    | JNumber (Num.Int _), _ =>
        (Throw (TypeError "dictionary VSA attribute sub-id not an integer"), s)
    | _, _ =>
        (Throw (TypeError "dictionary VSA vendor id not an integer"), s)
    end.

(** [Dictionary.get(id)]. *)
Definition get (id : jsvalue) : M (option Entry) :=
  fun s =>
    match id with
    | JString name =>
        match dict s !! inr (toLowerCase name) with
        | Some e => (Ok (Some e), s)
        | None => (Throw (RangeError "unrecognised attribute name"), s)
        end
    | JNumber (Num.Int z) =>
        if (z <? 1) || (255 <? z) then
          (Throw (RangeError "dictionary lookup value out of range"), s)
        else
          match dict s !! inl z with
          | Some e => (Ok (Some e), s)
          | None =>
              match addAttributeSpec None
                      (str "Unknown-Attribute-" ++ str (pretty z))
                      z (str "octets") None [] s with
              | (Throw e, s) => (Throw e, s)
              | (Ok _, s) => (Ok (dict s !! inl z), s)
              end
          end
    | JNumber _ => (Throw (TypeError "dictionary lookup value not an integer"), s)
    | _ => (Throw (TypeError "Dictionary.get requires an id or string"), s)
    end.

(** The vendor table is consistent: a vendor filed under an Enterprise
    ID carries that ID and has its table of VSAs.  It holds of the empty
    tables and every function of the module keeps it. *)
Definition wf (s : state) : Prop :=
  forall z v, vendors s !! inl z = Some v ->
              Vendor.id v = z /\ is_Some (vsas s !! z).

(** Keeping the tables consistent, for a computation of the module. *)
Definition keeps_wf {A} (m : M A) : Prop :=
  forall s r s', wf s -> m s = (r, s') -> wf s'.

End Dictionary.

(* ===================================================================== *)
(** * lib/attribute.js                                                    *)
(* ===================================================================== *)

Module Attribute.

(** [md5(secret, chunk)]: the digest of the secret (a string, hashed as
    UTF-8) followed by the chunk. *)
Definition md5 (secret : jsstring) (chunk : list Z) : list Z :=
  MD5.digest (utf8_encode secret ++ chunk).

(** [xorBlock(i, d, s, b)]: a read past the end gives [undefined], which
    [^] takes as 0; a write past the end is ignored. *)
Definition xorBlock (i : nat) (d s b : list Z) : list Z :=
  fold_left
    (fun d j => <[(i + j)%nat := Z.lxor (at_ s (i + j)) (at_ b j)]> d)
    (seq 0 16) d.

(** The loop of [stripTrailingNULs]: the final value of [n]. *)
Fixpoint strip_index (n : nat) (b : list Z) : nat :=
  match n with
  | O => O
  | S m => if at_ b m =? 0 then strip_index m b else n
  end.

Definition stripTrailingNULs (b : list Z) : list Z :=
  slice 0 (strip_index (length b) b) b.

(** The values [i] takes in [for (let i = 0; i < n; i += 16)]. *)
Definition block_starts (n : nat) : list nat :=
  map (fun k => (16 * k)%nat) (seq 0 ((n + 15) / 16)).

Definition encodeMD5 (password : list Z) (secret : jsstring)
    (authenticator : list Z) : list Z :=
  let n := Z.to_nat (Z.land (Z.of_nat (length password) + 15) 0xf0) in
  let p := blit password 0 (alloc n) in
  fold_left
    (fun c i =>
       let chunk := if (i =? 0)%nat then authenticator
                    else slice (i - 16) i c in
       xorBlock i c p (md5 secret chunk))
    (block_starts n) (alloc n).

Definition decodeMD5 (cipher : list Z) (secret : jsstring)
    (authenticator : list Z) : result jsstring :=
  let n := length cipher in
  if negb (n mod 16 =? 0)%nat || (128 <? n)%nat then
    Throw (Error "illegal encrypted password length")
  else
    let c := cipher in
    let p :=
      fold_left
        (fun p i =>
           let chunk := if (i =? 0)%nat then authenticator
                        else slice (i - 16) i c in
           xorBlock i p c (md5 secret chunk))
        (block_starts n) (alloc n) in
    Ok (toString (stripTrailingNULs p)).

(** An attribute: its descriptor and its wrapped value (frozen). *)
Record t : Type := Mk { dict : Dictionary.Entry; avalue : AV.t }.

Definition name (a : t) : jsstring := Dictionary.name (dict a).
Definition value (a : t) : AV.payload := AV.value (avalue a).

(** The first argument of the constructor. *)
Inductive idarg : Type :=
| ById (id : jsvalue)
| ByEntry (e : Dictionary.Entry).

(** The part of the constructor that wraps the value. *)
Definition wrap (d : Dictionary.Entry) (v : jsvalue) : result t :=
  let type := Dictionary.realType d in
  av ← match v with
       | JBuffer _ => AV.fromBuffer type v
       | _ => AV.fromValue type v
       end;
  Ok (Mk d av).

(** [new Attribute(id, value)]. *)
Definition new (id : idarg) (v : jsvalue) : Dictionary.M t :=
  match id with
  | ById (JString _ as i) | ById (JNumber _ as i) =>
      d ← Dictionary.get i;
      match d with
      | Some d => lift (wrap d v)
      | None => throw (TypeError "Cannot read properties of undefined")
      end
  | ByEntry d => lift (wrap d v)
  | ById _ =>
      throw (TypeError
               "attribute ID must be a string, number or dictionary entry")
  end.

(** One [buf.writeUIntBE(v, offset, n)] on the buffer being filled. *)
Definition put (v : Z) (offset n : nat) : ST (list Z) nat :=
  fun buf =>
    match writeUIntBE v offset n buf with
    | Ok (off, buf') => (Ok off, buf')
    | Throw e => (Throw e, buf)
    end.

(** [attr.toWire(buf, offset, secret, authenticator)]. *)
Definition toWire (a : t) (offset : nat) (secret : jsstring)
    (authenticator : list Z) : ST (list Z) nat :=
  let dict := dict a in
  let vendor := Dictionary.vendor dict in
  let abuf := AV.toBuffer (avalue a) in
  let abuf :=
    match Dictionary.flags dict !! str "encrypt" with
    | Some (Num.Int 1) => encodeMD5 abuf secret authenticator
    | _ => abuf
    end in
  let length_ :=
    (2 + length abuf +
     match vendor with
     | Some v => 4 + Vendor.typeSize v + Vendor.lengthSize v
     | None => 0
     end)%nat in
  fun buf =>
    if (length buf <=? offset + length_)%nat then
      (Throw (RangeError "attributes will not fit in buffer"), buf)
    else
      (offset ← put (Dictionary.id dict) offset 1;
       offset ← put (Z.of_nat length_) offset 1;
       offset ←
         match vendor with
         | Some v =>
             offset ← put (Vendor.id v) offset 4;
             offset ←
               match Dictionary.sub_id dict with
               | Some sub => put sub offset (Vendor.typeSize v)
               | None => throw (TypeError "ERR_INVALID_ARG_TYPE")
               end;
             if (Vendor.lengthSize v =? 0)%nat then (mret offset : ST _ _)
             else put (Z.min (Z.of_nat (length abuf)) 255) offset
                      (Vendor.lengthSize v)
         | None => (mret offset : ST (list Z) nat)
         end;
       ((fun buf => (Ok (offset + length abuf)%nat, blit abuf offset buf))
        : ST (list Z) nat)) buf.

(** The store of [Attribute.fromWire]: the dictionary together with
    the [buffer] argument, whose second byte the VSA branch overwrites. *)
Abbreviation W := (ST (Dictionary.state * list Z)).

(** A dictionary call. *)
Definition dget {A} (m : Dictionary.M A) : W A :=
  fun '(s, b) => let '(r, s') := m s in (r, (s', b)).

(** Using a value that may be [undefined] as an object. *)
Definition defined {A} (o : option A) : W A :=
  match o with
  | Some a => mret a
  | None => throw (TypeError "Cannot read properties of undefined")
  end.

(** [buffer[1] = v] (a [Uint8Array] store keeps the low eight bits). *)
Definition poke1 (v : Z) : W unit :=
  fun '(s, b) => (Ok tt, (s, <[1%nat := v mod 256]> b)).

(** The VSA branch: the descriptor and the value bytes of the first
    sub-attribute. [buffer_length] is [buffer.length]. *)
Definition unwrap_vsa (dict : Dictionary.Entry) (data : list Z)
    (buffer_length : nat) : W (Dictionary.Entry * list Z) :=
  if (length data <? 4)%nat then
    throw (RangeError "VSA buffer too short to encode vendor")
  else
    vendor_id ← lift (readUIntBE data 0 4);
    vendor ← dget (Dictionary.vendor_ (JNumber (Num.Int vendor_id)));
    match vendor with
    | None => mret (dict, data)
    | Some vendor =>
        let typeSize := Vendor.typeSize vendor in
        let lengthSize := Vendor.lengthSize vendor in
        let offset := 4%nat in
        if (length data <? offset + typeSize + lengthSize)%nat then
          throw (RangeError "VSA buffer too short to encode id and length")
        else
          sub_id ← lift (readUIntBE data offset typeSize);
          let offset := (offset + typeSize)%nat in
          sub_length ←
            (if (lengthSize =? 0)%nat
             then mret (Z.of_nat (buffer_length - offset))
             else lift (readUIntBE data offset lengthSize));
          let offset := (offset + lengthSize)%nat in
          d ← dget (Dictionary.vsa (JNumber (Num.Int vendor_id))
                                   (JNumber (Num.Int sub_id)));
          dict ← defined d;
          let length_ := Z.of_nat offset + sub_length in
          poke1 length_ ;;
          mret (dict, slice offset (Z.to_nat length_) data)
    end.

(** The checks against the class's length bounds (both [undefined], so
    both comparisons are false). *)
Definition too_short (k : AV.kind) (data : list Z) : bool :=
  match AV.minimumLength k with
  | Some m => (length data <? m)%nat
  | None => false
  end.

Definition too_long (k : AV.kind) (data : list Z) : bool :=
  match AV.maximumLength k with
  | Some m => (m <? length data)%nat
  | None => false
  end.

(** The decryption step: the value handed to the constructor. *)
Definition decrypt (dict : Dictionary.Entry) (data : list Z)
    (secret : jsstring) (authenticator : list Z) : result jsvalue :=
  match Dictionary.flags dict !! str "encrypt" with
  | None => Ok (JBuffer data)
  | Some (Num.Int 1) =>
      s ← decodeMD5 data secret authenticator; Ok (JString s)
  | Some _ => Throw (Error "attribute uses unsupported encryption scheme")
  end.

(** [Attribute.fromWire(buffer, secret, authenticator)]. *)
Definition fromWire (secret : jsstring) (authenticator : list Z) : W t :=
  fun '(s, buffer) =>
    if (length buffer <? 2)%nat then
      (Throw (RangeError "invalid length for attribute buffer"), (s, buffer))
    else
      let id := at_ buffer 0 in
      let length_ := at_ buffer 1 in
      if negb (Z.of_nat (length buffer) =? length_) then
        (Throw (RangeError "length mismatch in attribute buffer"), (s, buffer))
      else
        (d ← dget (Dictionary.get (JNumber (Num.Int id)));
         dict ← defined d;
         let data := slice 2 (length buffer) buffer in
         '(dict, data) ←
           (if Dictionary.isVSA dict
            then unwrap_vsa dict data (length buffer)
            else mret (dict, data));
         if too_short (Dictionary.realType dict) data then
           throw (RangeError "attribute value too short for type")
         else if too_long (Dictionary.realType dict) data then
           throw (RangeError "attribute value too long for type")
         else
           v ← lift (decrypt dict data secret authenticator);
           lift (wrap dict v)) (s, buffer).

End Attribute.

(* ===================================================================== *)
(** * lib/attrlist.js                                                     *)
(* ===================================================================== *)

Module AttributeList.

(** The private array of the list and its [readonly] flag. *)
Record t : Type := Mk { list_ : list Attribute.t; readonly : bool }.

Definition new (attrs : list Attribute.t) (readonly : bool) : t :=
  Mk attrs readonly.

(** The argument of [add]: an attribute, or what its constructor takes. *)
Inductive addarg : Type :=
| AddAttr (a : Attribute.t)
| AddNew (id : Attribute.idarg) (value : jsvalue).

(** [list.add(attr, value)]. *)
Definition add (x : addarg) (l : t) : Dictionary.M t :=
  if readonly l then throw (Error "AttributeList is read-only")
  else
    a ← match x with
        | AddAttr a => mret a
        | AddNew id v => Attribute.new id v
        end;
    mret (Mk (list_ l ++ [a]) (readonly l)).

(** [list.toWire(buf, offset, secret, authenticator)]. *)
Fixpoint toWire_from (attrs : list Attribute.t) (offset : nat)
    (secret : jsstring) (authenticator : list Z) : ST (list Z) nat :=
  match attrs with
  | [] => mret offset
  | a :: attrs' =>
      offset ← Attribute.toWire a offset secret authenticator;
      toWire_from attrs' offset secret authenticator
  end.

Definition toWire (l : t) (offset : nat) (secret : jsstring)
    (authenticator : list Z) : ST (list Z) nat :=
  toWire_from (list_ l) offset secret authenticator.

(** The state of the [while] loop of [parseAttributes]: the position [n],
    the attributes pushed so far; the store holds the dictionary and
    [buf]. *)
Inductive step_result : Type :=
| Continue (n : nat) (attrs : list Attribute.t)
| Break (attrs : list Attribute.t).

(** One evaluation of the loop condition and, when it holds, of the loop
    body.  [data] is a view of [buf]: what [Attribute.fromWire] writes
    into it is written into [buf]. *)
Definition body (secret : jsstring) (authenticator : list Z)
    (n : nat) (attrs : list Attribute.t)
  : ST (Dictionary.state * list Z) step_result :=
  fun '(s, buf) =>
    let len := length buf in
    if (n <? len)%nat then
      if (2 <? len - n)%nat then
        let len' := Z.to_nat (at_ buf (n + 1)) in
        let data := slice n (n + len') buf in
        let '(r, (s', data')) :=
          Attribute.fromWire secret authenticator (s, data) in
        let buf' := blit data' n buf in
        match r with
        | Ok attr => (Ok (Continue (n + len') (attrs ++ [attr])), (s', buf'))
        | Throw e => (Throw e, (s', buf'))
        end
      else (Ok (Continue n attrs), (s, buf))
    else (Ok (Break attrs), (s, buf)).

(** The loop, run for at most [fuel] evaluations of its condition;
    [None] when it has not finished by then. *)
Fixpoint loop (fuel : nat) (secret : jsstring) (authenticator : list Z)
    (n : nat) (attrs : list Attribute.t) (st : Dictionary.state * list Z)
  : option (result (list Attribute.t) * (Dictionary.state * list Z)) :=
  match fuel with
  | O => None
  | S fuel' =>
      match body secret authenticator n attrs st with
      | (Ok (Break attrs'), st') => Some (Ok attrs', st')
      | (Ok (Continue n' attrs'), st') =>
          loop fuel' secret authenticator n' attrs' st'
      | (Throw e, st') => Some (Throw e, st')
      end
  end.

(** [parseAttributes(buf, offset, secret, authenticator)]. *)
Definition parseAttributes (fuel : nat) (offset : nat) (secret : jsstring)
    (authenticator : list Z) (st : Dictionary.state * list Z)
  : option (result (list Attribute.t) * (Dictionary.state * list Z)) :=
  loop fuel secret authenticator offset [] st.

(** [AttributeList.fromWire(buf, offset, secret, authenticator)]. *)
Definition fromWire (fuel : nat) (offset : nat) (secret : jsstring)
    (authenticator : list Z) (st : Dictionary.state * list Z)
  : option (result t * (Dictionary.state * list Z)) :=
  match parseAttributes fuel offset secret authenticator st with
  | None => None
  | Some (Ok attrs, st') => Some (Ok (new attrs true), st')
  | Some (Throw e, st') => Some (Throw e, st')
  end.

End AttributeList.

(* ===================================================================== *)
(** * lib/packet.js                                                       *)
(* ===================================================================== *)

Module RadiusPacket.

(** A packet.  [settable] tells whether the setters of [code] and
    [authenticator] are still there ([fromWire] removes them). *)
Record t : Type := Mk {
  code : Code.t;
  identifier : Z;
  authenticator : list Z;
  attributes : AttributeList.t;
  settable : bool
}.

Definition parseCode (c : Code.arg) : result Code.t := Code.from c.

Definition parseId (id : jsvalue) : result Z :=
  match id with
  | JNumber (Num.Int z) =>
      if (z <? 0) || (255 <? z)
      then Throw (RangeError "id must be an 8-bit unsigned integer")
      else Ok z
  | JNumber _ => Throw (RangeError "id must be an 8-bit unsigned integer")
  | _ => Throw (TypeError "id must be a number")
  end.

Definition parseAuthenticator (a : jsvalue) : result (list Z) :=
  match a with
  | JBuffer b =>
      if negb (length b =? 16)%nat
      then Throw (RangeError "authenticator length incorrect")
      else Ok b
  | _ => Throw (TypeError "authenticator must be a Buffer")
  end.

(** The fourth argument of the constructor. *)
Inductive attrsarg : Type :=
| NoAttrs
| TheList (l : AttributeList.t)
| Iterable (xs : list AttributeList.addarg)
| NotIterable.

Fixpoint add_all (xs : list AttributeList.addarg) (l : AttributeList.t)
  : Dictionary.M AttributeList.t :=
  match xs with
  | [] => mret l
  | x :: xs' => l' ← AttributeList.add x l; add_all xs' l'
  end.

Definition parseAttributes (a : attrsarg) : Dictionary.M AttributeList.t :=
  match a with
  | NoAttrs => mret (AttributeList.new [] false)
  | TheList l => mret l
  | Iterable xs => add_all xs (AttributeList.new [] false)
  | NotIterable => throw (TypeError "RadiusPacket attributes incorrect type")
  end.

(** [new RadiusPacket(code, id, authenticator, attrs)]. *)
Definition new (code : Code.arg) (id authenticator : jsvalue)
    (attrs : attrsarg) : Dictionary.M t :=
  code ← lift (parseCode code);
  id ← lift (parseId id);
  authenticator ← lift (parseAuthenticator authenticator);
  attrs ← parseAttributes attrs;
  mret (Mk code id authenticator attrs true).

(** [pkt.add(id, value)]. *)
Definition add (x : AttributeList.addarg) (p : t) : Dictionary.M t :=
  l ← AttributeList.add x (attributes p);
  mret (Mk (code p) (identifier p) (authenticator p) l (settable p)).

(** [attr.dict === dict]: the same object. *)
Definition same_entry (d1 d2 : Dictionary.Entry) : bool :=
  Pos.eqb (Dictionary.oid d1) (Dictionary.oid d2).

(** [pkt.getAll(id)]. *)
Definition getAll (id : jsvalue) (p : t) : Dictionary.M (list Attribute.t) :=
  d ← Dictionary.get id;
  mret (match d with
        | Some d =>
            filter (fun a => same_entry (Attribute.dict a) d)
                   (AttributeList.list_ (attributes p))
        | None => []
        end).

(** [pkt.has(id)] and [pkt.get(id)]. *)
Definition has (id : jsvalue) (p : t) : Dictionary.M bool :=
  l ← getAll id p; mret (match l with [] => false | _ => true end).

Definition get (id : jsvalue) (p : t) : Dictionary.M (option Attribute.t) :=
  l ← getAll id p; mret (head l).

(** The response authenticator: MD5 over the packet as built (with the
    authenticator of the request in the header) followed by the
    secret. *)
Definition response_authenticator (buffer : list Z) (secret : jsstring)
  : list Z :=
  MD5.digest (buffer ++ utf8_encode secret).

(** [pkt.toWire(secret, response)]. *)
Definition toWire (p : t) (secret : jsstring) (response : bool)
  : result (list Z) :=
  let buffer := alloc 4096 in
  let offset := 0%nat in
  '(offset, buffer) ← writeUIntBE (Code.valueOf (code p)) offset 1 buffer;
  '(offset, buffer) ← writeUIntBE (identifier p) offset 1 buffer;
  let length_offset := offset in
  '(offset, buffer) ← writeUIntBE 0 offset 2 buffer;
  let authen_offset := offset in
  let buffer := blit (authenticator p) authen_offset buffer in
  let offset := (offset + 16)%nat in
  match AttributeList.toWire (attributes p) offset secret (authenticator p)
          buffer with
  | (Throw e, _) => Throw e
  | (Ok offset, buffer) =>
      let length_ := offset in
      '(_, buffer) ← writeUIntBE (Z.of_nat length_) length_offset 2 buffer;
      let buffer := slice 0 length_ buffer in
      Ok (if response
          then blit (response_authenticator buffer secret) authen_offset buffer
          else buffer)
  end.

(** [RadiusPacket.fromWire(buf, secret)], the attribute loop being run
    for at most [fuel] rounds ([None]: it has not finished by then). *)
Definition fromWire (fuel : nat) (secret : jsstring)
    (st : Dictionary.state * list Z)
  : option (result t * (Dictionary.state * list Z)) :=
  let '(s, buf) := st in
  if (length buf <? 20)%nat then
    Some (Throw (Error "RADIUS buffer too short"), st)
  else
    match readUIntBE buf 2 2 with
    | Throw e => Some (Throw e, st)
    | Ok length_ =>
        if Z.of_nat (length buf) <? length_ then
          Some (Throw (Error "RADIUS buffer length mismatch"), st)
        else
          let code := Code.at_byte (at_ buf 0) in
          let id := at_ buf 1 in
          let authenticator := slice 4 20 buf in
          match AttributeList.fromWire fuel 20 secret authenticator st with
          | None => None
          | Some (Throw e, st') => Some (Throw e, st')
          | Some (Ok attrs, (s', buf')) =>
              let '(r, s'') :=
                new (match code with
                     | Some c => Code.OfCode c
                     | None => Code.OfValue JUndefined
                     end)
                    (JNumber (Num.Int id)) (JBuffer authenticator)
                    (TheList attrs) s' in
              Some (match r with
                    | Ok pkt =>
                        Ok (Mk (RadiusPacket.code pkt) (identifier pkt)
                               (RadiusPacket.authenticator pkt)
                               (attributes pkt) false)
                    | Throw e => Throw e
                    end, (s'', buf'))
          end
    end.

End RadiusPacket.

(* ===================================================================== *)
(** * Buffers as views of shared memory (lib/packet.js, constructor)      *)
(* ===================================================================== *)

(** Everywhere else a Buffer is the list of its bytes.  Here the memory
    behind the Buffer objects is explicit, for the code whose behaviour
    depends on which objects share it: a Node.js [Buffer] is a window
    onto an [ArrayBuffer], and [buf.slice(start)] returns a new Buffer
    object over the SAME memory. *)
Module Mem.

(** A Buffer object: the memory block it looks at, where it starts
    there, and its length. *)
Record buffer : Type := View { block : positive; start : nat; len : nat }.

(** The memory blocks. *)
Definition store : Type := gmap positive (list Z).

(** [Buffer.alloc(n)], [b] being the block the allocator hands out. *)
Definition alloc (b : positive) (n : nat) (m : store) : buffer * store :=
  (View b 0 n, <[b := replicate n 0]> m).

(** The bytes seen through a Buffer. *)
Definition contents (m : store) (buf : buffer) : list Z :=
  take (len buf) (drop (start buf) (default [] (m !! block buf))).

(** [buf[i] = v]: a [Uint8Array] store keeps the low eight bits and
    ignores an index outside the Buffer. *)
Definition set_byte (buf : buffer) (i : nat) (v : Z) (m : store) : store :=
  if (i <? len buf)%nat then
    match m !! block buf with
    | Some bytes => <[block buf := <[(start buf + i)%nat := v mod 256]> bytes]> m
    | None => m
    end
  else m.

(** [buf.slice(a)]: a new Buffer object on the same memory. *)
Definition slice (a : nat) (buf : buffer) : buffer :=
  View (block buf) (start buf + Nat.min a (len buf))
       (len buf - Nat.min a (len buf)).

(** [parseAuthenticator(authenticator)]; the argument is a Buffer. *)
Definition parseAuthenticator (a : buffer) : result buffer :=
  if negb (len a =? 16)%nat
  then Throw (RangeError "authenticator length incorrect")
  else Ok a.

(** The closure variable [authenticator] of a packet made by the
    constructor, behind the accessors of the [authenticator] property. *)
Record packet : Type := Packet { authenticator_var : buffer }.

(** The part of [new RadiusPacket(code, id, authenticator, attrs)] that
    deals with the authenticator. *)
Definition new (authenticator : buffer) : result packet :=
  a ← parseAuthenticator authenticator; Ok (Packet a).

(** The getter: [authenticator.slice(0)]. *)
Definition get_authenticator (p : packet) : buffer :=
  slice 0 (authenticator_var p).

(** The setter: [authenticator = parseAuthenticator(val)]. *)
Definition set_authenticator (val : buffer) (p : packet) : result packet :=
  a ← parseAuthenticator val; Ok (Packet a).

End Mem.

(* ===================================================================== *)
(** * lib/server.js                                                       *)
(* ===================================================================== *)

Module RadiusServer.

(** The role of a socket: the strings ['auth'] and ['acct']. *)
Inductive role : Type := auth | acct.

(** [req.code === Code.KEY], where [Code.KEY] may be [undefined]. *)
Definition code_is (c : Code.t) (key : string) : bool :=
  match Code.prop (str key) with
  | Some c' => Code.code c =? Code.code c'
  | None => false
  end.

(** [defaultResponse(type, req)]; [None] is [undefined]. *)
Definition defaultResponse (type : role) (req : RadiusPacket.t)
  : Dictionary.M (option RadiusPacket.t) :=
  let res_code :=
    match type with
    | auth =>
        if code_is (RadiusPacket.code req) "ACCESS_REQUEST"
        then Code.prop (str "ACCESS_REJECT")
        else if code_is (RadiusPacket.code req) "SERVER_STATUS"
        then Code.prop (str "ACCESS_ACCEPT")
        else None
    | acct =>
        if code_is (RadiusPacket.code req) "ACCOUNTING_REQUEST"
        then Code.prop (str "ACCOUNTING_RESPONSE")
        else None
    end in
  match res_code with
  | None => mret None
  | Some res_code =>
      res ← RadiusPacket.new (Code.OfCode res_code)
              (JNumber (Num.Int (RadiusPacket.identifier req)))
              (JBuffer (RadiusPacket.authenticator req))
              RadiusPacket.NoAttrs;
      attrs ← RadiusPacket.getAll (JString (str "Proxy-State")) req;
      res ← RadiusPacket.add_all (map AttributeList.AddAttr attrs)
              (RadiusPacket.attributes res)
            ≫= (fun l => mret (RadiusPacket.Mk (RadiusPacket.code res)
                                 (RadiusPacket.identifier res)
                                 (RadiusPacket.authenticator res) l
                                 (RadiusPacket.settable res)));
      mret (Some res)
  end.

(** A handler function: it reads the request, may change the response
    and the dictionary, and returns a value (of which only the truth
    matters) or throws. *)
Definition handler_fn : Type :=
  RadiusPacket.t -> ST (Dictionary.state * RadiusPacket.t) bool.

(** The value of a property of a handler object. *)
Inductive prop_value : Type :=
| PFun (f : handler_fn)
| PVal (v : jsvalue).

(** What [use] may be given: an object or a function with its own
    [auth] and [acct] properties ([None]: no such property), [null], or
    a value that is neither an object nor a function. *)
Inductive handler : Type :=
| HObject (callable : bool) (auth_prop acct_prop : option prop_value)
| HNull
| HPrimitive (v : jsvalue).

Definition get_prop (type : role) (h : handler) : option prop_value :=
  match h with
  | HObject _ a c => match type with auth => a | acct => c end
  | _ => None
  end.

Definition truthy (v : jsvalue) : bool :=
  match v with
  | JUndefined | JNull | JBool false => false
  | JNumber (Num.Int 0) | JNumber Num.NaN => false
  | JString [] => false
  | _ => true
  end.

(** [invokeHandlers(req, res, type, handlers)]; the store holds the
    dictionary and [res]. *)
Fixpoint invokeHandlers (req : RadiusPacket.t) (type : role)
    (handlers : list handler) : ST (Dictionary.state * RadiusPacket.t) unit :=
  match handlers with
  | [] => mret tt
  | h :: rest =>
      match get_prop type h with
      | Some (PFun f) =>
          stop ← f req;
          if (stop : bool) then mret tt else invokeHandlers req type rest
      | Some (PVal v) =>
          if truthy v then throw (TypeError "handler[type] is not a function")
          else invokeHandlers req type rest
      | None => invokeHandlers req type rest
      end
  end.

(** [getResponse(type, req, handlers)]: the response to send, if any.
    An exception of [defaultResponse] leaves the function; one of a
    handler is caught and logged, and there is no response. *)
Definition getResponse (type : role) (req : RadiusPacket.t)
    (handlers : list handler) : Dictionary.M (option RadiusPacket.t) :=
  fun s =>
    match defaultResponse type req s with
    | (Throw e, s) => (Throw e, s)
    | (Ok None, s) => (Ok None, s)
    | (Ok (Some res), s) =>
        if negb (code_is (RadiusPacket.code req) "STATUS_SERVER") then
          match invokeHandlers req type handlers (s, res) with
          | (Ok _, (s', res')) => (Ok (Some res'), s')
          | (Throw _, (s', _)) => (Ok None, s')
          end
        else (Ok (Some res), s)
    end.

(** The state object of a server. *)
Record state : Type := MkState {
  clients : gmap (list Z) (list Z);
  handlers : list handler;
  debug : bool
}.

Definition initial : state := MkState ∅ [] true.

(** [server.addClient(client, secret)]. *)
Definition addClient (client secret : jsstring) (st : state) : state :=
  MkState (<[client := secret]> (clients st)) (handlers st) (debug st).

(** What a call of [use] evaluates to when it does not throw. *)
Inductive use_value : Type :=
| TheServer
| AnError (e : exn).

Definition is_function (p : prop_value) : bool :=
  match p with PFun _ => true | PVal _ => false end.

(** [server.use(handler)]. *)
Definition use (h : handler) : ST state use_value :=
  fun st =>
    match h with
    | HPrimitive _ =>
        (Ok (AnError (TypeError "handler must be a function or object")), st)
    | HNull =>
        (Throw (TypeError "Cannot use 'in' operator to search for 'auth' in null"), st)
    | HObject _ a c =>
        if match a with Some p => negb (is_function p) | None => false end then
          (Ok (AnError (TypeError "handler.auth must be a function or undefined")), st)
        else if match c with Some p => negb (is_function p) | None => false end then
          (Ok (AnError (TypeError "handler.acct must be a function or undefined")), st)
        else
          (Ok TheServer, MkState (clients st) (handlers st ++ [h]) (debug st))
    end.

(** A datagram handed to [socket.send]. *)
Record datagram : Type := Datagram {
  payload : list Z; to_port : Z; to_address : list Z
}.

(** The ['message'] listener of a socket: the datagrams it sends.  The
    decoding is run for at most [fuel] rounds; [None] when the listener
    has not returned by then.  Every exception is caught and traced. *)
Definition on_message (fuel : nat) (type : role) (st : state)
    (msg : list Z) (address : jsstring) (port : Z) (s : Dictionary.state)
  : option (list datagram * Dictionary.state) :=
  match clients st !! address with
  | None => Some ([], s)
  | Some secret =>
      match RadiusPacket.fromWire fuel secret (s, msg) with
      | None => None
      | Some (Throw _, (s', _)) => Some ([], s')
      | Some (Ok req, (s', _)) =>
          match getResponse type req (handlers st) s' with
          | (Ok (Some res), s'') =>
              match RadiusPacket.toWire res secret true with
              | Ok buffer => Some ([Datagram buffer port address], s'')
              | Throw _ => Some ([], s'')
              end
          | (_, s'') => Some ([], s'')
          end
      end
  end.

End RadiusServer.

(* ===================================================================== *)
(** * lib/client.js                                                       *)
(* ===================================================================== *)

Module RadiusClient.

(** An entry of [client_state.servers]; [id] is the counter the
    identifiers are taken from. *)
Record server : Type := Server {
  host : list Z; secret : list Z; auth : Z; acct : Z; id : Z
}.

(** The remembered state of one server's attempt ([state[n]]). *)
Record attempt_state : Type := AttemptState {
  a_code : Code.t;
  a_identifier : Z;
  a_authenticator : list Z;
  a_address : list Z;
  a_port : Z;
  a_secret : list Z;
  a_buffer : list Z
}.

(** How the promise returned by [request] was settled. *)
Inductive settlement : Type :=
| Resolved (res : RadiusPacket.t)
| RejectedWith (res : RadiusPacket.t)
| RejectedError (e : exn).

Definition timeout_error : exn := Error "timeout".

Record datagram : Type := Datagram {
  payload : list Z; to_port : Z; to_address : list Z
}.

(** Everything a pending request holds: the servers (whose [id] moves),
    the dictionary, the array [state], the timer, the socket, the
    promise, and, for the proofs, the datagrams given to [socket.send]
    (latest last) and an uncaught exception if one escaped a timer
    callback. *)
Record rstate : Type := RState {
  servers : list server;
  dictionary : Dictionary.state;
  slots : gmap nat attempt_state;
  timer : bool;
  current : option attempt_state;
  attempt : nat;
  closed : bool;
  promise : option settlement;
  sent : list datagram;
  drawn : nat;
  uncaught : option exn
}.

(** What stays the same during a request: the arguments of [_request],
    [client_state.retry], and the source of random numbers ([random i]
    is the value of the [i]-th [Math.floor(256 * Math.random())]). *)
Record request : Type := Request {
  code : Code.t;
  attrs : RadiusPacket.attrsarg;
  retry : nat;
  random : nat -> Z
}.

(** [RadiusPacket.randomAuthenticator()], after [drawn] earlier draws. *)
Definition randomAuthenticator (rq : request) (drawn : nat) : list Z :=
  map (fun i => random rq (drawn + i)%nat mod 256) (seq 0 16).

Definition settle (x : settlement) (st : rstate) : rstate :=
  match promise st with
  | Some _ => st
  | None =>
      RState (servers st) (dictionary st) (slots st) (timer st) (current st)
             (attempt st) (closed st) (Some x) (sent st) (drawn st)
             (uncaught st)
  end.

Definition close (st : rstate) : rstate :=
  RState (servers st) (dictionary st) (slots st) (timer st) (current st)
         (attempt st) true (promise st) (sent st) (drawn st) (uncaught st).

Definition set_timer (b : bool) (st : rstate) : rstate :=
  RState (servers st) (dictionary st) (slots st) b (current st)
         (attempt st) (closed st) (promise st) (sent st) (drawn st)
         (uncaught st).

(** The request packet of an attempt and its wire form:
    [new RadiusPacket(code, identifier, authenticator, attrs)] followed
    by [req.toWire(secret, false)]. *)
Definition build (rq : request) (identifier : Z) (authenticator : list Z)
    (secret : list Z) : Dictionary.M (list Z) :=
  req ← RadiusPacket.new (Code.OfCode (code rq))
          (JNumber (Num.Int identifier)) (JBuffer authenticator) (attrs rq);
  lift (RadiusPacket.toWire req secret false).

(** The port of a server that a request with this code goes to. *)
Definition port_of (rq : request) (srv : server) : Z :=
  if RadiusServer.code_is (code rq) "ACCOUNTING_REQUEST"
  then acct srv else auth srv.

(** [getState(n)]. *)
Definition getState (rq : request) (n : nat) : ST rstate attempt_state :=
  fun st =>
    match slots st !! n with
    | Some a => (Ok a, st)
    | None =>
        match servers st !! n with
        | None => (Throw (TypeError "Cannot read properties of undefined"), st)
        | Some server =>
            let address := host server in
            let port := port_of rq server in
            let secret := secret server in
            let identifier := Z.land (id server) 0xff in
            let servers' :=
              <[n := Server (host server) secret (auth server) (acct server)
                            (id server + 1)]> (servers st) in
            let authenticator := randomAuthenticator rq (drawn st) in
            let drawn' := (drawn st + 16)%nat in
            let '(r, dictionary') :=
              build rq identifier authenticator secret (dictionary st) in
            let st' slots' :=
              RState servers' dictionary' slots' (timer st) (current st)
                     (attempt st) (closed st) (promise st) (sent st) drawn'
                     (uncaught st) in
            match r with
            | Throw e => (Throw e, st' (slots st))
            | Ok buffer =>
                let a := AttemptState (code rq) identifier authenticator
                                      address port secret buffer in
                (Ok a, st' (<[n := a]> (slots st)))
            end
        end
    end.

(** The function [send]: choose the server, arm the timer, send. *)
Definition send (rq : request) : ST rstate unit :=
  fun st =>
    let slen := length (servers st) in
    let n := (attempt st mod slen)%nat in
    match getState rq n st with
    | (Throw e, st) => (Throw e, st)
    | (Ok cur, st) =>
        let st :=
          RState (servers st) (dictionary st) (slots st) true (Some cur)
                 (attempt st) (closed st) (promise st) (sent st) (drawn st)
                 (uncaught st) in
        if closed st then (Throw (Error "ERR_SOCKET_DGRAM_NOT_RUNNING"), st)
        else
          (Ok tt,
           RState (servers st) (dictionary st) (slots st) (timer st)
                  (current st) (attempt st) (closed st) (promise st)
                  (sent st ++ [Datagram (a_buffer cur) (a_port cur)
                                        (a_address cur)])
                  (drawn st) (uncaught st))
    end.

(** The executor of the promise: the first [send].  An exception there
    rejects the promise. *)
Definition start (rq : request) (servers : list server)
    (dictionary : Dictionary.state) : rstate :=
  let st0 := RState servers dictionary ∅ false None 0 false None [] 0 None in
  match send rq st0 with
  | (Ok _, st) => st
  | (Throw e, st) => settle (RejectedError e) st
  end.

(** The action chosen from the two codes, for a response that has passed
    the checks. *)
Inductive action : Type := DoResolve | DoReject.

Definition choose (req_code res_code : Code.t) : option action :=
  match Code.toString req_code, Code.toString res_code with
  | Some rq, Some rs =>
      if String.eqb rq "Access-Request" then
        if String.eqb rs "Access-Accept" then Some DoResolve
        else if String.eqb rs "Access-Reject" then Some DoReject
        else None
      else if String.eqb rq "Accounting-Request" then
        if String.eqb rs "Accounting-Response" then Some DoResolve else None
      else None
  | _, _ => None
  end.

(** What happens to a pending request.  [Message address port res]: a
    datagram arrives from [address:port]; [res] is the packet decoded
    from it when it parses, carries the identifier of the current
    attempt and its authenticator field is the expected digest, and
    [None] when one of these three checks drops it. *)
Inductive event : Type :=
| TimerFires
| Message (address : list Z) (port : Z) (res : option RadiusPacket.t)
| SocketError (e : exn).

Definition max_attempts (rq : request) (st : rstate) : nat :=
  (retry rq * length (servers st))%nat.

(** The callback given to [setTimeout]. *)
Definition on_timer (rq : request) (st : rstate) : rstate :=
  let st := set_timer false st in
  let st :=
    RState (servers st) (dictionary st) (slots st) (timer st) (current st)
           (S (attempt st)) (closed st) (promise st) (sent st) (drawn st)
           (uncaught st) in
  if (attempt st <? max_attempts rq st)%nat then
    match send rq st with
    | (Ok _, st) => st
    | (Throw e, st) =>
        RState (servers st) (dictionary st) (slots st) (timer st)
               (current st) (attempt st) (closed st) (promise st) (sent st)
               (drawn st) (Some e)
    end
  else settle (RejectedError timeout_error) (close st).

(** The ['message'] listener. *)
Definition on_message (rq : request) (address : list Z) (port : Z)
    (res : option RadiusPacket.t) (st : rstate) : rstate :=
  match current st with
  | Some cur =>
      if negb (bool_decide (address = a_address cur))
         || negb (port =? a_port cur)
      then st
      else
        match res with
        | None => st
        | Some res =>
            match choose (code rq) (RadiusPacket.code res) with
            | Some DoResolve =>
                settle (Resolved res) (close (set_timer false st))
            | Some DoReject =>
                settle (RejectedWith res) (close (set_timer false st))
            | None => st
            end
        end
  | None => st
  end.

(** One event.  The timer callback runs only while a timer is armed. *)
Definition step (rq : request) (st : rstate) (ev : event) : rstate :=
  match uncaught st with
  | Some _ => st
  | None =>
      match ev with
      | TimerFires => if timer st then on_timer rq st else st
      | Message address port res => on_message rq address port res st
      | SocketError e => settle (RejectedError e) (close st)
      end
  end.

(** [_request(client_state, code, attrs)] followed by the events
    [evs]. *)
Definition run (rq : request) (servers : list server)
    (dictionary : Dictionary.state) (evs : list event) : rstate :=
  fold_left (step rq) evs (start rq servers dictionary).

End RadiusClient.

(* ===================================================================== *)
(** * The attribute layouts, in the words of the specification            *)
(* ===================================================================== *)

(** These definitions do not come from the sources: they spell out the
    wire layouts of the specification, for comparison with
    [Attribute.toWire]. *)
Module Layout.
(** The bytes of the value as sent: hidden when the descriptor has the
    flag [encrypt=1]. *)
Definition data (a : Attribute.t) (secret authenticator : list Z) : list Z :=
  let abuf := AV.toBuffer (Attribute.avalue a) in
  match Dictionary.flags (Attribute.dict a) !! str "encrypt" with
  | Some (Num.Int 1) => Attribute.encodeMD5 abuf secret authenticator
  | _ => abuf
  end.

(** [id:u8 | length:u8 | data], [length = 2 + |data|]. *)
Definition standard (id : Z) (data : list Z) : list Z :=
  [id; Z.of_nat (2 + length data)] ++ data.

(** [26:u8 | length:u8 | vendor_id:u32be | sub_id:uintbe(typeSize) |
    [sub_length:uintbe(lengthSize)] | data]. *)
Definition vsa (vendor_id sub_id : Z) (typeSize lengthSize : nat)
    (data : list Z) : list Z :=
  [26; Z.of_nat (2 + 4 + typeSize + lengthSize + length data)]
  ++ be_bytes 4 vendor_id
  ++ be_bytes typeSize sub_id
  ++ (if (lengthSize =? 0)%nat then []
      else be_bytes lengthSize (Z.min (Z.of_nat (length data)) 255))
  ++ data.
End Layout.

(* ===================================================================== *)
(** * A small dictionary and a few attributes, for the examples           *)
(* ===================================================================== *)

Module Examples.

(** What loading these dictionary lines does:
    ATTRIBUTE User-Name 1 string, ATTRIBUTE User-Password 2 string
    encrypt=1, ATTRIBUTE Framed-Protocol 7 integer, ATTRIBUTE
    Framed-IP-Address 8 ipaddr, ATTRIBUTE Vendor-Specific 26 vsa,
    ATTRIBUTE Proxy-State 33 octets, VENDOR Cisco 9, and, inside
    BEGIN-VENDOR Cisco, ATTRIBUTE Cisco-AVPair 1 string. *)
Definition load : Dictionary.M unit :=
  Dictionary.addAttributeSpec None (str "User-Name") 1 (str "string") None [] ;;
  Dictionary.addAttributeSpec None (str "User-Password") 2 (str "string")
    (Some (str "encrypt=1")) [] ;;
  Dictionary.addAttributeSpec None (str "Framed-Protocol") 7 (str "integer")
    None [] ;;
  Dictionary.addAttributeSpec None (str "Framed-IP-Address") 8 (str "ipaddr")
    None [] ;;
  Dictionary.addAttributeSpec None (str "Vendor-Specific") 26 (str "vsa")
    None [] ;;
  Dictionary.addAttributeSpec None (str "Proxy-State") 33 (str "octets")
    None [] ;;
  Dictionary.addVendor (str "Cisco") (Num.Int 9) [] ;;
  v ← Dictionary.vendor_ (JNumber (Num.Int 9));
  Dictionary.addAttributeSpec v (str "Cisco-AVPair") 1 (str "string") None [].

Definition dictionary : Dictionary.state := snd (load Dictionary.empty).

Definition secret : list Z := str "secret".
Definition zeros : list Z := replicate 16 0.

(** [new Attribute(name, value)] in that dictionary. *)
Definition attribute (name : string) (v : jsvalue) : result Attribute.t :=
  fst (Attribute.new (Attribute.ById (JString (str name))) v dictionary).

Definition cisco : Vendor.t := Vendor.Mk 7 (str "Cisco") 9 1 1.

Definition cisco_avpair : Dictionary.Entry :=
  Dictionary.MkEntry 8 AV.VSA 26 (str "Cisco-AVPair") (Some cisco) (Some 1)
                     (Some AV.String) ∅ [].

(** A Cisco-AVPair of 250 characters. *)
Definition long_avpair : Attribute.t :=
  Attribute.Mk cisco_avpair (AV.Mk AV.String (AV.Bytes (replicate 250 120))).

(** A Cisco-AVPair with the value "xyzw". *)
Definition short_avpair : Attribute.t :=
  Attribute.Mk cisco_avpair (AV.Mk AV.String (AV.Bytes (str "xyzw"))).

(** The descriptors of User-Name and Framed-Protocol in that
    dictionary. *)
Definition user_name : Dictionary.Entry :=
  Dictionary.MkEntry 1 AV.String 1 (str "User-Name") None None None ∅ [].

Definition framed_protocol : Dictionary.Entry :=
  Dictionary.MkEntry 3 AV.Integer 7 (str "Framed-Protocol") None None None ∅ [].

(** User-Name = "alice" and Framed-Protocol = 1. *)
Definition alice : Attribute.t :=
  Attribute.Mk user_name (AV.Mk AV.String (AV.Bytes (str "alice"))).

Definition ppp : Attribute.t :=
  Attribute.Mk framed_protocol (AV.Mk AV.Integer (AV.Number 1)).

(** An Access-Accept with identifier 7, a zero authenticator and three
    attributes. *)
Definition accept : RadiusPacket.t :=
  RadiusPacket.Mk (Code.Mk 2) 7 zeros
                  (AttributeList.Mk [alice; ppp; short_avpair] false) true.

(** The same packet carrying a User-Password instead. *)
Definition with_password : result RadiusPacket.t :=
  a ← attribute "User-Password" (JString (str "mypass"));
  Ok (RadiusPacket.Mk (Code.Mk 2) 7 zeros (AttributeList.Mk [a] false) true).

(** An Accounting-Request without attributes, of a client with
    [retry = 3], and two servers. *)
Definition accounting : RadiusClient.request :=
  RadiusClient.Request (Code.Mk 4) RadiusPacket.NoAttrs 3 (fun _ => 0).

Definition two_servers : list RadiusClient.server :=
  [RadiusClient.Server (str "10.0.0.1") (str "one") 1812 1813 250;
   RadiusClient.Server (str "10.0.0.2") (str "two") 1812 1813 3].

End Examples.

(* ===================================================================== *)
(** * RFC 2865, section 5.2, in the words of the specification            *)
(* ===================================================================== *)

(** These definitions do not come from the sources: they state the
    User-Password transformation the way the specification words it, on
    16-byte chunks, for comparison with [Attribute.encodeMD5] and
    [Attribute.decodeMD5]. *)
Module Rfc2865.

Definition xor_bytes (a b : list Z) : list Z := zip_with Z.lxor a b.

(** The first [k] chunks of 16 bytes. *)
Fixpoint chunks16 (k : nat) (l : list Z) : list (list Z) :=
  match k with
  | O => []
  | S k' => take 16 l :: chunks16 k' (drop 16 l)
  end.

(** The data padded on the right with zero bytes to a multiple of 16. *)
Definition pad16 (p : list Z) : list Z :=
  p ++ replicate ((16 - length p mod 16) mod 16)%nat 0.

(** [c_i = p_i xor MD5(secret, c_(i-1))], [c_(-1)] being [prev]. *)
Fixpoint hide (secret prev : list Z) (ps : list (list Z)) : list (list Z) :=
  match ps with
  | [] => []
  | p :: ps' =>
      let c := xor_bytes p (Attribute.md5 secret prev) in
      c :: hide secret c ps'
  end.

(** [p_i = c_i xor MD5(secret, c_(i-1))]. *)
Fixpoint reveal (secret prev : list Z) (cs : list (list Z)) : list (list Z) :=
  match cs with
  | [] => []
  | c :: cs' => xor_bytes c (Attribute.md5 secret prev) :: reveal secret c cs'
  end.

Definition encode (p secret authenticator : list Z) : list Z :=
  let padded := pad16 p in
  concat (hide secret authenticator (chunks16 (length padded / 16) padded)).

Definition decode (c secret authenticator : list Z) : list Z :=
  concat (reveal secret authenticator (chunks16 (length c / 16) c)).

End Rfc2865.

(* ===================================================================== *)
(** * Packets on the wire                                                 *)
(* ===================================================================== *)

(** The attributes and packets for which [toWire] and [fromWire] are
    stated to be inverse, and the bytes [toWire] is stated to produce for
    them.  These are notions of the statements below, not of the
    sources. *)
Module Wire.
(** A wrapped value as its class makes it: the bytes of a buffer-backed
    value within the length bounds of the class, or the number of a
    numeric value within its range. *)
Definition value_ok (v : AV.t) : Prop :=
  match AV.value v with
  | AV.Bytes b =>
      AV.is_numeric (AV.kind_of v) = false /\
      match AV.fixed_length (AV.kind_of v) with
      | Some n => length b = n
      | None => (1 <= length b <= 253)%nat
      end
  | AV.Number n =>
      AV.is_numeric (AV.kind_of v) = true /\
      exists len, AV.fixed_length (AV.kind_of v) = Some len /\
                  0 <= n < 256 ^ Z.of_nat len
  end.

(** The attribute is written in the clear. *)
Definition clear (a : Attribute.t) : Prop :=
  Dictionary.flags (Attribute.dict a) !! str "encrypt" = None.

(** A standard attribute whose descriptor is the one the dictionary [s]
    has under its number. *)
Definition standard_in (s : Dictionary.state) (a : Attribute.t) : Prop :=
  let d := Attribute.dict a in
  Dictionary.vendor d = None /\
  Dictionary.sub_type d = None /\
  Dictionary.type d <> AV.VSA /\
  1 <= Dictionary.id d <= 255 /\
  Dictionary.dict s !! inl (Dictionary.id d) = Some d.

(** A vendor-specific attribute whose vendor and descriptor are the ones
    the dictionary [s] has under the vendor's id and the sub-id, number
    26 being registered with type [vsa]. *)
Definition vsa_in (s : Dictionary.state) (a : Attribute.t) : Prop :=
  let d := Attribute.dict a in
  exists v sub k e26 m,
    Dictionary.vendor d = Some v /\
    Dictionary.sub_id d = Some sub /\
    Dictionary.sub_type d = Some k /\
    Dictionary.id d = 26 /\
    0 <= Vendor.id v < 2 ^ 32 /\
    0 <= sub < 256 ^ Z.of_nat (Vendor.typeSize v) /\
    Dictionary.dict s !! inl 26 = Some e26 /\
    Dictionary.type e26 = AV.VSA /\
    Dictionary.vendors s !! inl (Vendor.id v) = Some v /\
    Dictionary.vsas s !! Vendor.id v = Some m /\
    m !! sub = Some d.

(** The bytes [toWire] writes for the attribute. *)
Definition encoding (a : Attribute.t) (secret authenticator : list Z)
  : list Z :=
  let d := Layout.data a secret authenticator in
  match Dictionary.vendor (Attribute.dict a),
        Dictionary.sub_id (Attribute.dict a) with
  | Some v, Some sub =>
      Layout.vsa (Vendor.id v) sub (Vendor.typeSize v) (Vendor.lengthSize v) d
  | _, _ => Layout.standard (Dictionary.id (Attribute.dict a)) d
  end.

(** The number of bytes of the attribute on the wire (when it is written
    in the clear). *)
Definition size (a : Attribute.t) : nat :=
  (2 + length (AV.toBuffer (Attribute.avalue a)) +
   match Dictionary.vendor (Attribute.dict a) with
   | Some v => 4 + Vendor.typeSize v + Vendor.lengthSize v
   | None => 0
   end)%nat.

(** An attribute that [toWire] and [fromWire] handle symmetrically. *)
Definition plain (s : Dictionary.state) (a : Attribute.t) : Prop :=
  value_ok (Attribute.avalue a) /\
  AV.kind_of (Attribute.avalue a) = Dictionary.realType (Attribute.dict a) /\
  clear a /\
  (standard_in s a \/ vsa_in s a) /\
  (size a <= 255)%nat.


(** The bytes of a list of attributes, and their number. *)
Definition encodings (attrs : list Attribute.t) (secret authenticator : list Z)
  : list Z :=
  concat (map (fun a => encoding a secret authenticator) attrs).

Definition sizes (attrs : list Attribute.t) : nat :=
  fold_right (fun a n => (size a + n)%nat) 0%nat attrs.

(** A code of the table. *)
Definition code_valid (c : Code.t) : Prop :=
  In (Code.code c) (map fst Code.codeTable).

(** The packet as [toWire] lays it out before the response authenticator
    is computed. *)
Definition image (p : RadiusPacket.t) (secret : list Z) : list Z :=
  let attrs := AttributeList.list_ (RadiusPacket.attributes p) in
  [Code.valueOf (RadiusPacket.code p); RadiusPacket.identifier p]
  ++ be_bytes 2 (Z.of_nat (20 + sizes attrs))
  ++ RadiusPacket.authenticator p
  ++ encodings attrs secret (RadiusPacket.authenticator p).

(** The same with the response authenticator in place. *)
Definition response_image (p : RadiusPacket.t) (secret : list Z) : list Z :=
  let attrs := AttributeList.list_ (RadiusPacket.attributes p) in
  [Code.valueOf (RadiusPacket.code p); RadiusPacket.identifier p]
  ++ be_bytes 2 (Z.of_nat (20 + sizes attrs))
  ++ RadiusPacket.response_authenticator (image p secret) secret
  ++ encodings attrs secret (RadiusPacket.authenticator p).

Definition packet_ok (s : Dictionary.state) (p : RadiusPacket.t) : Prop :=
  code_valid (RadiusPacket.code p) /\
  0 <= RadiusPacket.identifier p <= 255 /\
  length (RadiusPacket.authenticator p) = 16%nat /\
  Forall (plain s) (AttributeList.list_ (RadiusPacket.attributes p)) /\
  (20 + sizes (AttributeList.list_ (RadiusPacket.attributes p)) < 4096)%nat.

End Wire.

(* ===================================================================== *)
(** * Requests of the client                                              *)
(* ===================================================================== *)

(** The notions the statements about [_request] are made of; they are
    not of the sources. *)
Module Retry.
Import RadiusClient.

(** What of a server a request reads and never changes. *)
Definition endpoint (srv : server) : list Z * list Z * Z * Z :=
  (host srv, secret srv, auth srv, acct srv).

(** A datagram made for the server [srv]: sent to its host and to the
    port for the request, its payload the wire form of a request packet
    built with the server's secret. *)
Definition made_for (rq : request) (srv : server) (address : list Z)
    (port : Z) (buffer : list Z) : Prop :=
  address = host srv /\ port = port_of rq srv /\
  exists identifier authenticator d0 d1,
    build rq identifier authenticator (secret srv) d0 = (Ok buffer, d1).

(** An event that settles nothing: the timer, or a datagram that the
    checks drop or whose code is not an answer to the request. *)
Definition unanswered (rq : request) (ev : event) : Prop :=
  match ev with
  | TimerFires => True
  | Message _ _ None => True
  | Message _ _ (Some res) => choose (code rq) (RadiusPacket.code res) = None
  | SocketError _ => False
  end.

(** How many times the timer fires among the events. *)
Fixpoint timer_fires (evs : list event) : nat :=
  match evs with
  | [] => 0
  | TimerFires :: evs' => S (timer_fires evs')
  | _ :: evs' => timer_fires evs'
  end.

Section Invariant.

Variable rq : request.
Variable srvs : list server.
Variable good : Dictionary.state -> Prop.

Definition slots_ok (m : gmap nat attempt_state) : Prop :=
  forall n a, m !! n = Some a ->
    exists srv, srvs !! n = Some srv /\
      made_for rq srv (a_address a) (a_port a) (a_buffer a).

Definition sent_ok (l : list datagram) : Prop :=
  forall i dg, l !! i = Some dg ->
    exists srv, srvs !! (i mod length srvs)%nat = Some srv /\
      made_for rq srv (to_address dg) (to_port dg) (payload dg).

(** What every state of a request satisfies. *)
Definition core (st : rstate) : Prop :=
  map endpoint (servers st) = map endpoint srvs /\
  good (dictionary st) /\
  slots_ok (slots st) /\
  sent_ok (sent st) /\
  (length (sent st) <= retry rq * length srvs)%nat.

(** While the timer is armed, one datagram has been sent for each
    attempt made. *)
Definition armed (st : rstate) : Prop :=
  timer st = true -> uncaught st = None ->
  length (sent st) = S (attempt st) /\ (attempt st < retry rq * length srvs)%nat.

Definition inv (st : rstate) : Prop := core st /\ armed st.

(** A request still waiting, and a request that has timed out. *)
Definition waiting (st : rstate) : Prop :=
  inv st /\ timer st = true /\ uncaught st = None /\ closed st = false /\
  promise st = None.

Definition timed_out (st : rstate) : Prop :=
  promise st = Some (RejectedError timeout_error) /\
  length (sent st) = (retry rq * length srvs)%nat /\ timer st = false /\ uncaught st = None.

End Invariant.

End Retry.

(* ===================================================================== *)
(** * Further functions of the sources and notions for their properties  *)
(* ===================================================================== *)

(** ** lib/dictionary.js: BEGIN-VENDOR *)

Module DictionaryFile.
Import Dictionary.

(** [beginVendor(name)]. *)
Definition beginVendor (name : jsstring) : M Vendor.t :=
  fun s =>
    match vendors s !! inr (toLowerCase name) with
    | Some v => (Ok v, s)
    | None => (Throw (ParseError "BEGIN-VENDOR entry for unknown name"), s)
    end.

End DictionaryFile.

(** ** Consistency of the dictionary tables *)

Module Tables.
Import Dictionary.

(** The entry is in one of the tables. *)
Definition holds (s : state) (e : Entry) : Prop :=
  (exists key, dict s !! key = Some e) \/
  (exists vid m sub, vsas s !! vid = Some m /\ m !! sub = Some e).

(** The tables are keyed consistently: a vendor filed under an
    Enterprise ID carries it and has its table of VSAs; an entry filed
    under a number is a standard attribute with that number; an entry of
    a vendor's table filed under a sub-ID is a VSA (number 26) of that
    vendor with that sub-ID; and the entries are distinct objects,
    created before now. *)
Definition filed (s : state) : Prop :=
  wf s /\
  (forall z e, dict s !! inl z = Some e ->
     id e = z /\ vendor e = None /\ sub_id e = None /\ sub_type e = None) /\
  (forall vid m sub e, vsas s !! vid = Some m -> m !! sub = Some e ->
     id e = 26 /\ type e = AV.VSA /\ sub_id e = Some sub /\
     is_Some (sub_type e) /\
     exists v, vendor e = Some v /\ Vendor.id v = vid) /\
  (forall e, holds s e -> (oid e < next s)%positive) /\
  (forall e1 e2, holds s e1 -> holds s e2 -> oid e1 = oid e2 -> e1 = e2).

(** The computation keeps the tables consistent. *)
Definition keeps_filed {A} (m : M A) : Prop :=
  forall s r s', filed s -> m s = (r, s') -> filed s'.

End Tables.

(** ** What [Attribute.toWire] leaves alone *)

Module Frame.

(** [buf'] is [buf] except between [lo] (included) and [hi]
    (excluded). *)
Definition untouched (lo hi : nat) (buf buf' : list Z) : Prop :=
  length buf' = length buf /\
  forall i, (i < lo \/ hi <= i)%nat -> buf' !! i = buf !! i.

(** The length [toWire] computes for an attribute. *)
Definition wire_length (a : Attribute.t) (secret authenticator : list Z) : nat :=
  (2 + length (Layout.data a secret authenticator) +
   match Dictionary.vendor (Attribute.dict a) with
   | Some v => 4 + Vendor.typeSize v + Vendor.lengthSize v
   | None => 0
   end)%nat.

End Frame.

(** ** Decimal numerals as property keys *)

Module Numeral.

(** A decimal numeral starts with a digit or a minus sign. *)
Definition starts_numeral (s : string) : Prop :=
  match s with
  | String a _ => (N_of_ascii a < 65)%N
  | EmptyString => True
  end.

End Numeral.

(** ** The default answer of the server *)

Module Answer.
Import RadiusServer.

(** The code of the default response to a request with code [c] on a
    socket of the role [type], when there is one. *)
Definition response_code (type : role) (c : Z) : option Z :=
  match type with
  | auth => if c =? 1 then Some 3 else None
  | acct => if c =? 4 then Some 5 else None
  end.

(** The Proxy-State attributes of a list, [d] being the descriptor the
    dictionary has under that name. *)
Definition proxy_states (d : Dictionary.Entry) (attrs : list Attribute.t)
  : list Attribute.t :=
  filter (fun a => RadiusPacket.same_entry (Attribute.dict a) d) attrs.

(** A handler that has nothing for the role. *)
Definition idle (type : role) (h : handler) : Prop :=
  get_prop type h = None.

End Answer.

(** ** States of a request of the client *)

Module Settling.
Import RadiusClient.

(** No event is a socket error. *)
Definition no_socket_error (ev : event) : Prop :=
  match ev with SocketError _ => False | _ => True end.

(** The datagrams sent are the buffers remembered for the servers: the
    one of attempt [i] is made from the remembered state of the server
    [i mod k]. *)
Definition sent_from_slots (k : nat) (st : rstate) : Prop :=
  forall i dg, sent st !! i = Some dg ->
    exists a, slots st !! (i mod k)%nat = Some a /\
      dg = Datagram (a_buffer a) (a_port a) (a_address a).

(** What holds of every state of a request, whatever the request. *)
Definition steady (k : nat) (st : rstate) : Prop :=
  length (servers st) = k /\
  sent_from_slots k st /\
  (timer st = true -> uncaught st = None -> closed st = false ->
   length (sent st) = S (attempt st)).

End Settling.

(* ===================================================================== *)
(** * Properties                                                          *)
(* ===================================================================== *)

Import ListNotations.

(** ** Sequencing *)

Lemma ST_bind_eq {S A B} (m : ST S A) (k : A -> ST S B) s :
  (m ≫= k) s = match m s with
               | (Ok a, s') => k a s'
               | (Throw e, s') => (Throw e, s')
               end.
Proof. reflexivity. Qed.

(** ** The server: [use] and the default response *)

Section ServerFacts.
Import RadiusServer.

Lemma code_is_SERVER_STATUS c : code_is c "SERVER_STATUS" = false.
Proof. reflexivity. Qed.

(** The key the table defines for code 12 is [STATUS_SERVER]. *)
Lemma code_12_keys :
  Code.prop (str "STATUS_SERVER") = Some (Code.Mk 12) /\
  Code.prop (str "SERVER_STATUS") = None.
Proof. split; reflexivity. Qed.

Lemma code_is_ACCESS_REQUEST c :
  code_is c "ACCESS_REQUEST" = (Code.code c =? 1).
Proof. reflexivity. Qed.

(** Without a response code [defaultResponse] returns [undefined] and
    touches nothing. *)
Lemma defaultResponse_status_server id a attrs w s :
  defaultResponse auth (RadiusPacket.Mk (Code.Mk 12) id a attrs w) s
  = (Ok None, s).
Proof. reflexivity. Qed.

(** C2 (the code departs from the claim).  A Status-Server request
    (code 12) on the auth socket gets NO response: [defaultResponse]
    compares the code with [Code.SERVER_STATUS], a property that does
    not exist (the table defines [STATUS_SERVER]), so no response code
    is chosen, [getResponse] returns [undefined] whatever the handlers
    are, and nothing is sent. *)
Theorem status_server_on_auth_gets_no_response :
  forall id a attrs w handlers s,
    getResponse auth (RadiusPacket.Mk (Code.Mk 12) id a attrs w) handlers s
    = (Ok None, s).
Proof. reflexivity. Qed.

(** The same at the socket: a well-formed Status-Server datagram from a
    registered client is read and nothing is sent back. *)
Lemma status_server_datagram_unanswered :
  on_message 1 auth (addClient (str "127.0.0.1") (str "secret") initial)
             ([12; 7; 0; 20] ++ replicate 16 9) (str "127.0.0.1") 40000
             Dictionary.empty
  = Some ([], Dictionary.empty).
Proof. vm_compute. reflexivity. Qed.

(** C10.  Given an object (or function) whose [auth] or [acct] property
    is present and is not a function, [use] does not throw: it returns
    a TypeError value, and the server state, hence the handler chain,
    is unchanged. *)
Theorem use_returns_error_for_bad_property :
  forall callable a c st,
    (exists v, a = Some (PVal v)) \/ (exists v, c = Some (PVal v)) ->
    exists msg,
      use (HObject callable a c) st = (Ok (AnError (TypeError msg)), st).
Proof.
  intros callable a c st [[v ->] | [v ->]]; cbn.
  - eauto.
  - destruct a as [[f | v'] |]; cbn; eauto.
Qed.

Lemma use_returns_error_for_bad_property_witness :
  exists msg,
    use (HObject false (Some (PVal (JNumber (Num.Int 5)))) None) initial
    = (Ok (AnError (TypeError msg)), initial).
Proof.
  apply (use_returns_error_for_bad_property false
           (Some (PVal (JNumber (Num.Int 5)))) None initial).
  left. exists (JNumber (Num.Int 5)). reflexivity.
Defined.

(** A handler object that passes the checks is appended. *)
Lemma use_appends f st :
  use (HObject false (Some (PFun f)) None) st
  = (Ok TheServer, MkState (clients st) (handlers st ++ [HObject false (Some (PFun f)) None]) (debug st)).
Proof. reflexivity. Qed.

End ServerFacts.

(** ** [AInet4.fromValue] on strings *)

Section Inet4Facts.

Lemma Number_empty : Num.Number [] = Num.Int 0.
Proof. reflexivity. Qed.

Lemma octet_Number_empty : AV.octet (Num.Number []) = true.
Proof. reflexivity. Qed.

(** Once the array has four entries in range, the rest of the function
    cannot fail. *)
Lemma inet4_of_array_ok xs :
  length xs = 4%nat -> forallb AV.octet xs = true ->
  AV.inet4_of_array xs = Ok (AV.Mk AV.Inet4 (AV.Bytes (map Num.to_uint8 xs))).
Proof.
  intros Hlen Hall. unfold AV.inet4_of_array.
  rewrite Hlen, Hall. cbn.
  unfold AV.fromBuffer, AV.bufferCheck. cbn.
  rewrite length_map, Hlen. reflexivity.
Qed.

Lemma inet4_of_array_is_ok xs :
  is_ok (AV.inet4_of_array xs) = true <->
  length xs = 4%nat /\ forallb AV.octet xs = true.
Proof.
  split.
  - unfold AV.inet4_of_array.
    destruct (length xs =? 4)%nat eqn:Hlen; cbn; [| discriminate].
    apply Nat.eqb_eq in Hlen.
    destruct (forallb AV.octet xs) eqn:Hall; cbn; [| discriminate].
    auto.
  - intros [Hlen Hall]. rewrite inet4_of_array_ok by assumption.
    reflexivity.
Qed.

(** The claim as stated fails: a string with an empty segment is
    accepted, the empty segment counting as 0. *)
Lemma inet4_empty_segment_accepted :
  In [] (split 46 (trim (str "1..2.3"))) /\
  AV.fromValue AV.Inet4 (JString (str "1..2.3"))
  = Ok (AV.Mk AV.Inet4 (AV.Bytes [1; 0; 2; 3])).
Proof. split; [vm_compute; right; left; reflexivity | vm_compute; reflexivity]. Qed.

(** C6 (amended).  [AInet4.fromValue(s)] succeeds exactly when the
    trimmed [s], split on ['.'], has exactly four segments and
    [Number(segment)] is at least 0 and at most 255 for each of them;
    the value is then made of the four numbers stored as bytes.  A
    segment is converted by [Number], for which the empty segment is 0:
    empty segments are accepted. *)
Theorem inet4_fromValue_string :
  forall s,
    let segs := split 46 (trim s) in
    (is_ok (AV.fromValue AV.Inet4 (JString s)) = true <->
       length segs = 4%nat /\
       Forall (fun seg => AV.octet (Num.Number seg) = true) segs)
    /\ (forall v, AV.fromValue AV.Inet4 (JString s) = Ok v ->
          v = AV.Mk AV.Inet4
                (AV.Bytes (map (fun seg => Num.to_uint8 (Num.Number seg)) segs)))
    /\ AV.octet (Num.Number []) = true.
Proof.
  intros s segs. split; [| split].
  - cbn [AV.fromValue AV.inet4_fromValue]. fold segs.
    rewrite inet4_of_array_is_ok, length_map, forallb_forall, Forall_forall.
    split; intros [Hlen Hall]; split; try assumption.
    + intros seg Hin. apply Hall. apply in_map. apply list_elem_of_In, Hin.
    + intros x Hx. apply in_map_iff in Hx as [seg [<- Hin]].
      apply Hall. apply list_elem_of_In, Hin.
  - intros v Hv. cbn [AV.fromValue AV.inet4_fromValue] in Hv. fold segs in Hv.
    assert (Hok : is_ok (AV.inet4_of_array (map Num.Number segs)) = true)
      by (rewrite Hv; reflexivity).
    apply inet4_of_array_is_ok in Hok as [Hlen Hall].
    rewrite inet4_of_array_ok in Hv by assumption.
    inversion Hv. rewrite map_map. reflexivity.
  - reflexivity.
Qed.

(** Wrong arity and out-of-range segments fail (the strings of the
    repository's own tests). *)
Lemma inet4_rejected_examples :
  Forall (fun s => is_ok (AV.fromValue AV.Inet4 (JString (str s))) = false)
         [ "256.1.1.1.1"%string; "256.1.1.1"%string; "256.1.1"%string;
           "-1.1.1.1"%string; "1.1.1.-1"%string; "1.2.3"%string;
           "a.b.c.d"%string; "1.2.3.4.5"%string ].
Proof. repeat constructor. Qed.

Lemma inet4_empty_string_rejected :
  is_ok (AV.fromValue AV.Inet4 (JString [])) = false.
Proof. reflexivity. Qed.

(** What [Number] accepts for a segment is more than decimal digits. *)
Lemma inet4_accepted_examples :
  AV.fromValue AV.Inet4 (JString (str "10.1.2.4"))
    = Ok (AV.Mk AV.Inet4 (AV.Bytes [10; 1; 2; 4])) /\
  AV.fromValue AV.Inet4 (JString (str " 0x10.1e2. 7 .+255 "))
    = Ok (AV.Mk AV.Inet4 (AV.Bytes [16; 100; 7; 255])) /\
  AV.fromValue AV.Inet4 (JString (str "..."))
    = Ok (AV.Mk AV.Inet4 (AV.Bytes [0; 0; 0; 0])).
Proof. repeat split; vm_compute; reflexivity. Qed.

End Inet4Facts.

(** ** The attribute loop on a short tail *)

Section ShortTail.
Import AttributeList.

(** With one or two bytes left, the loop condition holds and the body
    does nothing: position, attributes, dictionary and buffer are the
    same at the next evaluation of the condition. *)
Lemma body_short_tail secret authenticator n attrs s buf :
  (n < length buf <= n + 2)%nat ->
  body secret authenticator n attrs (s, buf)
  = (Ok (Continue n attrs), (s, buf)).
Proof.
  intros [Hlt Hle]. unfold body.
  apply Nat.ltb_lt in Hlt. rewrite Hlt.
  assert (H2 : (2 <? length buf - n)%nat = false)
    by (apply Nat.ltb_ge; lia).
  rewrite H2. reflexivity.
Qed.

Lemma loop_short_tail fuel secret authenticator n attrs s buf :
  (n < length buf <= n + 2)%nat ->
  loop fuel secret authenticator n attrs (s, buf) = None.
Proof.
  intros H. induction fuel as [| fuel IH]; [reflexivity |].
  cbn [loop]. rewrite body_short_tail by assumption. exact IH.
Qed.

(** C3 (the code departs from the claim).  When one or two bytes are
    left at the position where an attribute should start,
    [AttributeList.fromWire] does not return, however long it runs:
    the guard [len - n > 2] skips the body without advancing [n] or
    leaving the loop. *)
Theorem fromWire_short_tail_never_returns :
  forall fuel offset secret authenticator s buf,
    (offset < length buf <= offset + 2)%nat ->
    fromWire fuel offset secret authenticator (s, buf) = None.
Proof.
  intros fuel offset secret authenticator s buf H.
  unfold fromWire, parseAttributes.
  rewrite loop_short_tail by assumption. reflexivity.
Qed.

Lemma fromWire_short_tail_never_returns_witness :
  (0 < length [1] <= 0 + 2)%nat /\
  fromWire 1000 0 (str "secret") (replicate 16 0) (Dictionary.empty, [1])
  = None.
Proof.
  split; [cbn; lia |].
  apply (fromWire_short_tail_never_returns 1000 0 (str "secret")
           (replicate 16 0) Dictionary.empty [1]).
  cbn. lia.
Defined.

(** The same inside a packet: a datagram one byte longer than its
    header. *)
Lemma packet_with_stray_byte_never_returns fuel :
  RadiusPacket.fromWire fuel (str "secret")
    (Dictionary.empty, [1; 7; 0; 21] ++ replicate 16 0 ++ [0])
  = None.
Proof.
  unfold RadiusPacket.fromWire.
  cbn [length app replicate Nat.ltb Nat.leb].
  change (readUIntBE _ 2 2) with (Ok 21 : result Z).
  cbn match. cbn [Z.ltb Z.compare Z.of_nat length app replicate
                  Pos.compare Pos.compare_cont Pos.of_succ_nat Pos.succ].
  unfold fromWire, parseAttributes.
  rewrite loop_short_tail by (cbn; lia). reflexivity.
Qed.

(** An exhausted buffer ends the loop at once. *)
Lemma loop_at_end fuel secret authenticator n attrs s buf :
  (length buf <= n)%nat ->
  loop (S fuel) secret authenticator n attrs (s, buf)
  = Some (Ok attrs, (s, buf)).
Proof.
  intros H. cbn [loop]. unfold body.
  assert (Hn : (n <? length buf)%nat = false) by (apply Nat.ltb_ge; lia).
  rewrite Hn. reflexivity.
Qed.

End ShortTail.

(** ** The authenticator of a packet and the Buffer it was made from *)

Section AuthenticatorSharing.
Import Mem.

(** The getter hands out the memory of the constructor's argument. *)
Lemma get_authenticator_same_memory a p :
  new a = Ok p ->
  block (get_authenticator p) = block a /\
  start (get_authenticator p) = start a /\
  len (get_authenticator p) = len a.
Proof.
  unfold new, parseAuthenticator. cbn.
  destruct (negb (len a =? 16)%nat); cbn; [discriminate |].
  intros [= <-]. unfold get_authenticator, slice. cbn.
  repeat split; lia.
Qed.

(** A store through the argument is seen through the getter. *)
Lemma write_seen_through_getter m a p i v bytes :
  new a = Ok p ->
  m !! block a = Some bytes ->
  contents (set_byte a i v m) (get_authenticator p)
  = contents (set_byte a i v m) a.
Proof.
  intros Hnew Hm.
  destruct (get_authenticator_same_memory a p Hnew) as (Hb & Hs & Hl).
  unfold contents. rewrite Hb, Hs, Hl. reflexivity.
Qed.

(** C5 (the code departs from the claim).  The constructor keeps the
    Buffer it is given ([parseAuthenticator] returns its argument) and
    the getter answers with [slice(0)], a view of the same memory:
    after [a[0] = 255] on the caller's Buffer, the packet's
    authenticator starts with 255 although it was all zeros before. *)
Theorem authenticator_not_copied :
  let '(a, m) := alloc 1 16 ∅ in
  exists p,
    new a = Ok p /\
    contents m (get_authenticator p) = replicate 16 0 /\
    contents (set_byte a 0 255 m) (get_authenticator p)
    = 255 :: replicate 15 0.
Proof.
  cbn. eexists. split; [reflexivity |]. split; vm_compute; reflexivity.
Qed.

End AuthenticatorSharing.

(** ** The MD5-chained XOR of encrypted attributes *)

Section PasswordHiding.
Import Rfc2865.

Lemma at_lookup (l : list Z) i : at_ l i = default 0 (l !! i).
Proof. unfold at_. apply nth_lookup. Qed.

Lemma le_bytes_length n v : length (MD5.le_bytes n v) = n.
Proof. revert v; induction n; intros; cbn; auto. Qed.

Lemma digest_length msg : length (MD5.digest msg) = 16%nat.
Proof.
  unfold MD5.digest.
  destruct (fold_left _ _ _) as [A B C D].
  rewrite !length_app, !le_bytes_length. reflexivity.
Qed.

Lemma md5_length secret chunk : length (Attribute.md5 secret chunk) = 16%nat.
Proof. apply digest_length. Qed.

Lemma xorBlock_gen (g : nat -> Z) i m a (d : list Z) :
  let r := fold_left (fun d j => <[(i + j)%nat := g j]> d) (seq a m) d in
  length r = length d /\
  forall x, r !! x =
    if decide (i + a <= x < i + a + m /\ x < length d)%nat
    then Some (g (x - i)%nat) else d !! x.
Proof.
  revert d. induction m as [| m IH]; intros d r.
  - subst r. cbn. split; [reflexivity |]. intros x.
    destruct (decide _) as [[H _] |]; [lia | reflexivity].
  - subst r. rewrite seq_S, fold_left_app. cbn.
    destruct (IH d) as [Hlen Hx].
    split.
    + rewrite length_insert. exact Hlen.
    + intros x. destruct (decide (x = i + (a + m))%nat) as [-> | Hne].
      * destruct (decide _) as [[H1 H2] | Hn].
        -- rewrite list_lookup_insert_eq by (rewrite Hlen; lia).
           f_equal. f_equal. lia.
        -- rewrite list_insert_ge by (rewrite Hlen; lia).
           rewrite Hx. destruct (decide _) as [[H1 H2] |]; [lia |].
           reflexivity.
      * rewrite list_lookup_insert_ne by lia.
        rewrite Hx.
        destruct (decide _) as [[H1 H2] | Hn1];
          destruct (decide _) as [[H3 H4] | Hn2]; try reflexivity; lia.
Qed.

Lemma xorBlock_length i d s b : length (Attribute.xorBlock i d s b) = length d.
Proof.
  unfold Attribute.xorBlock.
  apply (xorBlock_gen (fun j => Z.lxor (at_ s (i + j)) (at_ b j)) i 16 0 d).
Qed.

Lemma xorBlock_lookup i d s b x :
  Attribute.xorBlock i d s b !! x =
    if decide (i <= x < i + 16 /\ x < length d)%nat
    then Some (Z.lxor (at_ s x) (at_ b (x - i))) else d !! x.
Proof.
  unfold Attribute.xorBlock.
  destruct (xorBlock_gen (fun j => Z.lxor (at_ s (i + j)) (at_ b j)) i 16 0 d)
    as [_ H].
  rewrite H.
  destruct (decide _) as [[H1 H2] | Hn1];
    destruct (decide _) as [[H3 H4] | Hn2]; try reflexivity; try lia.
  do 3 f_equal. lia.
Qed.

Lemma xor_bytes_length a b : length b = length a -> length (xor_bytes a b) = length a.
Proof. intros H. unfold xor_bytes. rewrite length_zip_with. lia. Qed.

Lemma xor_bytes_involutive a b :
  (length a <= length b)%nat -> xor_bytes (xor_bytes a b) b = a.
Proof.
  revert b. induction a as [| x a IH]; intros [| y b] H; cbn in *; try reflexivity; try lia.
  f_equal.
  - rewrite Z.lxor_assoc, Z.lxor_nilpotent, Z.lxor_0_r. reflexivity.
  - apply IH. lia.
Qed.

(** xorBlock on a buffer whose block [i, i+16) is about to be written *)
Lemma xorBlock_app done zs s b :
  (16 <= length zs)%nat -> (length done + 16 <= length s)%nat -> length b = 16%nat ->
  Attribute.xorBlock (length done) (done ++ zs) s b
  = done ++ xor_bytes (take 16 (drop (length done) s)) b ++ drop 16 zs.
Proof.
  intros Hzs Hs Hb. apply list_eq. intros x.
  rewrite xorBlock_lookup. rewrite length_app.
  assert (Hxl : length (xor_bytes (take 16 (drop (length done) s)) b) = 16%nat).
  { rewrite xor_bytes_length; rewrite length_take, length_drop; lia. }
  destruct (decide _) as [[[H1 H2] H3] | Hn].
  - rewrite lookup_app_r by lia. rewrite lookup_app_l by lia.
    unfold xor_bytes. rewrite lookup_zip_with.
    rewrite lookup_take_lt by lia. rewrite lookup_drop.
    replace (length done + (x - length done))%nat with x by lia.
    rewrite !at_lookup.
    destruct (s !! x) eqn:Hsx; [| apply lookup_ge_None in Hsx; lia].
    destruct (b !! (x - length done)%nat) eqn:Hbx; [| apply lookup_ge_None in Hbx; lia].
    reflexivity.
  - destruct (decide (x < length done)%nat).
    + rewrite !lookup_app_l by lia. reflexivity.
    + rewrite !lookup_app_r by lia.
      assert (Hx : (length done + 16 <= x)%nat) by lia.
      rewrite lookup_drop, Hxl. f_equal. lia.
Qed.

Lemma chunks16_length k l : length (chunks16 k l) = k.
Proof. revert l; induction k; intros; cbn; auto. Qed.

Lemma hide_length secret prev ps : length (hide secret prev ps) = length ps.
Proof. revert prev; induction ps; intros; cbn; auto. Qed.

Lemma chunks16_all16 k l :
  (16 * k <= length l)%nat -> Forall (fun b => length b = 16%nat) (chunks16 k l).
Proof.
  revert l. induction k as [| k IH]; intros l H; cbn; constructor.
  - rewrite length_take. lia.
  - apply IH. rewrite length_drop. lia.
Qed.

Lemma hide_all16 secret prev ps :
  Forall (fun b => length b = 16%nat) ps ->
  Forall (fun b => length b = 16%nat) (hide secret prev ps).
Proof.
  intros H. revert prev. induction H as [| p ps Hp _ IH]; intros prev; cbn; constructor.
  - rewrite xor_bytes_length; rewrite ?md5_length; auto.
  - apply IH.
Qed.

Lemma concat_chunks16 k l : length l = (16 * k)%nat -> concat (chunks16 k l) = l.
Proof.
  revert l. induction k as [| k IH]; intros l H; cbn.
  - destruct l; [reflexivity | discriminate].
  - rewrite IH by (rewrite length_drop; lia). apply take_drop.
Qed.

Lemma chunks16_concat (bs : list (list Z)) :
  Forall (fun b => length b = 16%nat) bs -> chunks16 (length bs) (concat bs) = bs.
Proof.
  induction 1 as [| b bs Hb _ IH]; cbn [length concat chunks16]; [reflexivity |].
  rewrite take_app_length' by (symmetry; assumption).
  rewrite drop_app_length' by (symmetry; assumption).
  rewrite IH. reflexivity.
Qed.

Lemma concat_all16_length (bs : list (list Z)) :
  Forall (fun b => length b = 16%nat) bs -> length (concat bs) = (16 * length bs)%nat.
Proof. induction 1 as [| b bs Hb _ IH]; cbn; [reflexivity |]. rewrite length_app. lia. Qed.

Lemma reveal_hide secret prev ps :
  Forall (fun b => length b = 16%nat) ps ->
  reveal secret prev (hide secret prev ps) = ps.
Proof.
  intros H. revert prev. induction H as [| p ps Hp _ IH]; intros prev; cbn; [reflexivity |].
  rewrite xor_bytes_involutive by (rewrite md5_length; lia).
  rewrite IH. reflexivity.
Qed.

(** The encoding loop from block [k] on. *)
Lemma encode_loop secret authenticator padded m :
  forall k done prev,
    length done = (16 * k)%nat ->
    length padded = (16 * (k + m))%nat ->
    prev = (if (16 * k =? 0)%nat then authenticator else drop (16 * k - 16) done) ->
    fold_left
      (fun c i =>
         let chunk := if (i =? 0)%nat then authenticator else slice (i - 16) i c in
         Attribute.xorBlock i c padded (Attribute.md5 secret chunk))
      (map (fun j => (16 * j)%nat) (seq k m))
      (done ++ replicate (16 * m) 0)
    = done ++ concat (hide secret prev (chunks16 m (drop (16 * k) padded))).
Proof.
  induction m as [| m IH]; intros k done prev Hdone Hpad Hprev.
  - cbn. reflexivity.
  - cbn [seq map fold_left chunks16 hide concat].
    assert (Hchunk : (if (16 * k =? 0)%nat then authenticator
                      else slice (16 * k - 16) (16 * k) (done ++ replicate (16 * S m) 0)) = prev).
    { subst prev. destruct (16 * k =? 0)%nat eqn:E; [reflexivity |].
      apply Nat.eqb_neq in E. unfold slice.
      rewrite drop_app_le by lia.
      rewrite take_app_le by (rewrite length_drop; lia).
      apply take_ge. rewrite length_drop. lia. }
    rewrite Hchunk.
    replace (16 * k)%nat with (length done) at 1 by lia.
    rewrite xorBlock_app; [| rewrite length_replicate; lia | lia | apply md5_length].
    rewrite Hdone.
    set (C := xor_bytes (take 16 (drop (16 * k) padded)) (Attribute.md5 secret prev)).
    assert (HC : length C = 16%nat).
    { subst C. rewrite xor_bytes_length; rewrite ?md5_length, ?length_take, ?length_drop; lia. }
    replace (drop 16 (replicate (16 * S m) 0)) with (replicate (16 * m) (0:Z)).
    2:{ replace (16 * S m)%nat with (16 + 16 * m)%nat by lia.
        rewrite drop_replicate_add. reflexivity. }
    rewrite app_assoc.
    etrans; [apply (IH (S k) (done ++ C) C) |].
    4:{ rewrite <- app_assoc. rewrite drop_drop.
        replace (16 * k + 16)%nat with (16 * S k)%nat by lia. reflexivity. }
    + rewrite length_app. lia.
    + lia.
    + destruct (16 * S k =? 0)%nat eqn:E; [apply Nat.eqb_eq in E; lia |].
      rewrite drop_app_length'; [reflexivity | lia].
Qed.


Lemma xorBlock_app' i done zs s b :
  i = length done ->
  (16 <= length zs)%nat -> (i + 16 <= length s)%nat -> length b = 16%nat ->
  Attribute.xorBlock i (done ++ zs) s b
  = done ++ xor_bytes (take 16 (drop i s)) b ++ drop 16 zs.
Proof. intros ->. apply xorBlock_app. Qed.

Lemma decode_loop secret authenticator c m :
  forall k done,
    length done = (16 * k)%nat ->
    length c = (16 * (k + m))%nat ->
    fold_left
      (fun p i =>
         let chunk := if (i =? 0)%nat then authenticator else slice (i - 16) i c in
         Attribute.xorBlock i p c (Attribute.md5 secret chunk))
      (map (fun j => (16 * j)%nat) (seq k m))
      (done ++ replicate (16 * m) 0)
    = done ++ concat (reveal secret
                        (if (16 * k =? 0)%nat then authenticator
                         else slice (16 * k - 16) (16 * k) c)
                        (chunks16 m (drop (16 * k) c))).
Proof.
  induction m as [| m IH]; intros k done Hdone Hc.
  - cbn. reflexivity.
  - cbn [seq map fold_left chunks16 reveal concat].
    rewrite xorBlock_app'; [| lia | rewrite length_replicate; lia | lia | apply md5_length].
    set (prev := if (16 * k =? 0)%nat then authenticator
                 else slice (16 * k - 16) (16 * k) c).
    set (P := xor_bytes (take 16 (drop (16 * k) c)) (Attribute.md5 secret prev)).
    assert (HP : length P = 16%nat).
    { subst P. rewrite xor_bytes_length; rewrite ?md5_length, ?length_take, ?length_drop; lia. }
    replace (drop 16 (replicate (16 * S m) 0)) with (replicate (16 * m) (0:Z)).
    2:{ replace (16 * S m)%nat with (16 + 16 * m)%nat by lia.
        rewrite drop_replicate_add. reflexivity. }
    rewrite app_assoc.
    etrans; [apply (IH (S k) (done ++ P)) |].
    + rewrite length_app. lia.
    + lia.
    + rewrite <- app_assoc. rewrite drop_drop.
      replace (16 * k + 16)%nat with (16 * S k)%nat by lia.
      destruct (16 * S k =? 0)%nat eqn:E; [apply Nat.eqb_eq in E; lia |].
      unfold slice.
      replace (16 * S k - 16)%nat with (16 * k)%nat by lia.
      replace (16 * S k - 16 * k)%nat with 16%nat by lia.
      reflexivity.
Qed.

Lemma land_f0 x : 0 <= x < 256 -> Z.land x 0xf0 = 16 * (x / 16).
Proof.
  intros H.
  assert (Hall : forallb (fun k => Z.land (Z.of_nat k) 0xf0 =? 16 * (Z.of_nat k / 16)) (seq 0 256) = true)
    by (vm_compute; reflexivity).
  rewrite forallb_forall in Hall.
  specialize (Hall (Z.to_nat x)).
  rewrite Z2Nat.id in Hall by lia.
  apply Z.eqb_eq, Hall. apply in_seq. lia.
Qed.

Lemma encode_size (p : list Z) :
  (length p <= 240)%nat ->
  Z.to_nat (Z.land (Z.of_nat (length p) + 15) 0xf0) = (16 * ((length p + 15) / 16))%nat.
Proof.
  intros H. rewrite land_f0 by lia.
  assert (0 <= (Z.of_nat (length p) + 15) / 16) by (apply Z.div_pos; lia).
  rewrite Z2Nat.inj_mul by lia.
  change (Z.to_nat 16) with 16%nat. f_equal.
  change 15 with (Z.of_nat 15). rewrite <- Nat2Z.inj_add.
  change 16 with (Z.of_nat 16). rewrite <- Nat2Z.inj_div.
  apply Nat2Z.id.
Qed.

Lemma block_starts_16 k :
  Attribute.block_starts (16 * k) = map (fun j => (16 * j)%nat) (seq 0 k).
Proof.
  unfold Attribute.block_starts. do 2 f_equal.
  replace (16 * k + 15)%nat with (15 + k * 16)%nat by lia.
  rewrite Nat.div_add by lia. reflexivity.
Qed.

Lemma pad16_length p : length (pad16 p) = (16 * ((length p + 15) / 16))%nat.
Proof.
  unfold pad16. rewrite length_app, length_replicate.
  pose proof (Nat.div_mod_eq (length p) 16).
  pose proof (Nat.mod_upper_bound (length p) 16 ltac:(lia)).
  destruct (decide (length p mod 16 = 0)%nat) as [E | E].
  - rewrite E. cbn [Nat.sub]. change (16 mod 16)%nat with 0%nat.
    replace (length p + 15)%nat with (15 + (length p / 16) * 16)%nat by lia.
    rewrite Nat.div_add by lia. change (15 / 16)%nat with 0%nat. lia.
  - rewrite (Nat.mod_small (16 - _)) by lia.
    replace (length p + 15)%nat
      with ((length p mod 16 - 1) + (length p / 16 + 1) * 16)%nat by lia.
    rewrite Nat.div_add by lia.
    rewrite (Nat.div_small (_ - 1)) by lia. lia.
Qed.

Lemma blit_alloc_pad16 p :
  blit p 0 (alloc (16 * ((length p + 15) / 16))) = pad16 p.
Proof.
  pose proof (pad16_length p) as HL.
  unfold pad16 in *. rewrite length_app, length_replicate in HL.
  unfold blit, alloc. rewrite take_0, Nat.sub_0_r, length_replicate.
  cbn [app Nat.add].
  rewrite (take_ge p) by lia. f_equal.
  rewrite drop_replicate. f_equal. lia.
Qed.

Lemma encodeMD5_refines p secret authenticator :
  (length p <= 240)%nat ->
  Attribute.encodeMD5 p secret authenticator = Rfc2865.encode p secret authenticator.
Proof.
  intros H. unfold Attribute.encodeMD5, Rfc2865.encode.
  rewrite encode_size by assumption.
  rewrite blit_alloc_pad16, block_starts_16.
  set (k := ((length p + 15) / 16)%nat).
  pose proof (pad16_length p) as HL. fold k in HL.
  rewrite HL. replace (16 * k / 16)%nat with k
    by (rewrite Nat.mul_comm, Nat.div_mul; lia).
  unfold alloc.
  etrans; [apply (encode_loop secret authenticator (pad16 p) k 0 [] authenticator) |];
    try reflexivity.
  rewrite HL. reflexivity.
Qed.

Lemma encode_length p secret authenticator :
  length (Rfc2865.encode p secret authenticator) = (16 * ((length p + 15) / 16))%nat.
Proof.
  unfold Rfc2865.encode. rewrite pad16_length.
  set (k := ((length p + 15) / 16)%nat).
  replace (16 * k / 16)%nat with k by (rewrite Nat.mul_comm, Nat.div_mul; lia).
  rewrite concat_all16_length.
  - rewrite hide_length, chunks16_length. reflexivity.
  - apply hide_all16, chunks16_all16. rewrite pad16_length. fold k. lia.
Qed.

Lemma decode_loop_refines c secret authenticator :
  (length c mod 16 = 0)%nat ->
  fold_left
    (fun p i =>
       let chunk := if (i =? 0)%nat then authenticator else slice (i - 16) i c in
       Attribute.xorBlock i p c (Attribute.md5 secret chunk))
    (Attribute.block_starts (length c)) (alloc (length c))
  = Rfc2865.decode c secret authenticator.
Proof.
  intros Hmod. unfold Rfc2865.decode.
  pose proof (Nat.div_mod_eq (length c) 16) as Hk. rewrite Hmod, Nat.add_0_r in Hk.
  set (k := (length c / 16)%nat) in *.
  rewrite Hk at 1 2. rewrite block_starts_16. unfold alloc.
  etrans; [apply (decode_loop secret authenticator c k 0 []) |]; try reflexivity.
  exact Hk.
Qed.

Lemma decode_encode_blocks p secret authenticator :
  Rfc2865.decode (Rfc2865.encode p secret authenticator) secret authenticator
  = pad16 p.
Proof.
  unfold Rfc2865.decode. rewrite encode_length.
  set (k := ((length p + 15) / 16)%nat).
  replace (16 * k / 16)%nat with k by (rewrite Nat.mul_comm, Nat.div_mul; lia).
  unfold Rfc2865.encode. rewrite pad16_length. fold k.
  replace (16 * k / 16)%nat with k by (rewrite Nat.mul_comm, Nat.div_mul; lia).
  assert (H16 : Forall (fun b : list Z => length b = 16%nat) (chunks16 k (pad16 p))).
  { apply chunks16_all16. rewrite pad16_length. fold k. lia. }
  pose proof (chunks16_concat (hide secret authenticator (chunks16 k (pad16 p)))
                (hide_all16 _ _ _ H16)) as Hc.
  rewrite hide_length, chunks16_length in Hc. rewrite Hc.
  rewrite reveal_hide by assumption.
  apply concat_chunks16. rewrite pad16_length. reflexivity.
Qed.

(** stripping the padding *)
Lemma strip_index_zeros (p : list Z) m :
  (p = [] \/ at_ p (length p - 1) <> 0) ->
  Attribute.strip_index (length p + m) (p ++ replicate m 0) = length p.
Proof.
  intros Hlast. induction m as [| m IH].
  - rewrite Nat.add_0_r, app_nil_r.
    destruct Hlast as [-> | Hne]; [reflexivity |].
    destruct (length p) as [| n] eqn:E; [reflexivity |].
    cbn [Attribute.strip_index].
    replace (S n - 1)%nat with n in Hne by lia.
    destruct (at_ p n =? 0) eqn:E0; [apply Z.eqb_eq in E0; contradiction | reflexivity].
  - replace (length p + S m)%nat with (S (length p + m)) by lia.
    cbn [Attribute.strip_index].
    assert (Hz : at_ (p ++ replicate (S m) 0) (length p + m) = 0).
    { rewrite at_lookup, lookup_app_r by lia.
      replace (length p + m - length p)%nat with m by lia.
      rewrite lookup_replicate_2 by lia. reflexivity. }
    rewrite Hz. cbn [Z.eqb].
    (* the loop does not look past position [length p + m] *)
    assert (Hsame : forall n l1 l2, (forall i, (i < n)%nat -> at_ l1 i = at_ l2 i) ->
                     Attribute.strip_index n l1 = Attribute.strip_index n l2).
    { clear. induction n as [| n IHn]; intros l1 l2 H; [reflexivity |].
      cbn [Attribute.strip_index]. rewrite (H n) by lia.
      destruct (at_ l2 n =? 0); [| reflexivity].
      apply IHn. intros i Hi. apply H. lia. }
    rewrite (Hsame _ _ (p ++ replicate m 0)); [exact IH |].
    intros i Hi. rewrite !at_lookup.
    destruct (decide (i < length p)%nat).
    + rewrite !lookup_app_l by lia. reflexivity.
    + rewrite !lookup_app_r by lia.
      rewrite !lookup_replicate_2 by lia. reflexivity.
Qed.

Lemma stripTrailingNULs_pad16 (p : list Z) :
  (p = [] \/ at_ p (length p - 1) <> 0) ->
  Attribute.stripTrailingNULs (pad16 p) = p.
Proof.
  intros H. unfold Attribute.stripTrailingNULs, pad16.
  rewrite length_app, length_replicate, strip_index_zeros by assumption.
  unfold slice. rewrite drop_0, Nat.sub_0_r.
  apply take_app_length.
Qed.

(** On ASCII bytes [toString] is the identity. *)
Lemma toString_ascii (p : list Z) :
  Forall (fun b => 0 <= b <= 0x7F) p -> toString p = p.
Proof.
  unfold toString. induction 1 as [| b p Hb _ IH]; [reflexivity |].
  cbn [utf8_decode_from]. unfold lead.
  replace (b <=? 0x7F) with true by (symmetry; apply Z.leb_le; lia).
  cbn [app]. rewrite IH. reflexivity.
Qed.

(** The claim as stated fails on a plaintext that ends with a zero
    byte: the byte is taken for padding and lost. *)
Lemma decodeMD5_drops_trailing_zero :
  (1 <= length [97; 0] <= 128)%nat /\
  Attribute.decodeMD5
    (Attribute.encodeMD5 [97; 0] (str "secret") (replicate 16 0))
    (str "secret") (replicate 16 0)
  = Ok [97] /\
  toString [97; 0] = [97; 0].
Proof. split; [cbn; lia |]. split; vm_compute; reflexivity. Qed.

(** C4 (amended).  For every plaintext [p] of 1 to 128 bytes whose last
    byte is not zero, every secret and every authenticator:
    [encodeMD5] is the chained XOR of RFC 2865 section 5.2 over [p]
    padded with zero bytes to a multiple of 16, and [decodeMD5] of the
    result is [p] again, returned as a string (the UTF-8 reading of its
    bytes). *)
Theorem decodeMD5_encodeMD5 :
  forall p secret authenticator,
    (1 <= length p <= 128)%nat ->
    at_ p (length p - 1) <> 0 ->
    Attribute.encodeMD5 p secret authenticator
    = Rfc2865.encode p secret authenticator /\
    Attribute.decodeMD5 (Attribute.encodeMD5 p secret authenticator)
                        secret authenticator
    = Ok (toString p).
Proof.
  intros p secret authenticator Hlen Hlast.
  rewrite encodeMD5_refines by lia. split; [reflexivity |].
  unfold Attribute.decodeMD5.
  pose proof (encode_length p secret authenticator) as HL.
  set (k := ((length p + 15) / 16)%nat) in HL.
  assert (Hk : (k <= 8)%nat).
  { assert (k < 9)%nat; [| lia]. subst k. apply Nat.Div0.div_lt_upper_bound. lia. }
  rewrite HL.
  replace ((16 * k) mod 16 =? 0)%nat with true
    by (symmetry; apply Nat.eqb_eq; rewrite Nat.mul_comm; apply Nat.Div0.mod_mul).
  replace (128 <? 16 * k)%nat with false by (symmetry; apply Nat.ltb_ge; lia).
  cbn [negb orb]. rewrite <- HL.
  rewrite decode_loop_refines
    by (rewrite HL, Nat.mul_comm; apply Nat.Div0.mod_mul).
  rewrite decode_encode_blocks, stripTrailingNULs_pad16 by (right; assumption).
  reflexivity.
Qed.

Lemma decodeMD5_encodeMD5_witness :
  (1 <= length (str "mypass") <= 128)%nat /\
  at_ (str "mypass") (length (str "mypass") - 1) <> 0 /\
  Attribute.decodeMD5
    (Attribute.encodeMD5 (str "mypass") (str "secret") (replicate 16 0))
    (str "secret") (replicate 16 0)
  = Ok (toString (str "mypass")).
Proof.
  split; [cbn; lia |]. split; [cbn; lia |].
  apply (decodeMD5_encodeMD5 (str "mypass") (str "secret") (replicate 16 0)).
  - cbn; lia.
  - cbn; lia.
Defined.

(** The ciphertext of the scenario is not the plaintext. *)
Lemma encodeMD5_mypass :
  Attribute.encodeMD5 (str "mypass") (str "secret") (replicate 16 0)
  = [18; 154; 180; 176; 204; 89; 198; 142; 148; 238; 159; 43; 247; 91; 150; 1].
Proof. vm_compute. reflexivity. Qed.

End PasswordHiding.

(** ** The dictionary: repeated lookups *)

Section DictionaryFacts.
Import Dictionary.

Lemma wf_empty : wf empty.
Proof. intros z v H. cbn in H. rewrite lookup_empty in H. discriminate. Qed.

Lemma newEntry_octets o v name id :
  newEntry o v name id (str "octets") None []
  = Ok match v with
       | Some v => MkEntry o AV.VSA 26 name (Some v) (Some id) (Some AV.Buffer) ∅ []
       | None => MkEntry o AV.Buffer id name None None None ∅ []
       end.
Proof. reflexivity. Qed.

Lemma addAttributeSpec_vendors v name id type fl extra s r s' :
  addAttributeSpec v name id type fl extra s = (r, s') ->
  vendors s' = vendors s /\
  (forall z, is_Some (vsas s !! z) -> is_Some (vsas s' !! z)).
Proof.
  unfold addAttributeSpec. cbn.
  destruct (newEntry _ _ _ _ _ _ _) as [ent | e].
  - intros [= <- <-]. destruct v as [v |]; cbn.
    + destruct (vsas s !! Vendor.id v) as [m |] eqn:E; cbn.
      * split; [reflexivity |]. intros z Hz.
        destruct (decide (Vendor.id v = z)) as [<- | Hne].
        -- rewrite lookup_insert_eq. eauto.
        -- rewrite lookup_insert_ne by assumption. assumption.
      * auto.
    + auto.
  - intros [= <- <-]. cbn. auto.
Qed.

Lemma addAttributeSpec_wf v name id type fl extra s r s' :
  wf s -> addAttributeSpec v name id type fl extra s = (r, s') -> wf s'.
Proof.
  intros Hwf H. apply addAttributeSpec_vendors in H as [Hv Hs].
  intros z w Hw. rewrite Hv in Hw. destruct (Hwf z w Hw) as [Hid Hsome].
  split; [assumption | apply Hs, Hsome].
Qed.

Lemma Vendor_new_id o name id extra v :
  Vendor.new o name (Num.Int id) extra = Ok v -> Vendor.id v = id.
Proof.
  unfold Vendor.new.
  destruct ((id <? 0) || (2 ^ 32 <=? id)); [discriminate |].
  destruct (fold_left _ _ _) as [ts ls].
  destruct ts as [tz | | |]; try discriminate.
  destruct ((tz =? 1) || (tz =? 2) || (tz =? 4)); [| discriminate].
  destruct ls as [lz | | |]; try discriminate.
  destruct ((lz =? 0) || (lz =? 1) || (lz =? 2)); [| discriminate].
  intros [= <-]. reflexivity.
Qed.

Lemma addVendor_wf name id extra s r s' :
  wf s -> addVendor name id extra s = (r, s') -> wf s'.
Proof.
  intros Hwf. unfold addVendor.
  destruct id as [z | | |]; try (intros [= <- <-]; assumption).
  destruct (vendors s !! inl z) eqn:E; [intros [= <- <-]; assumption |].
  unfold fresh; cbn beta iota zeta. cbn [next set_vsas].
  destruct (Vendor.new (next s) name (Num.Int z) extra) as [v |e] eqn:Enew.
  - intros [= <- <-]. intros z' w. cbn.
    rewrite lookup_insert_ne by discriminate.
    destruct (decide (z = z')) as [<- | Hne].
    + rewrite !lookup_insert_eq. intros [= <-].
      split; [eapply Vendor_new_id; eassumption | eauto].
    + rewrite !lookup_insert_ne by congruence. apply Hwf.
  - intros [= <- <-]. intros z' w. cbn. intros Hw.
    destruct (Hwf z' w Hw) as [Hid Hsome]. split; [assumption |].
    destruct (decide (z = z')) as [<- | Hne].
    + rewrite lookup_insert_eq. eauto.
    + rewrite lookup_insert_ne by assumption. assumption.
Qed.

(** [Dictionary.get] on a legal number: the call succeeds, and calling
    again returns the same entry and leaves the tables alone. *)
Lemma get_number_twice s id :
  1 <= id <= 255 ->
  exists e s1,
    get (JNumber (Num.Int id)) s = (Ok (Some e), s1) /\
    get (JNumber (Num.Int id)) s1 = (Ok (Some e), s1).
Proof.
  intros Hid. unfold get.
  replace ((id <? 1) || (255 <? id)) with false
    by (symmetry; apply orb_false_iff; split; [apply Z.ltb_ge | apply Z.ltb_ge]; lia).
  destruct (dict s !! inl id) as [e |] eqn:E.
  - exists e, s. rewrite E. auto.
  - unfold addAttributeSpec, fresh. cbn beta iota zeta. rewrite newEntry_octets.
    set (ent := MkEntry _ _ _ _ _ _ _ _ _).
    set (s1 := set_dict _ ent (set_dict _ ent _)).
    assert (Hl : dict s1 !! inl id = Some ent).
    { subst s1. cbn. rewrite lookup_insert_ne by discriminate.
      apply lookup_insert_eq. }
    exists ent, s1. rewrite Hl. auto.
Qed.

Lemma get_number_wf s id r s1 :
  wf s -> get (JNumber (Num.Int id)) s = (r, s1) -> wf s1.
Proof.
  intros Hwf. unfold get.
  destruct ((id <? 1) || (255 <? id)); [intros [= <- <-]; assumption |].
  destruct (dict s !! inl id); [intros [= <- <-]; assumption |].
  destruct (addAttributeSpec _ _ _ _ _ _ s) as [r' s'] eqn:E.
  apply addAttributeSpec_wf in E; [| assumption].
  destruct r'; intros [= <- <-]; assumption.
Qed.

Lemma get_name_known s name e :
  dict s !! inr (toLowerCase name) = Some e ->
  get (JString name) s = (Ok (Some e), s).
Proof. intros H. unfold get. rewrite H. reflexivity. Qed.

Lemma Vendor_new_default o name id :
  0 <= id < 2 ^ 32 ->
  Vendor.new o name (Num.Int id) [] = Ok (Vendor.Mk o name id 1 1).
Proof.
  intros H. unfold Vendor.new.
  replace ((id <? 0) || (2 ^ 32 <=? id)) with false
    by (symmetry; apply orb_false_iff; split; [apply Z.ltb_ge | apply Z.leb_gt]; lia).
  reflexivity.
Qed.

Lemma vendor_twice s id :
  0 <= id < 2 ^ 32 ->
  exists v s1,
    vendor_ (JNumber (Num.Int id)) s = (Ok (Some v), s1) /\
    vendor_ (JNumber (Num.Int id)) s1 = (Ok (Some v), s1) /\
    vendors s1 !! inl id = Some v /\
    (wf s -> wf s1).
Proof.
  intros Hid. unfold vendor_.
  destruct (vendors s !! inl id) as [v |] eqn:E.
  - exists v, s. rewrite E. auto.
  - unfold addVendor, fresh. rewrite E. cbn beta iota zeta. cbn [set_vsas next].
    rewrite Vendor_new_default by assumption.
    set (v := Vendor.Mk _ _ _ _ _).
    set (s1 := set_vendor _ v (set_vendor _ v _)).
    assert (Hl : vendors s1 !! inl id = Some v).
    { subst s1. cbn. rewrite lookup_insert_ne by discriminate.
      apply lookup_insert_eq. }
    exists v, s1. rewrite Hl. do 3 (split; [reflexivity |]).
    intros Hwf z w. subst s1. cbn.
    rewrite lookup_insert_ne by discriminate.
    destruct (decide (id = z)) as [<- | Hne].
    + rewrite !lookup_insert_eq. intros [= <-]. cbn. eauto.
    + rewrite !lookup_insert_ne by congruence. apply Hwf.
Qed.

Lemma vsa_twice s vid sub :
  wf s -> 0 <= vid < 2 ^ 32 ->
  exists e s1,
    vsa (JNumber (Num.Int vid)) (JNumber (Num.Int sub)) s = (Ok (Some e), s1) /\
    vsa (JNumber (Num.Int vid)) (JNumber (Num.Int sub)) s1 = (Ok (Some e), s1) /\
    wf s1.
Proof.
  intros Hwf Hvid.
  destruct (vendor_twice s vid Hvid) as (v & s1 & H1 & H2 & Hv & Hwf1).
  specialize (Hwf1 Hwf).
  destruct (Hwf1 vid v Hv) as [Hidv [d Hd]].
  unfold vsa. rewrite H1. rewrite Hidv, Hd.
  destruct (d !! sub) as [e |] eqn:Esub.
  - exists e, s1. rewrite H2, Hidv, Hd, Esub. auto.
  - unfold addAttributeSpec, fresh. cbn beta iota zeta. rewrite newEntry_octets.
    cbn [vsas]. rewrite Hidv, Hd.
    set (ent := MkEntry _ _ _ _ _ _ _ _ _).
    set (s2 := set_dict _ ent _).
    assert (Hv2 : vendors s2 = vendors s1) by reflexivity.
    assert (Hd2 : vsas s2 !! vid = Some (<[sub := ent]> d))
      by (subst s2; cbn; apply lookup_insert_eq).
    exists ent, s2. rewrite Hd2. cbn [mbind option_bind].
    rewrite lookup_insert_eq. split; [reflexivity |].
    split.
      * unfold vendor_. rewrite Hv2, Hv, Hidv, Hd2, lookup_insert_eq. reflexivity.
      * intros z w Hw. rewrite Hv2 in Hw. destruct (Hwf1 z w Hw) as [Hz Hs].
        split; [assumption |]. subst s2. cbn.
        destruct (decide (vid = z)) as [<- | Hne].
        -- rewrite lookup_insert_eq. eauto.
        -- rewrite lookup_insert_ne by assumption. assumption.
Qed.

(** C7.  In consistent tables, [get] of a number in 1..255, [get] of a
    known name, [vendor] of a 32-bit id and [vsa] of a vendor id and any
    sub-id succeed, and the same call made again returns the very same
    descriptor or vendor; this also covers the entries made up at the
    first call for an unknown number, vendor or VSA (after which the
    tables do not change any more). *)
Theorem lookups_idempotent :
  forall s, wf s ->
    (forall id, 1 <= id <= 255 ->
       exists e s1,
         get (JNumber (Num.Int id)) s = (Ok (Some e), s1) /\
         get (JNumber (Num.Int id)) s1 = (Ok (Some e), s1)) /\
    (forall name e, dict s !! inr (toLowerCase name) = Some e ->
       get (JString name) s = (Ok (Some e), s)) /\
    (forall id, 0 <= id < 2 ^ 32 ->
       exists v s1,
         vendor_ (JNumber (Num.Int id)) s = (Ok (Some v), s1) /\
         vendor_ (JNumber (Num.Int id)) s1 = (Ok (Some v), s1)) /\
    (forall vendor_id sub_id, 0 <= vendor_id < 2 ^ 32 ->
       exists e s1,
         vsa (JNumber (Num.Int vendor_id)) (JNumber (Num.Int sub_id)) s
         = (Ok (Some e), s1) /\
         vsa (JNumber (Num.Int vendor_id)) (JNumber (Num.Int sub_id)) s1
         = (Ok (Some e), s1)).
Proof.
  intros s Hwf. repeat split.
  - intros id Hid. apply get_number_twice, Hid.
  - intros name e H. apply get_name_known, H.
  - intros id Hid. destruct (vendor_twice s id Hid) as (v & s1 & H1 & H2 & _).
    eauto.
  - intros vid sub Hvid.
    destruct (vsa_twice s vid sub Hwf Hvid) as (e & s1 & H1 & H2 & _).
    eauto.
Qed.

Lemma lookups_idempotent_witness :
  wf Dictionary.empty /\
  (exists e s1,
     get (JNumber (Num.Int 254)) Dictionary.empty = (Ok (Some e), s1) /\
     get (JNumber (Num.Int 254)) s1 = (Ok (Some e), s1)) /\
  (exists e s1,
     vsa (JNumber (Num.Int 100)) (JNumber (Num.Int 10)) Dictionary.empty
     = (Ok (Some e), s1) /\
     vsa (JNumber (Num.Int 100)) (JNumber (Num.Int 10)) s1
     = (Ok (Some e), s1)).
Proof.
  split; [apply wf_empty |].
  destruct (lookups_idempotent Dictionary.empty wf_empty)
    as (Hget & _ & _ & Hvsa).
  split.
  - apply Hget. lia.
  - apply Hvsa. lia.
Defined.

Lemma keeps_wf_bind {A B} (m : M A) (k : A -> M B) :
  keeps_wf m -> (forall a, keeps_wf (k a)) -> keeps_wf (m ≫= k).
Proof.
  intros Hm Hk s r s' Hwf. rewrite ST_bind_eq.
  destruct (m s) as [[a | e] s1] eqn:E.
  - apply (Hk a). apply (Hm s _ _ Hwf E).
  - intros [= <- <-]. apply (Hm s _ _ Hwf E).
Qed.

Lemma keeps_wf_addAttributeSpec v name id type fl extra :
  keeps_wf (addAttributeSpec v name id type fl extra).
Proof. intros s r s' Hwf H. eapply addAttributeSpec_wf; eassumption. Qed.

Lemma keeps_wf_addVendor name id extra : keeps_wf (addVendor name id extra).
Proof. intros s r s' Hwf H. eapply addVendor_wf; eassumption. Qed.

Lemma keeps_wf_vendor id : keeps_wf (vendor_ id).
Proof.
  intros s r s' Hwf. unfold vendor_.
  destruct id as [| | | x | | | |]; try (intros [= <- <-]; assumption).
  destruct x as [z | | |]; try (intros [= <- <-]; assumption).
  destruct (vendors s !! inl z); [intros [= <- <-]; assumption |].
  destruct (addVendor _ _ _ s) as [r' s1] eqn:E.
  apply addVendor_wf in E; [| assumption].
  destruct r'; intros [= <- <-]; assumption.
Qed.

(** The tables built for the examples are consistent. *)
Lemma examples_dictionary_wf : wf Examples.dictionary.
Proof.
  assert (H : keeps_wf Examples.load).
  { unfold Examples.load.
    repeat (apply keeps_wf_bind;
            [first [apply keeps_wf_addAttributeSpec | apply keeps_wf_addVendor
                   | apply keeps_wf_vendor] | intros ?]).
    apply keeps_wf_addAttributeSpec. }
  unfold Examples.dictionary.
  destruct (Examples.load Dictionary.empty) as [r s] eqn:E.
  exact (H _ _ _ wf_empty E).
Qed.

(** The entries made up for unknown lookups carry the names the
    repository's tests expect. *)
Lemma unknown_attribute_name :
  fst (get (JNumber (Num.Int 254)) Dictionary.empty)
  = Ok (Some (MkEntry 1 AV.Buffer 254 (str "Unknown-Attribute-254")
                      None None None ∅ [])).
Proof. vm_compute. reflexivity. Qed.

Lemma unknown_vsa_name :
  (fun r => match r with
            | Ok (Some e) => Some (name e, sub_id e, id e)
            | _ => None
            end)
    (fst (vsa (JNumber (Num.Int 100)) (JNumber (Num.Int 200)) Dictionary.empty))
  = Some (str "Vendor100-Unknown-Attribute-200", Some 200, 26).
Proof. vm_compute. reflexivity. Qed.

End DictionaryFacts.

(** ** [Attribute.toWire]: the bytes written *)

Section AttributeLayout.

Lemma be_bytes_length n v : length (be_bytes n v) = n.
Proof.
  revert v. induction n as [| n IH]; intros v; cbn [be_bytes]; [reflexivity |].
  rewrite length_app, IH. cbn [length]. lia.
Qed.

Lemma be_bytes_1 v : 0 <= v < 256 -> be_bytes 1 v = [v].
Proof. intros H. cbn [be_bytes app]. rewrite Z.mod_small by lia. reflexivity. Qed.

Lemma blit_spec src off (l : list Z) :
  (off + length src <= length l)%nat ->
  blit src off l = take off l ++ src ++ drop (off + length src) l.
Proof.
  intros H. unfold blit. rewrite (take_ge src) by lia. reflexivity.
Qed.

Lemma blit_length src off (l : list Z) : length (blit src off l) = length l.
Proof.
  unfold blit. rewrite !length_app, !length_take, length_drop. lia.
Qed.

Lemma blit_blit x y off (l : list Z) :
  (off + length x + length y <= length l)%nat ->
  blit y (off + length x) (blit x off l) = blit (x ++ y) off l.
Proof.
  intros H.
  rewrite (blit_spec x off l) by lia.
  rewrite (blit_spec (x ++ y)) by (rewrite length_app; lia).
  assert (Ht : length (take off l) = off) by (rewrite length_take; lia).
  rewrite blit_spec
    by (rewrite !length_app, Ht, length_drop; lia).
  rewrite (app_assoc (take off l) x).
  rewrite take_app_length' by (rewrite length_app, Ht; reflexivity).
  rewrite drop_app_ge by (rewrite length_app, Ht; lia).
  rewrite length_app, Ht, drop_drop, length_app.
  rewrite <- !app_assoc. do 3 f_equal. f_equal. lia.
Qed.

Lemma blit_join x y off off' (l : list Z) :
  off' = (off + length x)%nat ->
  (off + length x + length y <= length l)%nat ->
  blit y off' (blit x off l) = blit (x ++ y) off l.
Proof. intros ->. apply blit_blit. Qed.

Lemma put_ok v off n (buf : list Z) :
  0 <= v < 256 ^ Z.of_nat n -> (off + n <= length buf)%nat ->
  Attribute.put v off n buf = (Ok (off + n)%nat, blit (be_bytes n v) off buf).
Proof.
  intros Hv Hfit. unfold Attribute.put, writeUIntBE.
  rewrite decide_True by assumption.
  rewrite decide_True by assumption. reflexivity.
Qed.

Lemma put_out_of_range v off n (buf : list Z) :
  ~ (0 <= v < 256 ^ Z.of_nat n) ->
  Attribute.put v off n buf = (Throw (RangeError "ERR_OUT_OF_RANGE"), buf).
Proof.
  intros Hv. unfold Attribute.put, writeUIntBE.
  rewrite decide_False by assumption. reflexivity.
Qed.

(** [Attribute.toWire] on a vendor-specific attribute that fits. *)
Lemma toWire_vsa_ok a v sub offset secret authenticator buf :
  let d := Layout.data a secret authenticator in
  let ts := Vendor.typeSize v in
  let ls := Vendor.lengthSize v in
  let len := (2 + 4 + ts + ls + length d)%nat in
  Dictionary.vendor (Attribute.dict a) = Some v ->
  Dictionary.sub_id (Attribute.dict a) = Some sub ->
  Dictionary.id (Attribute.dict a) = 26 ->
  (len <= 255)%nat ->
  0 <= Vendor.id v < 2 ^ 32 ->
  0 <= sub < 256 ^ Z.of_nat ts ->
  (offset + len < length buf)%nat ->
  Attribute.toWire a offset secret authenticator buf
  = (Ok (offset + len)%nat,
     blit (Layout.vsa (Vendor.id v) sub ts ls d) offset buf).
Proof.
  intros d ts ls len Hv Hsub Hid Hlen Hvid Hsubr Hfit.
  unfold Attribute.toWire. fold (Layout.data a secret authenticator). fold d.
  rewrite Hv, Hsub, Hid. fold ts ls.
  replace (2 + length d + (4 + ts + ls))%nat with len by (subst len; lia).
  replace (length buf <=? offset + len)%nat with false
    by (symmetry; apply Nat.leb_gt; lia).
  rewrite ST_bind_eq, put_ok by (cbn; lia).
  rewrite ST_bind_eq, put_ok by (rewrite ?blit_length; cbn; lia).
  rewrite ST_bind_eq, ST_bind_eq, put_ok by (rewrite ?blit_length; cbn; lia).
  rewrite ST_bind_eq, put_ok by (rewrite ?blit_length; cbn; lia).
  rewrite !be_bytes_1 by lia.
  unfold Layout.vsa. fold len.
  destruct (ls =? 0)%nat eqn:Els.
  - cbn [mret ST_ret].
    f_equal; [f_equal; subst len; apply Nat.eqb_eq in Els; lia |].
    repeat (rewrite blit_join
              by (rewrite ?blit_length, ?length_app, ?be_bytes_length; cbn [length];
                  subst len; lia)).
    rewrite <- ?app_assoc. reflexivity.
  - apply Nat.eqb_neq in Els.
    rewrite put_ok.
    + f_equal; [f_equal; subst len; lia |].
      repeat (rewrite blit_join
                by (rewrite ?blit_length, ?length_app, ?be_bytes_length; cbn [length];
                    subst len; lia)).
      rewrite <- ?app_assoc. reflexivity.
    + split; [lia |].
      apply Z.le_lt_trans with 255; [lia |].
      apply Z.lt_le_trans with (256 ^ 1); [lia |].
      apply Z.pow_le_mono_r; lia.
    + rewrite !blit_length. lia.
Qed.

Lemma toWire_standard a offset secret authenticator buf :
  let d := Layout.data a secret authenticator in
  let len := (2 + length d)%nat in
  Dictionary.vendor (Attribute.dict a) = None ->
  0 <= Dictionary.id (Attribute.dict a) < 256 ->
  (len <= 255)%nat ->
  (offset + len < length buf)%nat ->
  Attribute.toWire a offset secret authenticator buf
  = (Ok (offset + len)%nat,
     blit (Layout.standard (Dictionary.id (Attribute.dict a)) d) offset buf).
Proof.
  intros d len Hv Hid Hlen Hfit.
  unfold Attribute.toWire. fold (Layout.data a secret authenticator). fold d.
  rewrite Hv.
  replace (2 + length d + 0)%nat with len by (subst len; lia).
  replace (length buf <=? offset + len)%nat with false
    by (symmetry; apply Nat.leb_gt; lia).
  rewrite ST_bind_eq, put_ok by (cbn; lia).
  rewrite ST_bind_eq, put_ok by (rewrite ?blit_length; cbn; lia).
  rewrite ST_bind_eq. cbn [mret ST_ret].
  rewrite !be_bytes_1 by lia.
  f_equal; [f_equal; subst len; lia |].
  unfold Layout.standard. fold len.
  repeat (rewrite blit_join
            by (rewrite ?blit_length, ?length_app; cbn [length];
                subst len; lia)).
  rewrite <- ?app_assoc. reflexivity.
Qed.

(** A vendor-specific attribute longer than 255 bytes cannot be written:
    the length byte is refused, after the type byte has been stored. *)
Lemma toWire_vsa_too_long a v offset secret authenticator buf :
  let d := Layout.data a secret authenticator in
  let len := (2 + 4 + Vendor.typeSize v + Vendor.lengthSize v + length d)%nat in
  Dictionary.vendor (Attribute.dict a) = Some v ->
  Dictionary.id (Attribute.dict a) = 26 ->
  (255 < len)%nat ->
  (offset + len < length buf)%nat ->
  Attribute.toWire a offset secret authenticator buf
  = (Throw (RangeError "ERR_OUT_OF_RANGE"), blit [26] offset buf).
Proof.
  intros d len Hv Hid Hlen Hfit.
  unfold Attribute.toWire. fold (Layout.data a secret authenticator). fold d.
  rewrite Hv, Hid.
  replace (2 + length d + (4 + Vendor.typeSize v + Vendor.lengthSize v))%nat
    with len by (subst len; lia).
  replace (length buf <=? offset + len)%nat with false
    by (symmetry; apply Nat.leb_gt; lia).
  rewrite ST_bind_eq, put_ok by (cbn; lia).
  rewrite ST_bind_eq, put_out_of_range by (cbn; lia).
  rewrite be_bytes_1 by lia. reflexivity.
Qed.

(** The claim as stated fails: a Cisco-AVPair of 250 characters can be
    constructed but not written, its length (258) does not fit the
    length byte. *)
Lemma long_vsa_not_written :
  Examples.attribute "Cisco-AVPair" (JString (replicate 250 120))
  = Ok Examples.long_avpair /\
  fst (Attribute.toWire Examples.long_avpair 0 Examples.secret Examples.zeros
         (alloc 4096))
  = Throw (RangeError "ERR_OUT_OF_RANGE").
Proof. split; vm_compute; reflexivity. Qed.

(** C9 (amended).  For a vendor-specific attribute (descriptor with
    vendor [v], sub-id [sub], number 26) with [sub] fitting [typeSize]
    bytes, written at an offset where the buffer has room: when the
    total length [2 + 4 + typeSize + lengthSize + |data|] is at most
    255, [toWire] writes exactly [26 | length | vendor_id on 4 bytes |
    sub_id on typeSize bytes | min(|data|, 255) on lengthSize bytes,
    nothing when lengthSize is 0 | data] and returns the offset after
    it; when the total length exceeds 255, it throws a RangeError. *)
Theorem vsa_toWire_layout :
  forall a v sub offset secret authenticator buf,
    let d := Layout.data a secret authenticator in
    let ts := Vendor.typeSize v in
    let ls := Vendor.lengthSize v in
    let len := (2 + 4 + ts + ls + length d)%nat in
    Dictionary.vendor (Attribute.dict a) = Some v ->
    Dictionary.sub_id (Attribute.dict a) = Some sub ->
    Dictionary.id (Attribute.dict a) = 26 ->
    0 <= Vendor.id v < 2 ^ 32 ->
    0 <= sub < 256 ^ Z.of_nat ts ->
    (offset + len < length buf)%nat ->
    ((len <= 255)%nat ->
     Attribute.toWire a offset secret authenticator buf
     = (Ok (offset + len)%nat,
        blit (Layout.vsa (Vendor.id v) sub ts ls d) offset buf)) /\
    ((255 < len)%nat ->
     fst (Attribute.toWire a offset secret authenticator buf)
     = Throw (RangeError "ERR_OUT_OF_RANGE")).
Proof.
  intros a v sub offset secret authenticator buf d ts ls len
         Hv Hsub Hid Hvid Hsubr Hfit.
  split; intros Hlen.
  - apply toWire_vsa_ok; assumption.
  - rewrite (toWire_vsa_too_long a v) by assumption. reflexivity.
Qed.

Lemma vsa_toWire_layout_witness :
  Attribute.toWire Examples.short_avpair 0 Examples.secret Examples.zeros
    (alloc 64)
  = (Ok 12%nat,
     blit [26; 12; 0; 0; 0; 9; 1; 4; 120; 121; 122; 119] 0 (alloc 64)).
Proof.
  assert (Hid : 0 <= Vendor.id Examples.cisco < 2 ^ 32) by (cbn; lia).
  assert (Hsub : 0 <= 1 < 256 ^ Z.of_nat (Vendor.typeSize Examples.cisco))
    by (cbn; lia).
  assert (Hfit : (0 + (2 + 4 + Vendor.typeSize Examples.cisco
                       + Vendor.lengthSize Examples.cisco
                       + length (Layout.data Examples.short_avpair
                                   Examples.secret Examples.zeros))
                  < length (alloc 64))%nat)
    by (vm_compute; lia).
  apply (proj1 (vsa_toWire_layout Examples.short_avpair Examples.cisco 1 0
                  Examples.secret Examples.zeros (alloc 64)
                  eq_refl eq_refl eq_refl Hid Hsub Hfit)).
  vm_compute. lia.
Defined.

End AttributeLayout.

(* --------------------------------------------------------------------- *)
(** ** Packets: [fromWire] after [toWire]                                 *)
(* --------------------------------------------------------------------- *)

Section PacketRoundTrip.

Import Wire.

Lemma bind_Ok {A B} (a : A) (k : A -> result B) : (Ok a ≫= k) = k a.
Proof. reflexivity. Qed.

Lemma bind_Throw {A B} e (k : A -> result B) : (Throw e ≫= k) = Throw e.
Proof. reflexivity. Qed.

Lemma be_value_app l x : be_value (l ++ [x]) = be_value l * 256 + x.
Proof. unfold be_value. rewrite fold_left_app. reflexivity. Qed.

Lemma be_value_be_bytes n v :
  0 <= v < 256 ^ Z.of_nat n -> be_value (be_bytes n v) = v.
Proof.
  revert v. induction n as [| n IH]; intros v Hv.
  - cbn in *. lia.
  - cbn [be_bytes]. rewrite be_value_app.
    rewrite Nat2Z.inj_succ, Z.pow_succ_r in Hv by lia.
    rewrite IH.
    + pose proof (Z.div_mod v 256 ltac:(lia)). lia.
    + split; [apply Z.div_pos; lia |].
      apply Z.div_lt_upper_bound; lia.
Qed.

Lemma slice_all (l : list Z) : slice 0 (length l) l = l.
Proof. unfold slice. rewrite drop_0, Nat.sub_0_r. apply take_ge. lia. Qed.

Lemma slice_app_prefix (a b : list Z) :
  slice 0 (length a) (a ++ b) = a.
Proof.
  unfold slice. rewrite drop_0, Nat.sub_0_r. apply take_app_length.
Qed.

Lemma readUIntBE_be_bytes n v rest :
  0 <= v < 256 ^ Z.of_nat n ->
  readUIntBE (be_bytes n v ++ rest) 0 n = Ok v.
Proof.
  intros Hv. unfold readUIntBE.
  rewrite decide_True by (rewrite length_app, be_bytes_length; lia).
  cbn [Nat.add].
  pose proof (slice_app_prefix (be_bytes n v) rest) as H.
  rewrite be_bytes_length in H. rewrite H.
  rewrite be_value_be_bytes by assumption. reflexivity.
Qed.

Lemma readUIntBE_at pre n v rest :
  0 <= v < 256 ^ Z.of_nat n ->
  readUIntBE (pre ++ be_bytes n v ++ rest) (length pre) n = Ok v.
Proof.
  intros Hv. unfold readUIntBE.
  rewrite decide_True by (rewrite !length_app, be_bytes_length; lia).
  unfold slice. rewrite drop_app_length.
  replace (length pre + n - length pre)%nat with n by lia.
  rewrite take_app_length' by (rewrite be_bytes_length; reflexivity).
  rewrite be_value_be_bytes by assumption. reflexivity.
Qed.

(** A value read back from its own bytes. *)
Lemma fromBuffer_toBuffer v :
  value_ok v ->
  AV.fromBuffer (AV.kind_of v) (JBuffer (AV.toBuffer v)) = Ok v.
Proof.
  destruct v as [k val]. unfold value_ok, AV.toBuffer, AV.fromBuffer.
  cbn [AV.value AV.kind_of].
  destruct val as [b | n].
  - intros [Hnum Hlen]. unfold AV.bufferCheck. rewrite Hnum.
    destruct (AV.fixed_length k) as [len |]; cbn beta iota.
    + rewrite Hlen, Nat.ltb_irrefl. reflexivity.
    + replace (length b <? 1)%nat with false
        by (symmetry; apply Nat.ltb_ge; lia).
      replace (253 <? length b)%nat with false
        by (symmetry; apply Nat.ltb_ge; lia).
      reflexivity.
  - intros [Hnum (len & Hfix & Hn)]. rewrite Hfix, Hnum.
    unfold AV.bufferCheck. rewrite Hfix. cbn beta iota.
    rewrite be_bytes_length, Nat.ltb_irrefl.
    cbn [orb]. rewrite bind_Ok.
    pose proof (readUIntBE_be_bytes len n [] Hn) as Hr.
    rewrite app_nil_r in Hr. rewrite Hr, bind_Ok.
    unfold AV.numeric_fromValue.
    replace (n <? 0) with false by (symmetry; apply Z.ltb_ge; lia).
    replace (2 ^ (8 * Z.of_nat len) <=? n) with false.
    + reflexivity.
    + symmetry. apply Z.leb_gt.
      replace (2 ^ (8 * Z.of_nat len)) with (256 ^ Z.of_nat len); [lia |].
      change 256 with (2 ^ 8). rewrite <- Z.pow_mul_r by lia. reflexivity.
Qed.

Lemma toBuffer_nonempty v : value_ok v -> (1 <= length (AV.toBuffer v))%nat.
Proof.
  destruct v as [k val]. unfold value_ok, AV.toBuffer. cbn.
  destruct val as [b | n].
  - intros [Hnum Hlen]. destruct k; cbn in *; try discriminate; lia.
  - intros [Hnum (len & Hfix & Hn)]. rewrite Hfix, be_bytes_length.
    destruct k; cbn in *; try discriminate; injection Hfix; lia.
Qed.

Lemma data_clear a secret authenticator :
  clear a -> Layout.data a secret authenticator = AV.toBuffer (Attribute.avalue a).
Proof. unfold clear, Layout.data. intros ->. reflexivity. Qed.

Lemma decrypt_clear a data secret authenticator :
  clear a ->
  Attribute.decrypt (Attribute.dict a) data secret authenticator = Ok (JBuffer data).
Proof. unfold clear, Attribute.decrypt. intros ->. reflexivity. Qed.

Lemma wrap_toBuffer a :
  value_ok (Attribute.avalue a) ->
  AV.kind_of (Attribute.avalue a) = Dictionary.realType (Attribute.dict a) ->
  Attribute.wrap (Attribute.dict a) (JBuffer (AV.toBuffer (Attribute.avalue a)))
  = Ok a.
Proof.
  intros Hv Hk. unfold Attribute.wrap. rewrite <- Hk.
  rewrite fromBuffer_toBuffer by assumption. rewrite bind_Ok.
  destruct a. reflexivity.
Qed.

Lemma get_registered s id e :
  1 <= id <= 255 -> Dictionary.dict s !! inl id = Some e ->
  Dictionary.get (JNumber (Num.Int id)) s = (Ok (Some e), s).
Proof.
  intros Hid He. unfold Dictionary.get.
  replace ((id <? 1) || (255 <? id)) with false
    by (symmetry; apply orb_false_iff; split; apply Z.ltb_ge; lia).
  rewrite He. reflexivity.
Qed.

Lemma dget_eq {A} (m : Dictionary.M A) s b :
  Attribute.dget m (s, b) = (fst (m s), (snd (m s), b)).
Proof. unfold Attribute.dget. destruct (m s). reflexivity. Qed.

(** Decoding the bytes of a standard attribute. *)
Lemma fromWire_standard s a secret authenticator :
  standard_in s a -> clear a ->
  value_ok (Attribute.avalue a) ->
  AV.kind_of (Attribute.avalue a) = Dictionary.realType (Attribute.dict a) ->
  (size a <= 255)%nat ->
  let e := Layout.standard (Dictionary.id (Attribute.dict a))
                           (AV.toBuffer (Attribute.avalue a)) in
  Attribute.fromWire secret authenticator (s, e) = (Ok a, (s, e)).
Proof.
  intros (Hvend & Hsubt & Htype & Hid & Hreg) Hclear Hv Hk Hsize e.
  set (d := AV.toBuffer (Attribute.avalue a)) in *.
  assert (Hlen : length e = (2 + length d)%nat) by reflexivity.
  unfold size in Hsize. rewrite Hvend in Hsize. fold d in Hsize.
  unfold Attribute.fromWire.
  replace (length e <? 2)%nat with false by (symmetry; apply Nat.ltb_ge; lia).
  change (at_ e 0) with (Dictionary.id (Attribute.dict a)).
  change (at_ e 1) with (Z.of_nat (2 + length d)).
  rewrite Hlen, Z.eqb_refl. cbn [negb].
  rewrite ST_bind_eq, dget_eq.
  rewrite (get_registered s _ (Attribute.dict a)) by assumption.
  cbn [fst snd Attribute.defined mret ST_ret].
  rewrite ST_bind_eq. cbn [mret ST_ret].
  assert (Hvsa : Dictionary.isVSA (Attribute.dict a) = false).
  { unfold Dictionary.isVSA. apply bool_decide_eq_false. assumption. }
  rewrite ST_bind_eq, Hvsa. cbn [mret ST_ret].
  unfold Attribute.too_short, Attribute.too_long. cbn [AV.minimumLength AV.maximumLength].
  replace (slice 2 (2 + length d) e) with d.
  2:{ unfold slice. subst e. unfold Layout.standard.
      change (drop 2 ([_; _] ++ d)) with d.
      symmetry. apply take_ge. lia. }
  rewrite ST_bind_eq. unfold lift.
  rewrite decrypt_clear by assumption.
  subst d. rewrite wrap_toBuffer by assumption. reflexivity.
Qed.

Lemma vendor_registered s v :
  Dictionary.vendors s !! inl (Vendor.id v) = Some v ->
  Dictionary.vendor_ (JNumber (Num.Int (Vendor.id v))) s = (Ok (Some v), s).
Proof. intros H. unfold Dictionary.vendor_. rewrite H. reflexivity. Qed.

Lemma vsa_registered s v m sub d :
  Dictionary.vendors s !! inl (Vendor.id v) = Some v ->
  Dictionary.vsas s !! Vendor.id v = Some m ->
  m !! sub = Some d ->
  Dictionary.vsa (JNumber (Num.Int (Vendor.id v))) (JNumber (Num.Int sub)) s
  = (Ok (Some d), s).
Proof.
  intros Hv Hm Hd. unfold Dictionary.vsa.
  rewrite vendor_registered by assumption. rewrite Hm, Hd. reflexivity.
Qed.

Lemma vsa_layout_length vid sub ts ls (d : list Z) :
  length (Layout.vsa vid sub ts ls d) = (2 + 4 + ts + ls + length d)%nat.
Proof.
  unfold Layout.vsa. rewrite !length_app, !be_bytes_length. cbn [length].
  destruct (ls =? 0)%nat eqn:E.
  - apply Nat.eqb_eq in E. subst ls. cbn [length]. lia.
  - rewrite be_bytes_length. lia.
Qed.

(** Decoding the bytes of a vendor-specific attribute: the attribute
    comes back; the second byte of the buffer has been overwritten. *)
Lemma fromWire_vsa s a secret authenticator :
  vsa_in s a -> clear a ->
  value_ok (Attribute.avalue a) ->
  AV.kind_of (Attribute.avalue a) = Dictionary.realType (Attribute.dict a) ->
  (size a <= 255)%nat ->
  exists v sub,
    Dictionary.vendor (Attribute.dict a) = Some v /\
    Dictionary.sub_id (Attribute.dict a) = Some sub /\
    let e := Layout.vsa (Vendor.id v) sub (Vendor.typeSize v)
                        (Vendor.lengthSize v)
                        (AV.toBuffer (Attribute.avalue a)) in
    exists e', length e' = length e /\
      Attribute.fromWire secret authenticator (s, e) = (Ok a, (s, e')).
Proof.
  intros (v & sub & k & e26 & m & Hvend & Hsub & Hsubt & Hid & Hvid & Hsubr
          & H26 & Ht26 & Hv & Hm & Hd) Hclear Hval Hk Hsize.
  exists v, sub. split; [assumption |]. split; [assumption |].
  set (d := AV.toBuffer (Attribute.avalue a)) in *.
  set (ts := Vendor.typeSize v) in *. set (ls := Vendor.lengthSize v) in *.
  intros e.
  unfold size in Hsize. rewrite Hvend in Hsize. fold d ts ls in Hsize.
  pose proof (toBuffer_nonempty _ Hval) as Hd1. fold d in Hd1.
  assert (Hlen : length e = (2 + 4 + ts + ls + length d)%nat)
    by apply vsa_layout_length.
  set (lenfield := if (ls =? 0)%nat then []
                   else be_bytes ls (Z.min (Z.of_nat (length d)) 255)).
  assert (Hlf : length lenfield = ls).
  { subst lenfield. destruct (ls =? 0)%nat eqn:E.
    - apply Nat.eqb_eq in E. rewrite E. reflexivity.
    - apply be_bytes_length. }
  set (data := be_bytes 4 (Vendor.id v) ++ be_bytes ts sub ++ lenfield ++ d).
  assert (He : e = [26; Z.of_nat (2 + 4 + ts + ls + length d)] ++ data)
    by reflexivity.
  assert (Hdata : slice 2 (length e) e = data).
  { rewrite He at 2. unfold slice.
    change (drop 2 ([_; _] ++ data)) with data. apply take_ge.
    rewrite Hlen. subst data. rewrite !length_app, !be_bytes_length, Hlf. lia. }
  assert (Hdl : length data = (4 + ts + ls + length d)%nat).
  { subst data. rewrite !length_app, !be_bytes_length, Hlf. lia. }
  unfold Attribute.fromWire.
  replace (length e <? 2)%nat with false by (symmetry; apply Nat.ltb_ge; lia).
  change (at_ e 0) with 26.
  change (at_ e 1) with (Z.of_nat (2 + 4 + ts + ls + length d)).
  rewrite Hlen, Z.eqb_refl. cbn [negb].
  rewrite ST_bind_eq, dget_eq.
  rewrite (get_registered s 26 e26) by (try assumption; lia).
  cbn [fst snd Attribute.defined mret ST_ret].
  rewrite ST_bind_eq. cbn [mret ST_ret].
  assert (Hvsa : Dictionary.isVSA e26 = true).
  { unfold Dictionary.isVSA. apply bool_decide_eq_true. assumption. }
  rewrite ST_bind_eq, Hvsa. rewrite <- Hlen, Hdata.
  (* the VSA branch *)
  unfold Attribute.unwrap_vsa.
  replace (length data <? 4)%nat with false
    by (symmetry; apply Nat.ltb_ge; lia).
  rewrite ST_bind_eq. unfold lift at 1.
  replace (readUIntBE data 0 4) with (Ok (Vendor.id v) : result Z)
    by (symmetry; apply readUIntBE_be_bytes; cbn; lia).
  rewrite ST_bind_eq, dget_eq, vendor_registered by assumption.
  cbn [fst snd]. fold ts ls.
  replace (length data <? 4 + ts + ls)%nat with false
    by (symmetry; apply Nat.ltb_ge; lia).
  rewrite ST_bind_eq. unfold lift at 1.
  replace (readUIntBE data 4 ts) with (Ok sub : result Z).
  2:{ symmetry. subst data.
      pose proof (readUIntBE_at (be_bytes 4 (Vendor.id v)) ts sub (lenfield ++ d) Hsubr) as H.
      rewrite be_bytes_length in H. exact H. }
  set (sub_length := if (ls =? 0)%nat then Z.of_nat (length d + 2)
                     else Z.of_nat (length d)).
  rewrite ST_bind_eq.
  replace ((if (ls =? 0)%nat
            then mret (Z.of_nat (length e - (4 + ts)))
            else lift (readUIntBE data (4 + ts) ls)) (s, e))
    with (Ok sub_length : result Z, (s, e)).
  2:{ subst sub_length. destruct (ls =? 0)%nat eqn:E.
      - apply Nat.eqb_eq in E. cbn [mret ST_ret].
        replace (length e - (4 + ts))%nat with (length d + 2)%nat by lia.
        reflexivity.
      - unfold lift. f_equal. subst data lenfield. rewrite ?E.
        pose proof (readUIntBE_at (be_bytes 4 (Vendor.id v) ++ be_bytes ts sub) ls
                      (Z.min (Z.of_nat (length d)) 255) d) as H.
        rewrite length_app, !be_bytes_length, <- app_assoc in H.
        rewrite H.
        + f_equal. lia.
        + apply Nat.eqb_neq in E. split; [lia |].
          apply Z.le_lt_trans with 255; [lia |].
          apply Z.lt_le_trans with (256 ^ 1); [lia |].
          apply Z.pow_le_mono_r; lia. }
  rewrite ST_bind_eq, dget_eq.
  rewrite (vsa_registered s v m sub (Attribute.dict a)) by assumption.
  cbn [fst snd Attribute.defined mret ST_ret].
  rewrite ST_bind_eq. cbn [mret ST_ret].
  rewrite ST_bind_eq. unfold Attribute.poke1 at 1.
  set (e' := <[1%nat := _]> e).
  cbn [mret ST_ret].
  assert (Hslice : slice (4 + ts + ls)
                     (Z.to_nat (Z.of_nat (4 + ts + ls) + sub_length)) data = d).
  { unfold slice. subst data.
    rewrite !app_assoc.
    rewrite drop_app_length'
      by (rewrite !length_app, !be_bytes_length, Hlf; lia).
    apply take_ge. subst sub_length. destruct (ls =? 0)%nat; lia. }
  rewrite Hslice.
  unfold Attribute.too_short, Attribute.too_long.
  cbn [AV.minimumLength AV.maximumLength].
  rewrite ST_bind_eq. unfold lift.
  rewrite decrypt_clear by assumption.
  subst d. rewrite wrap_toBuffer by assumption.
  exists e'. split; [| reflexivity].
  subst e'. apply length_insert.
Qed.

Lemma blit_at_length (pre x zs : list Z) :
  (length x <= length zs)%nat ->
  blit x (length pre) (pre ++ zs) = pre ++ x ++ drop (length x) zs.
Proof.
  intros H. rewrite blit_spec by (rewrite length_app; lia).
  rewrite take_app_length. f_equal. f_equal.
  rewrite drop_app_ge by lia. f_equal. lia.
Qed.

(** What [toWire] writes for a plain attribute and what [fromWire] makes
    of it. *)
Lemma plain_wire s a secret authenticator :
  plain s a ->
  let e := encoding a secret authenticator in
  length e = size a /\
  (3 <= size a <= 255)%nat /\
  at_ e 1 = Z.of_nat (size a) /\
  (forall offset buf,
     (offset + size a < length buf)%nat ->
     Attribute.toWire a offset secret authenticator buf
     = (Ok (offset + size a)%nat, blit e offset buf)) /\
  (forall secret' authenticator',
     exists e', length e' = length e /\
       Attribute.fromWire secret' authenticator' (s, e) = (Ok a, (s, e'))).
Proof.
  intros (Hval & Hk & Hclear & Hin & Hsize) e.
  pose proof (toBuffer_nonempty _ Hval) as Hd1.
  subst e. unfold encoding. rewrite data_clear by assumption.
  destruct Hin as [Hstd | Hvsa].
  - pose proof Hstd as (Hvend & Hsubt & Htype & Hid & Hreg).
    rewrite Hvend.
    assert (Hsz : size a = (2 + length (AV.toBuffer (Attribute.avalue a)))%nat)
      by (unfold size; rewrite Hvend; lia).
    split; [rewrite Hsz; reflexivity |].
    split; [lia |].
    split; [rewrite Hsz; reflexivity |].
    split.
    + intros offset buf Hfit.
      pose proof (toWire_standard a offset secret authenticator buf) as H.
      cbn zeta in H. rewrite data_clear in H by assumption.
      rewrite Hsz. apply H; try assumption; lia.
    + intros secret' authenticator'.
      eexists. split; [reflexivity |].
      apply fromWire_standard; assumption.
  - destruct (fromWire_vsa s a secret authenticator Hvsa Hclear Hval Hk Hsize)
      as (v & sub & Hvend & Hsub & _).
    pose proof Hvsa as (v' & sub' & k & e26 & m & Hvend' & Hsub' & Hsubt & Hid
                        & Hvid & Hsubr & _).
    rewrite Hvend in Hvend'. injection Hvend' as <-.
    rewrite Hsub in Hsub'. injection Hsub' as <-.
    rewrite Hvend, Hsub.
    assert (Hsz : size a = (2 + 4 + Vendor.typeSize v + Vendor.lengthSize v
                            + length (AV.toBuffer (Attribute.avalue a)))%nat)
      by (unfold size; rewrite Hvend; lia).
    split; [rewrite vsa_layout_length, Hsz; reflexivity |].
    split; [lia |].
    split; [rewrite Hsz; reflexivity |].
    split.
    + intros offset buf Hfit.
      pose proof (toWire_vsa_ok a v sub offset secret authenticator buf) as H.
      cbn zeta in H. rewrite data_clear in H by assumption.
      rewrite Hsz. apply H; try assumption; lia.
    + intros secret' authenticator'.
      destruct (fromWire_vsa s a secret' authenticator' Hvsa Hclear Hval Hk Hsize)
        as (v2 & sub2 & Hvend2 & Hsub2 & H).
      rewrite Hvend in Hvend2. injection Hvend2 as <-.
      rewrite Hsub in Hsub2. injection Hsub2 as <-.
      exact H.
Qed.

Lemma sizes_cons a attrs : sizes (a :: attrs) = (size a + sizes attrs)%nat.
Proof. reflexivity. Qed.

Lemma encodings_cons a attrs secret authenticator :
  encodings (a :: attrs) secret authenticator
  = encoding a secret authenticator ++ encodings attrs secret authenticator.
Proof. reflexivity. Qed.

Lemma encodings_length s attrs secret authenticator :
  Forall (plain s) attrs ->
  length (encodings attrs secret authenticator) = sizes attrs.
Proof.
  induction 1 as [| a attrs Ha _ IH]; [reflexivity |].
  rewrite encodings_cons, sizes_cons, length_app, IH.
  destruct (plain_wire s a secret authenticator Ha) as (-> & _). reflexivity.
Qed.

(** Writing a list of plain attributes into the zeroed rest of a
    buffer. *)
Lemma toWire_from_plain s secret authenticator attrs :
  Forall (plain s) attrs ->
  forall done zs,
    (sizes attrs < length zs)%nat ->
    AttributeList.toWire_from attrs (length done) secret authenticator
                              (done ++ zs)
    = (Ok (length done + sizes attrs)%nat,
       done ++ encodings attrs secret authenticator
            ++ drop (sizes attrs) zs).
Proof.
  induction 1 as [| a attrs Ha Hattrs IH]; intros done zs Hfit.
  - cbn. rewrite Nat.add_0_r, drop_0. reflexivity.
  - cbn [AttributeList.toWire_from]. rewrite sizes_cons in *.
    destruct (plain_wire s a secret authenticator Ha)
      as (Hlen & Hsz & _ & Hto & _).
    rewrite ST_bind_eq.
    assert (Hf : (length done + size a < length (done ++ zs))%nat)
      by (rewrite length_app; lia).
    rewrite (Hto _ _ Hf).
    rewrite <- Hlen.
    rewrite blit_at_length by (rewrite Hlen; lia).
    rewrite app_assoc.
    replace (length done + length (encoding a secret authenticator))%nat
      with (length (done ++ encoding a secret authenticator))
      by (rewrite length_app; reflexivity).
    rewrite IH by (rewrite length_drop, Hlen; lia).
    rewrite length_app, Hlen. f_equal; [f_equal; lia |].
    rewrite encodings_cons, <- !app_assoc. do 3 f_equal.
    rewrite drop_drop. reflexivity.
Qed.

Lemma at_app_r (pre l : list Z) i : at_ (pre ++ l) (length pre + i) = at_ l i.
Proof.
  rewrite !at_lookup. rewrite lookup_app_r by lia.
  replace (length pre + i - length pre)%nat with i by lia. reflexivity.
Qed.

Lemma at_app_l (l rest : list Z) i : (i < length l)%nat -> at_ (l ++ rest) i = at_ l i.
Proof. intros H. rewrite !at_lookup. rewrite lookup_app_l by lia. reflexivity. Qed.

Lemma slice_middle (pre e rest : list Z) n :
  n = length e ->
  slice (length pre) (length pre + n) (pre ++ e ++ rest) = e.
Proof.
  intros ->. unfold slice. rewrite drop_app_length.
  replace (length pre + length e - length pre)%nat with (length e) by lia.
  apply take_app_length.
Qed.

(** One round of the attribute loop on the bytes of a plain attribute. *)
Lemma body_plain s a secret authenticator secret' authenticator' pre rest acc :
  plain s a ->
  let e := encoding a secret authenticator in
  exists e', length e' = length e /\
    AttributeList.body secret' authenticator' (length pre) acc
                       (s, pre ++ e ++ rest)
    = (Ok (AttributeList.Continue (length pre + size a) (acc ++ [a])),
       (s, pre ++ e' ++ rest)).
Proof.
  intros Ha e.
  destruct (plain_wire s a secret authenticator Ha)
    as (Hlen & Hsz & Hat & _ & Hfrom).
  fold e in Hlen, Hat, Hfrom.
  destruct (Hfrom secret' authenticator') as (e' & He' & Hdec).
  exists e'. split; [assumption |].
  unfold AttributeList.body.
  rewrite !length_app, Hlen.
  replace (length pre <? length pre + (size a + length rest))%nat with true
    by (symmetry; apply Nat.ltb_lt; lia).
  replace (2 <? length pre + (size a + length rest) - length pre)%nat with true
    by (symmetry; apply Nat.ltb_lt; lia).
  rewrite at_app_r, at_app_l by lia. rewrite Hat, Nat2Z.id.
  rewrite slice_middle by (symmetry; assumption).
  rewrite Hdec.
  rewrite blit_at_length by (rewrite length_app; lia).
  rewrite He', <- Hlen, drop_app_length. reflexivity.
Qed.

(** The attribute loop on the bytes of a list of plain attributes. *)
Lemma loop_plain s secret authenticator secret' authenticator' attrs :
  Forall (plain s) attrs ->
  forall fuel pre acc,
    (length attrs < fuel)%nat ->
    exists buf',
      AttributeList.loop fuel secret' authenticator' (length pre) acc
        (s, pre ++ encodings attrs secret authenticator)
      = Some (Ok (acc ++ attrs), (s, buf')).
Proof.
  induction 1 as [| a attrs Ha Hattrs IH]; intros fuel pre acc Hfuel.
  - destruct fuel as [| fuel]; [cbn in Hfuel; lia |].
    eexists. unfold encodings. cbn [map concat]. rewrite !app_nil_r.
    apply loop_at_end. lia.
  - destruct fuel as [| fuel]; [lia |].
    cbn [length] in Hfuel.
    rewrite encodings_cons. cbn [AttributeList.loop].
    destruct (body_plain s a secret authenticator secret' authenticator'
                pre (encodings attrs secret authenticator) acc Ha)
      as (e' & He' & ->).
    destruct (plain_wire s a secret authenticator Ha) as (Hlen & _).
    destruct (IH fuel (pre ++ e') (acc ++ [a]) ltac:(lia)) as (buf' & Hloop).
    exists buf'.
    rewrite length_app, He', Hlen in Hloop.
    rewrite <- !app_assoc in Hloop. exact Hloop.
Qed.

Lemma code_valid_spec c :
  code_valid c -> Code.at_byte (Code.code c) = Some c /\ 0 <= Code.code c < 256.
Proof.
  destruct c as [n]. unfold code_valid. cbn [Code.code map fst Code.codeTable In].
  intros H.
  repeat (destruct H as [<- | H]; [split; [reflexivity | lia] |]).
  contradiction.
Qed.

Lemma writeUIntBE_ok v off n (buf : list Z) :
  0 <= v < 256 ^ Z.of_nat n -> (off + n <= length buf)%nat ->
  writeUIntBE v off n buf = Ok ((off + n)%nat, blit (be_bytes n v) off buf).
Proof.
  intros Hv Hfit. unfold writeUIntBE.
  rewrite decide_True by assumption.
  rewrite decide_True by assumption. reflexivity.
Qed.

Lemma writeUIntBE_1 v off (buf : list Z) :
  0 <= v <= 255 -> (off + 1 <= length buf)%nat ->
  writeUIntBE v off 1 buf = Ok ((off + 1)%nat, blit (be_bytes 1 v) off buf).
Proof. intros Hv Hfit. apply writeUIntBE_ok; [change (256 ^ Z.of_nat 1) with 256; lia | assumption]. Qed.

Lemma writeUIntBE_2 v off (buf : list Z) :
  0 <= v < 65536 -> (off + 2 <= length buf)%nat ->
  writeUIntBE v off 2 buf = Ok ((off + 2)%nat, blit (be_bytes 2 v) off buf).
Proof. intros Hv Hfit. apply writeUIntBE_ok; [change (256 ^ Z.of_nat 2) with 65536; lia | assumption]. Qed.

Lemma toWire_plain s p secret response :
  packet_ok s p ->
  RadiusPacket.toWire p secret response
  = Ok (if response then response_image p secret else image p secret).
Proof.
  intros (Hcode & Hid & Hauth & Hattrs & Hfit).
  apply code_valid_spec in Hcode as [_ Hc].
  destruct p as [c i a [attrs ro] st].
  cbn [RadiusPacket.code RadiusPacket.identifier RadiusPacket.authenticator
       RadiusPacket.attributes AttributeList.list_] in *.
  unfold RadiusPacket.toWire.
  cbn [RadiusPacket.code RadiusPacket.identifier RadiusPacket.authenticator
       RadiusPacket.attributes AttributeList.list_ Code.valueOf].
  set (n := sizes attrs) in *.
  assert (Hz : alloc 4096 = [] ++ replicate 4096 0) by reflexivity.
  assert (Hlen : length (alloc 4096) = 4096%nat) by apply length_replicate.
  cbn zeta.
  rewrite (writeUIntBE_1 (Code.code c)) by (rewrite ?Hlen; lia).
  rewrite bind_Ok. cbn beta iota.
  rewrite (writeUIntBE_1 i) by (rewrite ?blit_length, ?Hlen; lia).
  rewrite bind_Ok. cbn beta iota.
  rewrite (writeUIntBE_2 0) by (rewrite ?blit_length, ?Hlen; lia).
  rewrite bind_Ok. cbn beta iota.
  rewrite !be_bytes_1 by lia.
  change (be_bytes 2 0) with [0; 0].
  (* the header, then zeros *)
  assert (Hbuf :
    blit a (0 + 1 + 1 + 2)
      (blit [0; 0] (0 + 1 + 1) (blit [i] (0 + 1) (blit [Code.code c] 0 (alloc 4096))))
    = ([Code.code c; i; 0; 0] ++ a) ++ replicate 4076 0).
  { repeat (rewrite blit_join
              by (rewrite ?blit_length, ?length_app; cbn [length];
                  unfold alloc; rewrite ?length_replicate; lia)).
    rewrite Hz.
    change 0%nat with (length (@nil Z)) at 1.
    rewrite blit_at_length
      by (rewrite ?length_app, length_replicate; cbn [length]; lia).
    cbn [app]. rewrite ?length_app. cbn [length]. rewrite Hauth.
    rewrite drop_replicate. rewrite <- ?app_assoc. reflexivity. }
  rewrite Hbuf.
  unfold AttributeList.toWire. cbn [AttributeList.list_].
  replace (0 + 1 + 1 + 2 + 16)%nat with (length ([Code.code c; i; 0; 0] ++ a))
    by (rewrite length_app, Hauth; reflexivity).
  rewrite (toWire_from_plain s secret a attrs Hattrs)
    by (rewrite length_replicate; fold n; lia).
  fold n. rewrite length_app, Hauth. cbn [length].
  rewrite writeUIntBE_2.
  2:{ lia. }
  2:{ rewrite !length_app, length_drop, length_replicate, Hauth.
      rewrite (encodings_length s) by assumption. fold n. cbn [length]. lia. }
  rewrite bind_Ok. cbn beta iota.
  set (be := be_bytes 2 (Z.of_nat (4 + 16 + n))).
  assert (Hbe : length be = 2%nat) by apply be_bytes_length.
  set (encs := encodings attrs secret a).
  assert (Hencs : length encs = n) by (apply (encodings_length s); assumption).
  assert (Hpatched :
    blit be (0 + 1 + 1)
         (([Code.code c; i; 0; 0] ++ a) ++ encs ++ drop n (replicate 4076 0))
    = ([Code.code c; i] ++ be ++ a ++ encs) ++ drop n (replicate 4076 0)).
  { change (([Code.code c; i; 0; 0] ++ a) ++ encs ++ drop n (replicate 4076 0))
      with ([Code.code c; i] ++ ([0; 0] ++ a ++ encs ++ drop n (replicate 4076 0))).
    change (0 + 1 + 1)%nat with (length [Code.code c; i]).
    rewrite blit_at_length by (rewrite !length_app; cbn [length]; lia).
    rewrite Hbe. change (drop 2 ([0; 0] ++ ?x)) with x.
    rewrite <- !app_assoc. reflexivity. }
  rewrite Hpatched.
  assert (Himg : slice 0 (4 + 16 + n)
                   (([Code.code c; i] ++ be ++ a ++ encs) ++ drop n (replicate 4076 0))
                 = [Code.code c; i] ++ be ++ a ++ encs).
  { unfold slice. rewrite drop_0, Nat.sub_0_r.
    apply take_app_length'.
    rewrite !length_app, Hbe, Hauth, Hencs. cbn [length]. lia. }
  rewrite Himg.
  unfold response_image, image.
  cbn [RadiusPacket.code RadiusPacket.identifier RadiusPacket.authenticator
       RadiusPacket.attributes AttributeList.list_ Code.valueOf].
  fold n encs. change (20 + n)%nat with (4 + 16 + n)%nat. fold be.
  destruct response; [| reflexivity].
  f_equal.
  set (digest := RadiusPacket.response_authenticator _ secret).
  assert (Hdig : length digest = 16%nat) by apply digest_length.
  change ([Code.code c; i] ++ be ++ a ++ encs)
    with (([Code.code c; i] ++ be) ++ (a ++ encs)) at 1.
  replace (0 + 1 + 1 + 2)%nat with (length ([Code.code c; i] ++ be))
    by (rewrite length_app, Hbe; reflexivity).
  rewrite blit_at_length by (rewrite length_app; lia).
  rewrite Hdig, <- Hauth, drop_app_length, <- !app_assoc. reflexivity.
Qed.

Lemma fromWire_plain s p secret :
  packet_ok s p ->
  forall fuel, (length (AttributeList.list_ (RadiusPacket.attributes p)) < fuel)%nat ->
  exists buf',
    RadiusPacket.fromWire fuel secret (s, response_image p secret)
    = Some (Ok (RadiusPacket.Mk (RadiusPacket.code p) (RadiusPacket.identifier p)
                  (RadiusPacket.response_authenticator (image p secret) secret)
                  (AttributeList.Mk
                     (AttributeList.list_ (RadiusPacket.attributes p)) true)
                  false),
            (s, buf')).
Proof.
  intros (Hcode & Hid & Hauth & Hattrs & Hfit) fuel Hfuel.
  apply code_valid_spec in Hcode as [Hat Hc].
  destruct p as [c i a [attrs ro] st].
  cbn [RadiusPacket.code RadiusPacket.identifier RadiusPacket.authenticator
       RadiusPacket.attributes AttributeList.list_ Code.valueOf] in *.
  set (p := RadiusPacket.Mk c i a (AttributeList.Mk attrs ro) st).
  set (digest := RadiusPacket.response_authenticator (image p secret) secret).
  assert (Hdig : length digest = 16%nat) by apply digest_length.
  set (n := sizes attrs) in *.
  set (be := be_bytes 2 (Z.of_nat (20 + n))).
  assert (Hbe : length be = 2%nat) by apply be_bytes_length.
  set (encs := encodings attrs secret a).
  assert (Hencs : length encs = n) by (apply (encodings_length s); assumption).
  set (pre := [Code.code c; i] ++ be ++ digest).
  assert (Hpre : length pre = 20%nat)
    by (unfold pre; rewrite !length_app, Hbe, Hdig; reflexivity).
  destruct (loop_plain s secret a secret digest attrs Hattrs fuel pre [] Hfuel)
    as [buf' Hloop].
  exists buf'. fold encs in Hloop.
  assert (Hw : [Code.code c; i] ++ be ++ digest ++ encs = pre ++ encs)
    by (unfold pre; rewrite <- !app_assoc; reflexivity).
  assert (Himg : response_image p secret = pre ++ encs) by (rewrite <- Hw; reflexivity).
  assert (Hlen : length (pre ++ encs) = (20 + n)%nat)
    by (rewrite length_app, Hpre, Hencs; reflexivity).
  assert (Hread : readUIntBE (pre ++ encs) 2 2 = Ok (Z.of_nat (20 + n))).
  { rewrite <- Hw. change 2%nat with (length [Code.code c; i]) at 1.
    unfold be.
    apply readUIntBE_at. change (256 ^ Z.of_nat 2) with 65536. lia. }
  assert (Hat0 : at_ (pre ++ encs) 0 = Code.code c) by (rewrite <- Hw; reflexivity).
  assert (Hat1 : at_ (pre ++ encs) 1 = i) by (rewrite <- Hw; reflexivity).
  assert (Hslice : slice 4 20 (pre ++ encs) = digest).
  { rewrite <- Hw.
    change ([Code.code c; i] ++ be ++ digest ++ encs)
      with (([Code.code c; i] ++ be) ++ digest ++ encs).
    assert (H4 : length ([Code.code c; i] ++ be) = 4%nat)
      by (rewrite length_app, Hbe; reflexivity).
    rewrite <- H4 at 1.
    replace 20%nat with (length ([Code.code c; i] ++ be) + 16)%nat by (rewrite H4; reflexivity).
    apply slice_middle. symmetry. exact Hdig. }
  rewrite Himg. clearbody pre digest be encs.
  unfold RadiusPacket.fromWire.
  rewrite Hlen, Hread, Hat0, Hat1, Hslice.
  replace (20 + n <? 20)%nat with false by (symmetry; apply Nat.ltb_ge; lia).
  replace (Z.of_nat (20 + n) <? Z.of_nat (20 + n)) with false
    by (symmetry; apply Z.ltb_ge; lia).
  cbn zeta.
  unfold AttributeList.fromWire, AttributeList.parseAttributes.
  rewrite <- Hpre. rewrite Hloop. rewrite Hat.
  unfold RadiusPacket.new, RadiusPacket.parseCode, RadiusPacket.parseId,
    RadiusPacket.parseAuthenticator, RadiusPacket.parseAttributes.
  cbn [Code.from].
  replace ((i <? 0) || (255 <? i)) with false
    by (symmetry; apply orb_false_iff; split; [apply Z.ltb_ge | apply Z.ltb_ge]; lia).
  rewrite Hdig. cbn.
  reflexivity.
Qed.





End PacketRoundTrip.

(* --------------------------------------------------------------------- *)
(** ** The client: attempts, servers and the timeout                      *)
(* --------------------------------------------------------------------- *)

Section ClientRetry.

Import RadiusClient Retry.

Variable rq : request.
Variable srvs : list server.
Variable good : Dictionary.state -> Prop.

Hypothesis retry_positive : (1 <= retry rq)%nat.
Hypothesis some_server : (1 <= length srvs)%nat.
Hypothesis buildable :
  forall identifier authenticator secret d,
    good d -> 0 <= identifier <= 255 -> length authenticator = 16%nat ->
    exists buffer d',
      build rq identifier authenticator secret d = (Ok buffer, d') /\ good d'.

Local Abbreviation k := (length srvs).
Local Abbreviation max := (retry rq * length srvs)%nat.
Local Abbreviation slots_ok := (Retry.slots_ok rq srvs).
Local Abbreviation sent_ok := (Retry.sent_ok rq srvs).
Local Abbreviation core := (Retry.core rq srvs good).
Local Abbreviation armed := (Retry.armed rq srvs).
Local Abbreviation inv := (Retry.inv rq srvs good).
Local Abbreviation waiting := (Retry.waiting rq srvs good).
Local Abbreviation timed_out := (Retry.timed_out rq srvs).

Lemma randomAuthenticator_length n : length (randomAuthenticator rq n) = 16%nat.
Proof. unfold randomAuthenticator. rewrite length_map, length_seq. reflexivity. Qed.

Lemma land_byte x : 0 <= Z.land x 255 <= 255.
Proof.
  assert (H : 0 <= Z.land x (Z.ones 8) < 2 ^ 8).
  { rewrite Z.land_ones by lia. apply Z.mod_pos_bound. lia. }
  change (Z.ones 8) with 255 in H. change (2 ^ 8) with 256 in H. lia.
Qed.

Lemma servers_length st :
  map endpoint (servers st) = map endpoint srvs -> length (servers st) = k.
Proof.
  intros H. apply (f_equal length) in H. rewrite !length_map in H. exact H.
Qed.

Lemma server_at st n srv' :
  map endpoint (servers st) = map endpoint srvs ->
  servers st !! n = Some srv' ->
  exists srv, srvs !! n = Some srv /\ endpoint srv = endpoint srv'.
Proof.
  intros H Hn.
  assert (Hm : map endpoint srvs !! n = Some (endpoint srv')).
  { rewrite <- H. change (map endpoint (servers st)) with (endpoint <$> servers st).
    rewrite list_lookup_fmap, Hn. reflexivity. }
  change (map endpoint srvs) with (endpoint <$> srvs) in Hm.
  rewrite list_lookup_fmap in Hm.
  destruct (srvs !! n) as [srv |]; [| discriminate].
  exists srv. split; [reflexivity |]. cbn in Hm. congruence.
Qed.

(** [getState] under the invariant. *)
Lemma getState_inv n st :
  core st -> (n < k)%nat ->
  exists a st' srv,
    getState rq n st = (Ok a, st') /\
    srvs !! n = Some srv /\
    made_for rq srv (a_address a) (a_port a) (a_buffer a) /\
    map endpoint (servers st') = map endpoint srvs /\
    good (dictionary st') /\
    slots_ok (slots st') /\
    timer st' = timer st /\ current st' = current st /\
    attempt st' = attempt st /\ closed st' = closed st /\
    promise st' = promise st /\ sent st' = sent st /\
    uncaught st' = uncaught st.
Proof.
  intros (Hsrv & Hgood & Hslots & _) Hn.
  unfold getState.
  destruct (slots st !! n) as [a |] eqn:Hslot.
  - destruct (Hslots n a Hslot) as (srv & Hs & Hmade).
    exists a, st, srv.
    repeat (split; [first [assumption | reflexivity] |]). reflexivity.
  - pose proof (servers_length st Hsrv) as Hlen.
    destruct (servers st !! n) as [srv' |] eqn:Hlook.
    2:{ apply lookup_ge_None in Hlook. lia. }
    destruct (server_at st n srv' Hsrv Hlook) as (srv & Hs & Hend).
    unfold endpoint in Hend. injection Hend as Hhost Hsecret Hauth Hacct.
    destruct (buildable (Z.land (id srv') 255) (randomAuthenticator rq (drawn st))
                (secret srv') (dictionary st) Hgood (land_byte _)
                (randomAuthenticator_length _)) as (buffer & d' & Hbuild & Hgood').
    cbn zeta. rewrite Hbuild.
    eexists _, _, srv. split; [reflexivity |]. cbn.
    split; [exact Hs |].
    split.
    { split; [congruence |]. split.
      - unfold port_of. rewrite Hauth, Hacct. reflexivity.
      - rewrite Hsecret. eauto. }
    split.
    { change (map endpoint ?l) with (endpoint <$> l).
      rewrite list_fmap_insert. 
      change (endpoint <$> ?l) with (map endpoint l). rewrite Hsrv.
      apply list_insert_id.
      change (map endpoint srvs) with (endpoint <$> srvs).
      rewrite list_lookup_fmap, Hs. cbn. unfold endpoint. cbn. congruence. }
    split; [exact Hgood' |].
    split.
    { intros m a Hm. destruct (decide (m = n)) as [-> | Hne].
      - rewrite lookup_insert_eq in Hm. injection Hm as <-. cbn.
        exists srv. split; [exact Hs |].
        split; [congruence |]. split.
        + unfold port_of. rewrite Hauth, Hacct. reflexivity.
        + rewrite Hsecret. eauto.
      - rewrite lookup_insert_ne in Hm by congruence. eauto. }
    repeat split; reflexivity.
Qed.

Lemma k_positive : (0 < k)%nat.
Proof. lia. Qed.

(** [send] on an open socket: one more datagram, for the server
    [attempt mod k]. *)
Lemma send_open st :
  core st -> length (sent st) = attempt st -> (attempt st < max)%nat ->
  closed st = false ->
  exists st',
    send rq st = (Ok tt, st') /\ core st' /\
    timer st' = true /\ attempt st' = attempt st /\
    length (sent st') = S (attempt st) /\ closed st' = false /\
    promise st' = promise st /\ uncaught st' = uncaught st.
Proof.
  intros Hcore Hlen Hlt Hopen.
  pose proof k_positive as Hk.
  assert (Hn : (attempt st mod k < k)%nat) by (apply Nat.mod_upper_bound; lia).
  destruct (getState_inv _ st Hcore Hn)
    as (a & st1 & srv & Hget & Hs & Hmade & Hsrv & Hgood & Hslots & Htimer & Hcur
        & Hatt & Hclosed & Hprom & Hsent & Hunc).
  destruct Hcore as (Hsrv0 & _ & _ & Hsok & Hmax).
  unfold send. rewrite (servers_length st Hsrv0), Hget. cbn [closed].
  rewrite Hclosed, Hopen.
  eexists. split; [reflexivity |]. unfold Retry.core.
  cbn [servers dictionary slots sent timer attempt closed promise uncaught current].
  split.
  { split; [exact Hsrv |]. split; [exact Hgood |]. split; [exact Hslots |].
    rewrite Hsent. split.
    - intros i dg Hi.
      destruct (decide (i < length (sent st))%nat) as [Hlt' | Hge].
      + rewrite lookup_app_l in Hi by assumption. apply Hsok. exact Hi.
      + rewrite lookup_app_r in Hi by lia.
        destruct (i - length (sent st))%nat as [| j] eqn:Hj; [| destruct j; discriminate].
        cbn in Hi. injection Hi as <-. cbn.
        assert (i = attempt st) as -> by lia.
        exists srv. split; assumption.
    - rewrite length_app. cbn. lia. }
  rewrite Hsent, length_app. cbn.
  repeat split; try assumption; lia.
Qed.

(** [send] on a closed socket throws and sends nothing. *)
Lemma send_closed st :
  core st -> (attempt st < max)%nat -> closed st = true ->
  exists e st',
    send rq st = (Throw e, st') /\
    map endpoint (servers st') = map endpoint srvs /\
    good (dictionary st') /\ slots_ok (slots st') /\
    sent st' = sent st /\ promise st' = promise st.
Proof.
  intros Hcore Hlt Hshut.
  pose proof k_positive as Hk.
  assert (Hn : (attempt st mod k < k)%nat) by (apply Nat.mod_upper_bound; lia).
  destruct (getState_inv _ st Hcore Hn)
    as (a & st1 & srv & Hget & Hs & Hmade & Hsrv & Hgood & Hslots & Htimer & Hcur
        & Hatt & Hclosed & Hprom & Hsent & Hunc).
  destruct Hcore as (Hsrv0 & _ & _ & Hsok & Hmax).
  unfold send. rewrite (servers_length st Hsrv0), Hget. cbn [closed].
  rewrite Hclosed, Hshut.
  eexists _, _. split; [reflexivity |]. cbn.
  repeat split; assumption.
Qed.

Lemma max_positive : (0 < max)%nat.
Proof. pose proof k_positive. nia. Qed.

Lemma core_ext st st' :
  servers st' = servers st -> dictionary st' = dictionary st ->
  slots st' = slots st -> sent st' = sent st -> core st -> core st'.
Proof. unfold Retry.core. intros -> -> -> ->. trivial. Qed.

Lemma core_settle x st : core st -> core (settle x st).
Proof.
  apply core_ext; unfold settle; destruct (promise st); reflexivity.
Qed.

Lemma settle_frame x st :
  timer (settle x st) = timer st /\ attempt (settle x st) = attempt st /\
  sent (settle x st) = sent st /\ uncaught (settle x st) = uncaught st /\
  closed (settle x st) = closed st.
Proof. unfold settle. destruct (promise st); repeat split; reflexivity. Qed.

Lemma max_attempts_eq st :
  map endpoint (servers st) = map endpoint srvs -> max_attempts rq st = max.
Proof. intros H. unfold max_attempts. rewrite (servers_length st H). reflexivity. Qed.

(** The first [send]. *)
Lemma start_inv d :
  good d ->
  let st := start rq srvs d in
  inv st /\ timer st = true /\ attempt st = 0%nat /\ closed st = false /\
  promise st = None /\ uncaught st = None.
Proof.
  intros Hgood.
  set (st0 := RState srvs d ∅ false None 0 false None [] 0 None).
  assert (Hcore : core st0).
  { split; [reflexivity |]. split; [exact Hgood |].
    split; [intros n a H; unfold st0 in H; cbn [slots] in H;
            rewrite lookup_empty in H; discriminate |].
    split; [intros i dg H; unfold st0 in H; cbn [sent] in H;
            rewrite lookup_nil in H; discriminate |].
    cbn. lia. }
  destruct (send_open st0 Hcore eq_refl max_positive eq_refl)
    as (st' & Hsend & Hcore' & Htimer & Hatt & Hlen & Hclosed & Hprom & Hunc).
  unfold start. fold st0. rewrite Hsend. cbn zeta.
  split.
  { split; [exact Hcore' |]. intros _ _. rewrite Hatt. split; [exact Hlen |].
    apply max_positive. }
  repeat split; assumption.
Qed.

(** The timer callback under the invariant. *)
Lemma on_timer_inv st :
  inv st -> timer st = true -> uncaught st = None -> inv (on_timer rq st).
Proof.
  intros [Hcore Harmed] Htimer Hunc.
  destruct (Harmed Htimer Hunc) as [Hlen Hlt].
  unfold on_timer.
  set (st1 := RState _ _ _ _ _ (S _) _ _ _ _ _).
  assert (Hcore1 : core st1) by (revert Hcore; apply core_ext; reflexivity).
  rewrite (max_attempts_eq st1) by apply Hcore1.
  destruct (Nat.ltb_spec (attempt st1) max) as [Hnext | Hlast].
  - destruct (closed st1) eqn:Hclosed.
    + destruct (send_closed st1 Hcore1 Hnext Hclosed)
        as (e & st' & Hsend & Hsrv & Hgood & Hslots & Hsent & _).
      rewrite Hsend. split.
      * split; [exact Hsrv |]. split; [exact Hgood |]. split; [exact Hslots |].
        cbn [sent]. rewrite Hsent. apply Hcore.
      * intros _ H. discriminate H.
    + destruct (send_open st1 Hcore1 Hlen Hnext Hclosed)
        as (st' & Hsend & Hcore' & Htimer' & Hatt & Hlen' & _).
      rewrite Hsend. split; [exact Hcore' |].
      intros _ _. rewrite Hatt. split; assumption.
  - split.
    + apply core_settle. revert Hcore1. apply core_ext; reflexivity.
    + intros H. destruct (settle_frame (RejectedError timeout_error) (close st1))
        as (Ht & _). rewrite Ht in H. discriminate H.
Qed.

Lemma on_message_inv address port res st :
  inv st -> inv (on_message rq address port res st).
Proof.
  intros Hinv. unfold on_message.
  destruct (current st) as [cur |]; [| exact Hinv].
  destruct (negb _ || negb _); [exact Hinv |].
  destruct res as [res |]; [| exact Hinv].
  destruct (choose _ _) as [[|] |]; [| | exact Hinv].
  all: split;
    [apply core_settle; revert Hinv; intros [Hcore _]; revert Hcore;
     apply core_ext; reflexivity
    | intros H;
      match type of H with
      | timer (settle ?x ?s) = true =>
          destruct (settle_frame x s) as (Ht & _); rewrite Ht in H;
          discriminate H
      end].
Qed.

Lemma step_inv st ev : inv st -> inv (step rq st ev).
Proof.
  intros Hinv. unfold step.
  destruct (uncaught st) eqn:Hunc; [exact Hinv |].
  destruct ev as [| address port res | e].
  - destruct (timer st) eqn:Htimer; [| exact Hinv].
    apply on_timer_inv; assumption.
  - apply on_message_inv. exact Hinv.
  - destruct Hinv as [Hcore Harmed].
    destruct (settle_frame (RejectedError e) (close st))
      as (Ht & Ha & Hs & Hu & _).
    split.
    + apply core_settle. revert Hcore. apply core_ext; reflexivity.
    + unfold Retry.armed. rewrite Ht, Ha, Hs, Hu. exact Harmed.
Qed.

Lemma run_inv d evs : good d -> inv (run rq srvs d evs).
Proof.
  intros Hgood. unfold run.
  pose proof (start_inv d Hgood) as [Hinv _].
  revert Hinv. generalize (start rq srvs d).
  induction evs as [| ev evs IH]; intros st Hinv; [exact Hinv |].
  cbn [fold_left]. apply IH. apply step_inv. exact Hinv.
Qed.

Lemma on_message_unanswered address port res st :
  unanswered rq (Message address port res) ->
  on_message rq address port res st = st.
Proof.
  unfold unanswered, on_message. intros H.
  destruct (current st); [| reflexivity].
  destruct (negb _ || negb _); [reflexivity |].
  destruct res; [| reflexivity]. rewrite H. reflexivity.
Qed.

Lemma timed_out_stays evs st :
  Forall (unanswered rq) evs -> timed_out st ->
  timed_out (fold_left (step rq) evs st).
Proof.
  intros Hevs. revert st.
  induction Hevs as [| ev evs Hev _ IH]; intros st Hst; [exact Hst |].
  cbn [fold_left]. apply IH.
  destruct Hst as (Hp & Hl & Ht & Hu).
  unfold step. rewrite Hu.
  destruct ev as [| address port res | e].
  - rewrite Ht. repeat split; assumption.
  - rewrite on_message_unanswered by exact Hev. repeat split; assumption.
  - destruct Hev.
Qed.

(** The timer callback of a waiting request: the next attempt, or the
    timeout after the last one. *)
Lemma on_timer_waiting st :
  waiting st ->
  ((S (attempt st) < max)%nat ->
     waiting (on_timer rq st) /\ attempt (on_timer rq st) = S (attempt st)) /\
  ((max <= S (attempt st))%nat -> timed_out (on_timer rq st)).
Proof.
  intros ([Hcore Harmed] & Htimer & Hunc & Hclosed & Hprom).
  destruct (Harmed Htimer Hunc) as [Hlen Hlt].
  unfold on_timer.
  set (st1 := RState _ _ _ _ _ (S _) _ _ _ _ _).
  assert (Hcore1 : core st1) by (revert Hcore; apply core_ext; reflexivity).
  rewrite (max_attempts_eq st1) by apply Hcore1.
  split; intros Hcmp.
  - destruct (Nat.ltb_spec (attempt st1) max) as [Hnext | Hlast];
      [| cbn in Hlast; lia].
    destruct (send_open st1 Hcore1 Hlen Hnext Hclosed)
      as (st' & Hsend & Hcore' & Htimer' & Hatt & Hlen' & Hclosed' & Hprom' & Hunc').
    rewrite Hsend. split; [| exact Hatt].
    split.
    { split; [exact Hcore' |]. intros _ _. rewrite Hatt. split; assumption. }
    repeat split; [exact Htimer' | | exact Hclosed' |].
    + rewrite Hunc'. exact Hunc.
    + rewrite Hprom'. exact Hprom.
  - destruct (Nat.ltb_spec (attempt st1) max) as [Hnext | Hlast];
      [cbn in Hnext; lia |].
    unfold Retry.timed_out, settle, close, st1, set_timer.
    cbn [promise sent timer uncaught]. rewrite Hprom.
    cbn [promise sent timer uncaught].
    repeat split; [lia | exact Hunc].
Qed.

(** A waiting request and events that answer nothing. *)
Lemma waiting_run evs :
  Forall (unanswered rq) evs ->
  forall st, waiting st ->
    let st' := fold_left (step rq) evs st in
    ((attempt st + timer_fires evs < max)%nat ->
       waiting st' /\ attempt st' = (attempt st + timer_fires evs)%nat) /\
    ((max <= attempt st + timer_fires evs)%nat -> timed_out st').
Proof.
  induction 1 as [| ev evs Hev Hevs IH]; intros st Hst.
  - cbn. split.
    + intros _. split; [exact Hst | lia].
    + intros Hge. destruct Hst as ([_ Harmed] & Htimer & Hunc & _).
      destruct (Harmed Htimer Hunc). lia.
  - cbn [fold_left].
    assert (Hunc : uncaught st = None) by apply Hst.
    assert (Htimer : timer st = true) by apply Hst.
    destruct ev as [| address port res | e].
    + cbn [timer_fires].
      assert (Hstep : step rq st TimerFires = on_timer rq st)
        by (unfold step; rewrite Hunc, Htimer; reflexivity).
      rewrite Hstep.
      destruct (on_timer_waiting st Hst) as [Hnext Hlast].
      destruct (Nat.lt_ge_cases (S (attempt st)) max) as [Hlt | Hge].
      * destruct (Hnext Hlt) as [Hw Hatt].
        specialize (IH _ Hw). cbn zeta in IH. rewrite Hatt in IH.
        replace (attempt st + S (timer_fires evs))%nat
          with (S (attempt st) + timer_fires evs)%nat by lia.
        exact IH.
      * split; [lia |]. intros _.
        apply timed_out_stays; [exact Hevs | apply Hlast; exact Hge].
    + cbn [timer_fires].
      assert (Hstep : step rq st (Message address port res) = st)
        by (unfold step; rewrite Hunc; apply on_message_unanswered; exact Hev).
      rewrite Hstep. apply IH. exact Hst.
    + destruct Hev.
Qed.


End ClientRetry.

Section ClientExample.
Import RadiusClient Retry.

(** A request without attributes can be built, whatever the identifier,
    the authenticator, the secret and the dictionary. *)
Lemma build_no_attributes c r f identifier authenticator secret d :
  Wire.code_valid c -> 0 <= identifier <= 255 ->
  length authenticator = 16%nat ->
  exists buffer,
    build (Request c RadiusPacket.NoAttrs r f) identifier authenticator secret d
    = (Ok buffer, d).
Proof.
  intros Hc Hid Hlen.
  set (p := RadiusPacket.Mk c identifier authenticator
                            (AttributeList.new [] false) true).
  assert (Hnew : RadiusPacket.new (Code.OfCode c) (JNumber (Num.Int identifier))
                   (JBuffer authenticator) RadiusPacket.NoAttrs d = (Ok p, d)).
  { unfold RadiusPacket.new, RadiusPacket.parseCode, RadiusPacket.parseId,
      RadiusPacket.parseAuthenticator, RadiusPacket.parseAttributes.
    cbn [Code.from].
    replace ((identifier <? 0) || (255 <? identifier)) with false
      by (symmetry; apply orb_false_iff; split; apply Z.ltb_ge; lia).
    rewrite Hlen. reflexivity. }
  assert (Hp : Wire.packet_ok d p).
  { split; [exact Hc |]. split; [exact Hid |]. split; [exact Hlen |].
    split; [apply Forall_nil_2 |]. cbn. lia. }
  exists (Wire.image p secret).
  unfold build. cbn [code attrs].
  rewrite ST_bind_eq, Hnew.
  unfold lift. rewrite (toWire_plain d p secret false Hp). reflexivity.
Qed.

End ClientExample.

(* --------------------------------------------------------------------- *)
(** ** Codes: [Code.from] *)
(* --------------------------------------------------------------------- *)

Section CodeFacts.
Import Numeral.

Lemma str_inj s1 s2 : str s1 = str s2 -> s1 = s2.
Proof.
  unfold str. intros H.
  rewrite <- (string_of_list_ascii_of_string s1),
          <- (string_of_list_ascii_of_string s2).
  f_equal. revert H.
  generalize (list_ascii_of_string s1) (list_ascii_of_string s2).
  induction l as [| a l IH]; intros [| b l'] H; try discriminate; [reflexivity |].
  cbn in H. injection H as Hab Hl.
  f_equal; [| apply IH; exact Hl].
  apply N2Z.inj in Hab.
  rewrite <- (ascii_N_embedding a), <- (ascii_N_embedding b). congruence.
Qed.

Lemma pretty_N_go_starts x s :
  starts_numeral s -> starts_numeral (pretty_N_go x s).
Proof.
  revert s. induction (N.lt_wf_0 x) as [x _ IH]; intros s Hs.
  assert (x = 0 \/ 0 < x)%N as [-> | Hpos] by lia.
  - rewrite pretty_N_go_0. exact Hs.
  - rewrite pretty_N_go_step by exact Hpos. apply IH.
    + apply N.div_lt; [exact Hpos | reflexivity].
    + unfold pretty_N_char. repeat case_match; vm_compute; reflexivity.
Qed.

Lemma pretty_Z_starts (z : Z) : starts_numeral (pretty z).
Proof.
  destruct z as [| p | p]; [vm_compute; reflexivity | | vm_compute; reflexivity].
  unfold pretty, pretty_Z, pretty, pretty_positive, pretty, pretty_N.
  case_decide; [vm_compute; reflexivity |]. apply pretty_N_go_starts. exact I.
Qed.

Lemma numeral_head (z : Z) u rest : str (pretty z) = u :: rest -> u < 65.
Proof.
  pose proof (pretty_Z_starts z) as H. unfold str.
  destruct (pretty z) as [| a s]; [discriminate |].
  cbn. intros [= <- _]. cbn in H. lia.
Qed.

Lemma numeral_not_word (z : Z) u rest : 65 <= u -> str (pretty z) <> u :: rest.
Proof. intros Hu H. apply numeral_head in H. lia. Qed.

Lemma numeral_key (n z : Z) :
  bool_decide (str (pretty n) = str (pretty z)) = bool_decide (n = z).
Proof.
  apply bool_decide_ext. split.
  - intros H. apply str_inj in H. apply (inj pretty). exact H.
  - intros ->. reflexivity.
Qed.

Lemma word_key (z : Z) u rest :
  65 <= u -> bool_decide (u :: rest = str (pretty z)) = false.
Proof.
  intros Hu. apply bool_decide_eq_false. intros H. symmetry in H.
  revert H. apply numeral_not_word. exact Hu.
Qed.

(** The static properties made from a table whose names start with a
    letter: looking up a number finds the row with that number. *)
Lemma statics_number (table : list (Z * string)) (z : Z) :
  Forall (fun row => exists u rest, Code.keyname (snd row) = u :: rest /\ 65 <= u)
         table ->
  List.find (fun p => bool_decide (fst p = str (pretty z)))
    (flat_map (fun '(c, name) => [ (str (pretty c), Code.Mk c);
                                   (Code.keyname name, Code.Mk c) ]) table)
  = (fun row => (str (pretty (fst row)), Code.Mk (fst row)))
      <$> List.find (fun row => fst row =? z) table.
Proof.
  induction 1 as [| [c name] table (u & rest & Hname & Hu) _ IH]; [reflexivity |].
  cbn [snd] in Hname.
  cbn [flat_map app List.find fst snd].
  rewrite numeral_key.
  destruct (Z.eqb_spec c z) as [-> | Hne].
  - rewrite bool_decide_eq_true_2 by reflexivity. reflexivity.
  - rewrite bool_decide_eq_false_2 by exact Hne.
    rewrite Hname, word_key by exact Hu. exact IH.
Qed.

Lemma codeTable_names :
  Forall (fun row => exists u rest, Code.keyname (snd row) = u :: rest /\ 65 <= u)
         Code.codeTable.
Proof.
  unfold Code.codeTable.
  repeat (apply Forall_cons_2;
          [eexists _, _; split; [vm_compute; reflexivity | lia] |]).
  apply Forall_nil_2.
Qed.

(** [Code[z]] for an integer [z]: the object of the row with that
    number, and nothing for any other number. *)
Lemma at_byte_spec z :
  Code.at_byte z = if bool_decide (In z (map fst Code.codeTable))
                   then Some (Code.Mk z) else None.
Proof.
  unfold Code.at_byte, Code.prop, Code.statics.
  rewrite (statics_number _ z codeTable_names).
  case_bool_decide as Hin.
  - cbn [Code.codeTable map fst In] in Hin.
    repeat (destruct Hin as [<- | Hin]; [reflexivity |]). destruct Hin.
  - unfold Code.codeTable. cbn [List.find fst].
    repeat match goal with
           | |- context [?c =? z] =>
               destruct (Z.eqb_spec c z) as [<- | ?];
               [exfalso; apply Hin; cbn; tauto |]
           end.
    reflexivity.
Qed.

(** X1.  [Code.from] given an integer returns the object of that code when
    the integer is one of the fourteen of the table, and throws a
    RangeError for every other integer. *)
Theorem from_number z :
  Code.from (Code.OfValue (JNumber (Num.Int z)))
  = if bool_decide (In z (map fst Code.codeTable))
    then Ok (Code.Mk z)
    else Throw (RangeError "Code lookup for unknown value").
Proof.
  unfold Code.from. cbn [Code.key_of].
  fold (Code.at_byte z). rewrite at_byte_spec.
  case_bool_decide; reflexivity.
Qed.

(** X2.  The name of a code leads back to the code: [Code.from] of
    [c.toString()], in any mix of upper and lower case, and of
    [c.valueOf()], is [c]. *)
Theorem from_toString c name :
  Code.toString c = Some name ->
  Code.from (Code.OfValue (JString (str name))) = Ok c /\
  Code.from (Code.OfValue (JString (toLowerCase (str name)))) = Ok c /\
  Code.from (Code.OfValue (JString (toUpperCase (str name)))) = Ok c /\
  Code.from (Code.OfValue (JNumber (Num.Int (Code.valueOf c)))) = Ok c.
Proof.
  destruct c as [n]. unfold Code.toString. cbn [Code.code Code.codeTable List.find fst].
  repeat match goal with
         | |- context [?c =? n] =>
             destruct (Z.eqb_spec c n) as [<- | ?];
             [intros [= <-]; repeat split; vm_compute; reflexivity |]
         end.
  discriminate.
Qed.

Lemma from_toString_witness :
  Code.toString (Code.Mk 2) = Some "Access-Accept"%string /\
  Code.from (Code.OfValue (JString (str "Access-Accept"))) = Ok (Code.Mk 2).
Proof.
  split; [reflexivity |].
  exact (proj1 (from_toString (Code.Mk 2) "Access-Accept" eq_refl)).
Defined.

End CodeFacts.

(* --------------------------------------------------------------------- *)
(** ** Vendors: the constructor *)
(* --------------------------------------------------------------------- *)

Section VendorFacts.

(** X3.  A Vendor object that the constructor returns has the name and
    the identity given, an Enterprise ID that is an unsigned 32-bit
    integer, a type size of 1, 2 or 4 and a length size of 0, 1 or 2. *)
Theorem vendor_new_legal o name id extra v :
  Vendor.new o name id extra = Ok v ->
  id = Num.Int (Vendor.id v) /\ 0 <= Vendor.id v < 2 ^ 32 /\
  Vendor.name v = name /\ Vendor.oid v = o /\
  (Vendor.typeSize v = 1 \/ Vendor.typeSize v = 2 \/ Vendor.typeSize v = 4)%nat /\
  (Vendor.lengthSize v = 0 \/ Vendor.lengthSize v = 1 \/ Vendor.lengthSize v = 2)%nat.
Proof.
  unfold Vendor.new.
  destruct id as [z | | |]; try discriminate.
  destruct ((z <? 0) || (2 ^ 32 <=? z)) eqn:Hrange; [discriminate |].
  apply orb_false_iff in Hrange as [Hlo Hhi].
  apply Z.ltb_ge in Hlo. apply Z.leb_gt in Hhi.
  destruct (fold_left Vendor.apply_format extra (Num.Int 1, Num.Int 1))
    as [ts ls].
  destruct ts as [tz | | |]; try discriminate.
  destruct ((tz =? 1) || (tz =? 2) || (tz =? 4)) eqn:Hts; [| discriminate].
  destruct ls as [lz | | |]; try discriminate.
  destruct ((lz =? 0) || (lz =? 1) || (lz =? 2)) eqn:Hls; [| discriminate].
  intros [= <-]. cbn.
  repeat split; try assumption; try reflexivity.
  - apply orb_true_iff in Hts as [Hts | Hts];
      [apply orb_true_iff in Hts as [Hts | Hts] |];
      apply Z.eqb_eq in Hts; subst tz; cbn; auto.
  - apply orb_true_iff in Hls as [Hls | Hls];
      [apply orb_true_iff in Hls as [Hls | Hls] |];
      apply Z.eqb_eq in Hls; subst lz; cbn; auto.
Qed.

Lemma vendor_new_legal_witness :
  Vendor.new 1 (str "Lucent") (Num.Int 4846) [str "format=2,1"]
    = Ok (Vendor.Mk 1 (str "Lucent") 4846 2 1) /\
  0 <= 4846 < 2 ^ 32.
Proof.
  split; [vm_compute; reflexivity |].
  exact (proj1 (proj2 (vendor_new_legal 1 (str "Lucent") (Num.Int 4846)
                         [str "format=2,1"] (Vendor.Mk 1 (str "Lucent") 4846 2 1)
                         ltac:(vm_compute; reflexivity)))).
Defined.

Lemma fold_apply_format_none extra sizes :
  Forall (fun f => Vendor.format f = None) extra ->
  fold_left Vendor.apply_format extra sizes = sizes.
Proof.
  intros H. revert sizes.
  induction H as [| f extra Hf _ IH]; intros sizes; [reflexivity |].
  cbn [fold_left]. unfold Vendor.apply_format at 2. rewrite Hf. apply IH.
Qed.

(** X4.  Of the extra fields of a VENDOR line, the last one of the form
    [format=t,l] decides the sizes, whatever precedes it; fields of any
    other form are ignored, and without a format field the sizes are 1
    and 1. *)
Theorem vendor_format_last_wins o name id earlier f later :
  Vendor.format f <> None ->
  Forall (fun x => Vendor.format x = None) later ->
  Vendor.new o name id (earlier ++ f :: later) = Vendor.new o name id [f] /\
  Vendor.new o name id later = Vendor.new o name id [].
Proof.
  intros Hf Hlater. unfold Vendor.new.
  rewrite fold_left_app. cbn [fold_left].
  rewrite !(fold_apply_format_none later) by exact Hlater.
  unfold Vendor.apply_format at 1 3.
  destruct (Vendor.format f) as [r |]; [| congruence].
  split; reflexivity.
Qed.

Lemma vendor_format_last_wins_witness :
  Vendor.format (str "format=4,0") <> None /\
  Forall (fun x => Vendor.format x = None) [str "format=x"] /\
  Vendor.new 1 (str "V") (Num.Int 9)
    ([str "format=2,2"] ++ str "format=4,0" :: [str "format=x"])
  = Ok (Vendor.Mk 1 (str "V") 9 4 0).
Proof.
  assert (H1 : Vendor.format (str "format=4,0") <> None)
    by (vm_compute; discriminate).
  assert (H2 : Forall (fun x => Vendor.format x = None) [str "format=x"])
    by (apply Forall_cons_2; [vm_compute; reflexivity | apply Forall_nil_2]).
  split; [exact H1 |]. split; [exact H2 |].
  rewrite (proj1 (vendor_format_last_wins 1 (str "V") (Num.Int 9)
                    [str "format=2,2"] (str "format=4,0") [str "format=x"] H1 H2)).
  vm_compute. reflexivity.
Defined.

End VendorFacts.

(* --------------------------------------------------------------------- *)
(** ** Wrapped values: [fromBuffer], [fromValue], [toBuffer] *)
(* --------------------------------------------------------------------- *)

Section ValueFacts.
Import Wire.

Lemma bind_result_ok {A B} (m : result A) (k : A -> result B) b :
  (m ≫= k) = Ok b -> exists a, m = Ok a /\ k a = Ok b.
Proof. destruct m as [a | e]; [eauto | discriminate]. Qed.

Lemma be_bytes_be_value (b : list Z) :
  bytes_ok b -> be_bytes (length b) (be_value b) = b.
Proof.
  induction b as [| x b IH] using rev_ind; intros Hb; [reflexivity |].
  apply Forall_app in Hb as [Hb Hx]. apply Forall_cons in Hx as [Hx _].
  unfold byte_ok in Hx.
  rewrite length_app, Nat.add_1_r. cbn [length be_bytes].
  rewrite be_value_app.
  replace ((be_value b * 256 + x) / 256) with (be_value b)
    by (apply Z.div_unique_pos with x; lia).
  replace ((be_value b * 256 + x) mod 256) with x
    by (apply Z.mod_unique_pos with (be_value b); lia).
  rewrite IH by exact Hb. reflexivity.
Qed.

Lemma bufferCheck_ok k x b :
  AV.bufferCheck k x = Ok b ->
  x = JBuffer b /\
  match AV.fixed_length k with
  | Some n => length b = n
  | None => (1 <= length b <= 253)%nat
  end.
Proof.
  unfold AV.bufferCheck. destruct x; try discriminate.
  destruct (AV.fixed_length k) as [n |].
  - destruct ((length b0 <? n)%nat || (n <? length b0)%nat) eqn:E; [discriminate |].
    intros [= <-]. apply orb_false_iff in E as [E1 E2].
    apply Nat.ltb_ge in E1, E2. split; [reflexivity | lia].
  - destruct ((length b0 <? 1)%nat || (253 <? length b0)%nat) eqn:E; [discriminate |].
    intros [= <-]. apply orb_false_iff in E as [E1 E2].
    apply Nat.ltb_ge in E1, E2. split; [reflexivity | lia].
Qed.

Lemma numeric_fromValue_ok k len x v :
  AV.numeric_fromValue k len x = Ok v ->
  exists z, x = JNumber (Num.Int z) /\ v = AV.Mk k (AV.Number z) /\
            0 <= z < 256 ^ Z.of_nat len.
Proof.
  unfold AV.numeric_fromValue.
  destruct x as [| | | n | | | |]; try discriminate.
  destruct n as [z | | |]; try discriminate.
  destruct ((z <? 0) || (2 ^ (8 * Z.of_nat len) <=? z)) eqn:E; [discriminate |].
  intros [= <-]. apply orb_false_iff in E as [E1 E2].
  apply Z.ltb_ge in E1. apply Z.leb_gt in E2.
  exists z. split; [reflexivity |]. split; [reflexivity |].
  rewrite Z.pow_mul_r in E2 by lia. change (2 ^ 8) with 256 in E2. lia.
Qed.

Lemma numeric_kind k : AV.is_numeric k = true -> exists len, AV.fixed_length k = Some len.
Proof. destruct k; try discriminate; eauto. Qed.

(** What [fromBuffer] returns. *)
Lemma fromBuffer_ok k x v :
  AV.fromBuffer k x = Ok v ->
  exists b, x = JBuffer b /\ AV.kind_of v = k /\ value_ok v /\
    (AV.is_numeric k = false -> AV.value v = AV.Bytes b) /\
    (AV.is_numeric k = true -> AV.value v = AV.Number (be_value b)).
Proof.
  unfold AV.fromBuffer. intros H.
  apply bind_result_ok in H as (b & Hcheck & H).
  apply bufferCheck_ok in Hcheck as [-> Hlen].
  exists b. split; [reflexivity |].
  destruct (AV.is_numeric k) eqn:Hnum.
  - destruct (AV.fixed_length k) as [len |] eqn:Hfix; [| discriminate].
    apply bind_result_ok in H as (n & Hread & H).
    unfold readUIntBE in Hread.
    destruct (decide (0 + len <= length b)%nat); [| discriminate].
    assert (Hs : slice 0 (0 + len) b = b).
    { unfold slice. rewrite drop_0. apply take_ge. lia. }
    rewrite Hs in Hread. injection Hread as <-.
    apply numeric_fromValue_ok in H as (z & [= Hz'] & -> & Hz). subst z.
    split; [reflexivity |]. split.
    + unfold value_ok. cbn. split; [exact Hnum |]. exists len. split; assumption.
    + split; [discriminate | reflexivity].
  - injection H as <-. split; [reflexivity |]. split.
    + unfold value_ok. cbn. split; [exact Hnum | exact Hlen].
    + split; [reflexivity | discriminate].
Qed.

Lemma inet4_of_array_value xs v :
  AV.inet4_of_array xs = Ok v -> AV.kind_of v = AV.Inet4 /\ value_ok v.
Proof.
  unfold AV.inet4_of_array.
  destruct (negb (length xs =? 4)%nat); [discriminate |].
  destruct (negb (forallb AV.octet xs)); [discriminate |].
  intros H. apply fromBuffer_ok in H as (b & _ & Hk & Hok & _). split; assumption.
Qed.

(** What [fromValue] returns. *)
Lemma fromValue_ok k x v :
  AV.fromValue k x = Ok v -> AV.kind_of v = k /\ value_ok v.
Proof.
  unfold AV.fromValue.
  assert (Hbuf : forall y, AV.fromBuffer k y = Ok v -> AV.kind_of v = k /\ value_ok v).
  { intros y H. apply fromBuffer_ok in H as (b & _ & Hk & Hok & _). split; assumption. }
  assert (Hnum : forall len, AV.fixed_length k = Some len -> AV.is_numeric k = true ->
                 AV.numeric_fromValue k len x = Ok v -> AV.kind_of v = k /\ value_ok v).
  { intros len Hfix Hn H. apply numeric_fromValue_ok in H as (z & _ & -> & Hz).
    split; [reflexivity |]. unfold value_ok. cbn. split; [exact Hn |]. eauto. }
  destruct k; cbn [AV.fixed_length]; try apply Hbuf;
    try (apply Hnum; reflexivity).
  - destruct x; try discriminate; apply Hbuf.
  - unfold AV.inet4_fromValue. destruct x; try discriminate;
      apply inet4_of_array_value.
Qed.

Lemma value_ok_length v :
  value_ok v ->
  (1 <= length (AV.toBuffer v) <= 253)%nat /\
  forall n, AV.fixed_length (AV.kind_of v) = Some n -> length (AV.toBuffer v) = n.
Proof.
  destruct v as [k val]. unfold value_ok, AV.toBuffer. cbn.
  destruct val as [b | n].
  - intros [_ Hlen]. destruct (AV.fixed_length k) as [m |] eqn:Hfix.
    + split; [| intros ? [= <-]; exact Hlen].
      destruct k; try discriminate; injection Hfix as <-; lia.
    + split; [exact Hlen | discriminate].
  - intros (_ & len & Hfix & _). rewrite Hfix, be_bytes_length.
    split; [| intros ? [= <-]; reflexivity].
    destruct k; try discriminate; injection Hfix as <-; lia.
Qed.

(** X5.  A wrapped value, however it was made, takes between 1 and 253
    bytes on the wire (exactly the length of its class when the class
    has one), and [fromBuffer] of those bytes gives the value back. *)
Theorem wrapped_value_reparses k x v :
  AV.fromValue k x = Ok v \/ AV.fromBuffer k x = Ok v ->
  AV.fromBuffer k (JBuffer (AV.toBuffer v)) = Ok v /\
  (1 <= length (AV.toBuffer v) <= 253)%nat /\
  (forall n, AV.fixed_length k = Some n -> length (AV.toBuffer v) = n).
Proof.
  intros H.
  assert (Hv : AV.kind_of v = k /\ value_ok v).
  { destruct H as [H | H]; [exact (fromValue_ok k x v H) |].
    apply fromBuffer_ok in H as (b & _ & Hk & Hok & _). split; assumption. }
  destruct Hv as [<- Hok].
  split; [apply fromBuffer_toBuffer; exact Hok |].
  apply value_ok_length. exact Hok.
Qed.

Lemma wrapped_value_reparses_witness :
  AV.fromValue AV.Short (JNumber (Num.Int 513))
    = Ok (AV.Mk AV.Short (AV.Number 513)) /\
  AV.fromBuffer AV.Short (JBuffer [2; 1]) = Ok (AV.Mk AV.Short (AV.Number 513)).
Proof.
  split; [reflexivity |].
  exact (proj1 (wrapped_value_reparses AV.Short (JNumber (Num.Int 513))
                  (AV.Mk AV.Short (AV.Number 513)) (or_introl eq_refl))).
Defined.

(** X6.  [fromBuffer] followed by [toBuffer] gives the bytes back: the
    value made from a Buffer of bytes encodes to the same bytes. *)
Theorem toBuffer_fromBuffer k b v :
  bytes_ok b ->
  AV.fromBuffer k (JBuffer b) = Ok v ->
  AV.toBuffer v = b.
Proof.
  intros Hb H.
  pose proof (fromBuffer_ok k _ v H) as (b' & [= <-] & Hk & Hok & Hbytes & Hnum).
  unfold AV.toBuffer. rewrite Hk.
  destruct (AV.is_numeric k) eqn:E.
  - rewrite (Hnum eq_refl).
    destruct (numeric_kind k E) as [len Hfix]. rewrite Hfix.
    unfold AV.fromBuffer in H.
    apply bind_result_ok in H as (b1 & Hcheck & _).
    apply bufferCheck_ok in Hcheck as [[= <-] Hlen].
    rewrite Hfix in Hlen. subst len. apply be_bytes_be_value. exact Hb.
  - rewrite (Hbytes eq_refl). reflexivity.
Qed.

Lemma toBuffer_fromBuffer_witness :
  bytes_ok [10; 0; 0; 1] /\
  AV.toBuffer (AV.Mk AV.Integer (AV.Number 167772161)) = [10; 0; 0; 1].
Proof.
  assert (H : bytes_ok [10; 0; 0; 1])
    by (repeat (apply Forall_cons_2; [unfold byte_ok; lia |]); apply Forall_nil_2).
  split; [exact H |].
  exact (toBuffer_fromBuffer AV.Integer [10; 0; 0; 1]
           (AV.Mk AV.Integer (AV.Number 167772161)) H eq_refl).
Defined.

End ValueFacts.

(* --------------------------------------------------------------------- *)
(** ** The dictionary tables *)
(* --------------------------------------------------------------------- *)

Section TableFacts.
Import Dictionary Tables DictionaryFile.

Lemma filed_empty : filed empty.
Proof.
  split; [apply wf_empty |].
  split; [intros z e H; cbn in H; rewrite lookup_empty in H; discriminate |].
  split; [intros vid m sub e H; cbn in H; rewrite lookup_empty in H; discriminate |].
  assert (Hnone : forall e, ~ holds empty e).
  { intros e [(key & H) | (vid & m & sub & H & _)];
      cbn in H; rewrite lookup_empty in H; discriminate. }
  split; [intros e H; destruct (Hnone e H) |].
  intros e1 e2 H. destruct (Hnone e1 H).
Qed.

Lemma newEntry_shape o v nm n ty fl extra ent :
  newEntry o v nm n ty fl extra = Ok ent ->
  oid ent = o /\ name ent = nm /\
  match v with
  | Some w => id ent = 26 /\ type ent = AV.VSA /\
              sub_id ent = Some n /\ is_Some (sub_type ent) /\
              vendor ent = Some w
  | None => id ent = n /\ vendor ent = None /\ sub_id ent = None /\
            sub_type ent = None
  end.
Proof.
  unfold newEntry.
  destruct (typeMap_get _) as [k |]; [| discriminate].
  intros [= <-]. destruct v; cbn; repeat split; eauto.
Qed.

(** Creating an object only moves the counter. *)
Lemma filed_fresh s :
  filed s -> filed (MkState (dict s) (vendors s) (vsas s) (Pos.succ (next s))).
Proof.
  intros (Hwf & Hd & Hv & Ho & Hu).
  split; [exact Hwf |]. split; [exact Hd |]. split; [exact Hv |].
  split; [| exact Hu].
  intros e He. specialize (Ho e He). cbn. lia.
Qed.

Lemma addAttributeSpec_filed v nm n ty fl extra :
  keeps_filed (addAttributeSpec v nm n ty fl extra).
Proof.
  intros s r s' Hs. unfold addAttributeSpec, fresh. cbn beta iota zeta.
  destruct (newEntry (next s) v nm n ty fl extra) as [ent | e] eqn:Hnew.
  2:{ intros [= <- <-]. apply filed_fresh. exact Hs. }
  apply newEntry_shape in Hnew as (Hoid & Hname & Hshape).
  destruct Hs as (Hwf & Hd & Hv & Ho & Hu).
  intros [= <- <-].
  match goal with |- filed (set_dict _ _ ?x) => set (s1 := x) end.
  assert (Hvend : vendors s1 = vendors s)
    by (unfold s1; destruct v as [w |]; [destruct (vsas _ !! _) |]; reflexivity).
  assert (Hnext : next s1 = Pos.succ (next s))
    by (unfold s1; destruct v as [w |]; [destruct (vsas _ !! _) |]; reflexivity).
  assert (Hsome : forall z, is_Some (vsas s !! z) -> is_Some (vsas s1 !! z)).
  { intros z Hz. unfold s1. destruct v as [w |]; [| exact Hz].
    cbn [vsas]. destruct (vsas s !! Vendor.id w) as [m |] eqn:E; [| exact Hz].
    cbn. destruct (decide (z = Vendor.id w)) as [-> | Hne].
    - rewrite lookup_insert_eq. eauto.
    - rewrite lookup_insert_ne by congruence. exact Hz. }
  assert (Hdict1 : forall z e, dict s1 !! inl z = Some e ->
            id e = z /\ vendor e = None /\ sub_id e = None /\ sub_type e = None).
  { intros z e. unfold s1. destruct v as [w |].
    - cbn [vsas]. destruct (vsas s !! Vendor.id w); cbn; apply Hd.
    - cbn. destruct (decide (z = n)) as [-> | Hne].
      + rewrite lookup_insert_eq. intros [= <-]. exact Hshape.
      + rewrite lookup_insert_ne by congruence. apply Hd. }
  assert (Hvsas1 : forall vid m sub e, vsas s1 !! vid = Some m -> m !! sub = Some e ->
            id e = 26 /\ type e = AV.VSA /\ sub_id e = Some sub /\
            is_Some (sub_type e) /\ exists v, vendor e = Some v /\ Vendor.id v = vid).
  { intros vid m sub e. unfold s1. destruct v as [w |]; [| cbn; apply Hv].
    cbn [vsas]. destruct (vsas s !! Vendor.id w) as [m0 |] eqn:E; [| cbn; apply Hv].
    cbn. destruct (decide (vid = Vendor.id w)) as [-> | Hne].
    - rewrite lookup_insert_eq. intros [= <-].
      destruct (decide (sub = n)) as [-> | Hne'].
      + rewrite lookup_insert_eq. intros [= <-].
        destruct Hshape as (H1 & H2 & H3 & H4 & H5). eauto 10.
      + rewrite lookup_insert_ne by congruence. apply (Hv _ _ _ _ E).
    - rewrite lookup_insert_ne by congruence. apply Hv. }
  assert (Hholds1 : forall e, holds s1 e -> holds s e \/ e = ent).
  { intros e. unfold s1. destruct v as [w |].
    - cbn [vsas]. destruct (vsas s !! Vendor.id w) as [m0 |] eqn:E.
      + intros [(key & H) | (vid & m & sub & H & H')]; cbn in H.
        * left. left. eauto.
        * destruct (decide (vid = Vendor.id w)) as [-> | Hne].
          -- rewrite lookup_insert_eq in H. injection H as <-.
             destruct (decide (sub = n)) as [-> | Hne'].
             ++ rewrite lookup_insert_eq in H'. injection H' as <-. right. reflexivity.
             ++ rewrite lookup_insert_ne in H' by congruence.
                left. right. eauto.
          -- rewrite lookup_insert_ne in H by congruence. left. right. eauto.
      + intros [(key & H) | (vid & m & sub & H & H')]; cbn in H.
        * left. left. eauto.
        * left. right. eauto.
    - intros [(key & H) | (vid & m & sub & H & H')]; cbn in H.
      + destruct (decide (key = inl n)) as [-> | Hne].
        * rewrite lookup_insert_eq in H. injection H as <-. right. reflexivity.
        * rewrite lookup_insert_ne in H by congruence. left. left. eauto.
      + left. right. eauto. }
  assert (Hholds : forall e, holds (set_dict (inr (toLowerCase nm)) ent s1) e ->
                             holds s e \/ e = ent).
  { intros e [(key & H) | (vid & m & sub & H & H')]; cbn [dict vsas set_dict] in H.
    - destruct (decide (key = inr (toLowerCase nm))) as [-> | Hne].
      + rewrite lookup_insert_eq in H. injection H as <-. right. reflexivity.
      + rewrite lookup_insert_ne in H by congruence.
        apply Hholds1. left. eauto.
    - apply Hholds1. right. eauto. }
  split.
  { intros z w Hw. cbn [vendors set_dict] in Hw. rewrite Hvend in Hw.
    destruct (Hwf z w Hw) as [Hid Hz]. split; [exact Hid |].
    cbn [vsas set_dict]. apply Hsome. exact Hz. }
  split.
  { intros z e. cbn [dict set_dict]. rewrite lookup_insert_ne by discriminate.
    apply Hdict1. }
  split; [exact Hvsas1 |].
  split.
  { intros e He. cbn [next set_dict]. rewrite Hnext.
    destruct (Hholds e He) as [Hold | ->]; [specialize (Ho e Hold) |]; lia. }
  intros e1 e2 H1 H2 Heq.
  destruct (Hholds e1 H1) as [Hold1 | ->], (Hholds e2 H2) as [Hold2 | ->].
  - apply Hu; assumption.
  - specialize (Ho e1 Hold1). lia.
  - specialize (Ho e2 Hold2). lia.
  - reflexivity.
Qed.

(** Consistency only depends on the tables of entries through what they
    hold, once the vendor table is known to be well formed. *)
Lemma filed_shrink s s' :
  filed s -> wf s' -> dict s' = dict s ->
  (forall vid m, vsas s' !! vid = Some m -> m = ∅ \/ vsas s !! vid = Some m) ->
  (next s <= next s')%positive ->
  filed s'.
Proof.
  intros (_ & Hd & Hv & Ho & Hu) Hwf Hdict Hvsas Hnext.
  assert (Hholds : forall e, holds s' e -> holds s e).
  { intros e [(key & H) | (vid & m & sub & H & H')].
    - left. exists key. rewrite <- Hdict. exact H.
    - destruct (Hvsas vid m H) as [-> | Hm].
      + rewrite lookup_empty in H'. discriminate.
      + right. eauto. }
  split; [exact Hwf |].
  split; [intros z e; rewrite Hdict; apply Hd |].
  split.
  { intros vid m sub e H H'. destruct (Hvsas vid m H) as [-> | Hm].
    - rewrite lookup_empty in H'. discriminate.
    - eapply Hv; eassumption. }
  split.
  { intros e He. specialize (Ho e (Hholds e He)). lia. }
  intros e1 e2 H1 H2. apply Hu; apply Hholds; assumption.
Qed.

Lemma addVendor_filed nm n extra : keeps_filed (addVendor nm n extra).
Proof.
  intros s r s' Hs H.
  assert (Hwf' : wf s') by (eapply addVendor_wf; [apply Hs | exact H]).
  revert H. unfold addVendor.
  destruct n as [z | | |]; try (intros [= <- <-]; exact Hs).
  destruct (vendors s !! inl z); [intros [= <- <-]; exact Hs |].
  unfold fresh. cbn beta iota zeta. cbn [next set_vsas dict vendors vsas].
  destruct (Vendor.new (next s) nm (Num.Int z) extra) as [v | e];
    intros [= <- <-]; (apply (filed_shrink s); [exact Hs | exact Hwf' | reflexivity | | cbn; lia]);
    intros vid m; cbn;
    (destruct (decide (vid = z)) as [-> | Hne];
     [rewrite lookup_insert_eq; intros [= <-]; left; reflexivity
     | rewrite lookup_insert_ne by congruence; right; assumption]).
Qed.

Lemma vendor_filed x : keeps_filed (vendor_ x).
Proof.
  intros s r s' Hs. unfold vendor_.
  destruct x as [| | | n | | | |]; try (intros [= <- <-]; exact Hs).
  destruct n as [z | | |]; try (intros [= <- <-]; exact Hs).
  destruct (vendors s !! inl z); [intros [= <- <-]; exact Hs |].
  destruct (addVendor _ _ _ s) as [r' s1] eqn:E.
  apply addVendor_filed in E; [| exact Hs].
  destruct r'; intros [= <- <-]; exact E.
Qed.

Lemma get_filed x : keeps_filed (get x).
Proof.
  intros s r s' Hs. unfold get.
  destruct x as [| | | n | nm | | |]; try (intros [= <- <-]; exact Hs).
  - destruct n as [z | | |]; try (intros [= <- <-]; exact Hs).
    destruct ((z <? 1) || (255 <? z)); [intros [= <- <-]; exact Hs |].
    destruct (dict s !! inl z); [intros [= <- <-]; exact Hs |].
    destruct (addAttributeSpec _ _ _ _ _ _ s) as [r' s1] eqn:E.
    apply addAttributeSpec_filed in E; [| exact Hs].
    destruct r'; intros [= <- <-]; exact E.
  - destruct (dict s !! inr (toLowerCase nm)); intros [= <- <-]; exact Hs.
Qed.

Lemma vsa_filed x y : keeps_filed (vsa x y).
Proof.
  intros s r s' Hs. unfold vsa.
  destruct x as [| | | n | | | |]; try (intros [= <- <-]; exact Hs);
    try (destruct y; intros [= <- <-]; exact Hs).
  destruct y as [| | | n' | | | |];
    try (destruct n; intros [= <- <-]; exact Hs).
  destruct n as [z | | |]; try (intros [= <- <-]; exact Hs).
  destruct n' as [sub | | |]; try (intros [= <- <-]; exact Hs).
  destruct (vendor_ (JNumber (Num.Int z)) s) as [rv s1] eqn:Ev.
  apply vendor_filed in Ev; [| exact Hs].
  destruct rv as [[v |] | e]; try (intros [= <- <-]; exact Ev).
  destruct (vsas s1 !! Vendor.id v) as [d |]; [| intros [= <- <-]; exact Ev].
  destruct (d !! sub); [intros [= <- <-]; exact Ev |].
  destruct (addAttributeSpec _ _ _ _ _ _ s1) as [r' s2] eqn:E.
  apply addAttributeSpec_filed in E; [| exact Ev].
  destruct r'; intros [= <- <-]; exact E.
Qed.

Lemma beginVendor_filed nm : keeps_filed (beginVendor nm).
Proof.
  intros s r s' Hs. unfold beginVendor.
  destruct (vendors s !! inr (toLowerCase nm)); intros [= <- <-]; exact Hs.
Qed.



Lemma in_range z : 1 <= z <= 255 -> (z <? 1) || (255 <? z) = false.
Proof. intros H. apply orb_false_iff. split; apply Z.ltb_ge; lia. Qed.

(** [get] of a number in range: where the entry is afterwards, and what
    it is when it had to be made. *)
Lemma get_number_lookup s z :
  1 <= z <= 255 ->
  exists e s1,
    get (JNumber (Num.Int z)) s = (Ok (Some e), s1) /\
    dict s1 !! inl z = Some e /\
    (dict s !! inl z = None ->
       e = MkEntry (next s) AV.Buffer z
                   (str "Unknown-Attribute-" ++ str (pretty z))
                   None None None ∅ [] /\
       dict s1 !! inr (toLowerCase (name e)) = Some e /\
       vendors s1 = vendors s /\ vsas s1 = vsas s).
Proof.
  intros Hz. unfold get. rewrite in_range by exact Hz.
  destruct (dict s !! inl z) as [e |] eqn:E.
  - exists e, s. split; [reflexivity |]. split; [exact E | discriminate].
  - unfold addAttributeSpec, fresh. cbn beta iota zeta. rewrite newEntry_octets.
    set (ent := MkEntry _ _ _ _ _ _ _ _ _).
    set (s1 := set_dict _ ent (set_dict _ ent _)).
    assert (Hl : dict s1 !! inl z = Some ent).
    { subst s1. cbn. rewrite lookup_insert_ne by discriminate.
      apply lookup_insert_eq. }
    exists ent, s1. rewrite Hl. split; [reflexivity |]. split; [reflexivity |].
    intros _. split; [reflexivity |].
    split; [subst s1; cbn; apply lookup_insert_eq |].
    split; reflexivity.
Qed.

(** X8.  [Dictionary.get(z)] for an integer [z] in 1..255, in consistent
    tables: it returns a standard descriptor whose number is [z]; when
    the number was not registered the descriptor is made up, called
    Unknown-Attribute-z, of type octets and without flags, and from then
    on [get] finds it under that name too. *)
Theorem get_number_result s z :
  filed s -> 1 <= z <= 255 ->
  exists e s1,
    get (JNumber (Num.Int z)) s = (Ok (Some e), s1) /\ filed s1 /\
    id e = z /\ vendor e = None /\ isVSA e = bool_decide (type e = AV.VSA) /\
    (dict s !! inl z = None ->
       name e = str "Unknown-Attribute-" ++ str (pretty z) /\
       realType e = AV.Buffer /\ flags e = ∅ /\
       get (JString (name e)) s1 = (Ok (Some e), s1)).
Proof.
  intros Hs Hz.
  destruct (get_number_lookup s z Hz) as (e & s1 & Hget & Hl & Hnew).
  exists e, s1. split; [exact Hget |].
  assert (Hs1 : filed s1) by (exact (get_filed _ _ _ _ Hs Hget)).
  split; [exact Hs1 |].
  destruct Hs1 as (_ & Hd & _).
  destruct (Hd z e Hl) as (Hid & Hv & _).
  split; [exact Hid |]. split; [exact Hv |]. split; [reflexivity |].
  intros Hnone. destruct (Hnew Hnone) as (-> & Hname & _).
  split; [reflexivity |]. split; [reflexivity |]. split; [reflexivity |].
  apply get_name_known. exact Hname.
Qed.

Lemma get_number_result_witness :
  filed empty /\ 1 <= 254 <= 255 /\
  exists e s1,
    get (JNumber (Num.Int 254)) empty = (Ok (Some e), s1) /\ id e = 254.
Proof.
  split; [exact filed_empty |]. split; [lia |].
  destruct (get_number_result empty 254 filed_empty ltac:(lia))
    as (e & s1 & Hget & _ & Hid & _).
  exists e, s1. split; assumption.
Defined.

(** [vsa] of a vendor id and a sub-id: where the entry is afterwards. *)
Lemma vsa_lookup s vid sub :
  wf s -> 0 <= vid < 2 ^ 32 ->
  exists e s1 v m,
    vsa (JNumber (Num.Int vid)) (JNumber (Num.Int sub)) s = (Ok (Some e), s1) /\
    vendor_ (JNumber (Num.Int vid)) s1 = (Ok (Some v), s1) /\
    vendors s1 !! inl vid = Some v /\
    vsas s1 !! vid = Some m /\ m !! sub = Some e /\
    ((vendors s !! inl vid = None \/
      exists m0, vsas s !! vid = Some m0 /\ m0 !! sub = None) ->
     name e = Vendor.name v ++ str "-Unknown-Attribute-" ++ str (pretty sub) /\
     sub_type e = Some AV.Buffer /\ flags e = ∅ /\ vendor e = Some v) /\
    (vendors s !! inl vid = None ->
     v = Vendor.Mk (next s) (str "Vendor" ++ str (pretty vid)) vid 1 1).
Proof.
  intros Hwf Hvid.
  unfold vsa, vendor_.
  destruct (vendors s !! inl vid) as [v |] eqn:Ev.
  - destruct (Hwf vid v Ev) as [Hidv [d Hd]].
    rewrite Hidv, Hd.
    destruct (d !! sub) as [e |] eqn:Esub.
    + exists e, s, v, d. rewrite Ev.
      repeat (split; [first [reflexivity | assumption] |]).
      split; [| discriminate].
      intros [H | (m0 & Hm0 & Hsub)]; [discriminate | congruence].
    + unfold addAttributeSpec, fresh. cbn beta iota zeta. rewrite newEntry_octets.
      cbn [vsas]. rewrite Hidv, Hd.
      set (ent := MkEntry _ _ _ _ _ _ _ _ _).
      set (s2 := set_dict _ ent _).
      assert (Hv2 : vendors s2 = vendors s) by reflexivity.
      assert (Hd2 : vsas s2 !! vid = Some (<[sub := ent]> d))
        by (subst s2; cbn; apply lookup_insert_eq).
      exists ent, s2, v, (<[sub := ent]> d). rewrite Hd2. cbn [mbind option_bind].
      rewrite lookup_insert_eq, Hv2, Ev.
      repeat (split; [reflexivity |]).
      split; [intros _; repeat split; reflexivity | discriminate].
  - unfold addVendor, fresh. rewrite Ev. cbn beta iota zeta. cbn [set_vsas next].
    rewrite Vendor_new_default by assumption.
    set (v := Vendor.Mk _ _ _ _ _).
    set (s1 := set_vendor _ v (set_vendor _ v _)).
    assert (Hl : vendors s1 !! inl vid = Some v).
    { subst s1. cbn. rewrite lookup_insert_ne by discriminate.
      apply lookup_insert_eq. }
    assert (Hd : vsas s1 !! vid = Some ∅)
      by (subst s1; cbn; apply lookup_insert_eq).
    rewrite Hl. cbn [Vendor.id v]. change (Vendor.id v) with vid. rewrite Hd.
    rewrite lookup_empty.
    unfold addAttributeSpec, fresh. cbn beta iota zeta. rewrite newEntry_octets.
    cbn [vsas]. change (Vendor.id v) with vid.
    change (vsas (MkState (dict s1) (vendors s1) (vsas s1) (Pos.succ (next s1))))
      with (vsas s1).
    rewrite Hd.
    set (ent := MkEntry _ _ _ _ _ _ _ _ _).
    set (s2 := set_dict _ ent _).
    assert (Hv2 : vendors s2 = vendors s1) by reflexivity.
    assert (Hd2 : vsas s2 !! vid = Some (<[sub := ent]> ∅))
      by (subst s2; cbn; apply lookup_insert_eq).
    exists ent, s2, v, (<[sub := ent]> ∅). rewrite Hd2. cbn [mbind option_bind].
    rewrite lookup_insert_eq, Hv2, Hl.
    repeat (split; [reflexivity |]).
    split; [intros _; repeat split; reflexivity | intros _; reflexivity].
Qed.



Lemma vendor_new_shape o nm z extra v :
  Vendor.new o nm (Num.Int z) extra = Ok v ->
  Vendor.name v = nm /\ Vendor.id v = z.
Proof.
  unfold Vendor.new.
  destruct ((z <? 0) || (2 ^ 32 <=? z)); [discriminate |].
  destruct (fold_left _ _ _) as [ts ls].
  destruct ts as [tz | | |]; try discriminate.
  destruct ((tz =? 1) || (tz =? 2) || (tz =? 4)); [| discriminate].
  destruct ls as [lz | | |]; try discriminate.
  destruct ((lz =? 0) || (lz =? 1) || (lz =? 2)); [| discriminate].
  intros [= <-]. split; reflexivity.
Qed.



(** X11.  A vendor that [addVendor] has registered is found again by its
    Enterprise ID and, at BEGIN-VENDOR, by its name in any mix of upper
    and lower case; it starts with an empty table of VSAs; and a second
    VENDOR entry for the same ID is refused with a ParseError that leaves
    the tables as they are. *)
Theorem registered_vendor_found nm z extra s s' :
  addVendor nm (Num.Int z) extra s = (Ok tt, s') ->
  exists v,
    vendor_ (JNumber (Num.Int z)) s' = (Ok (Some v), s') /\
    (forall nm', toLowerCase nm' = toLowerCase nm ->
       beginVendor nm' s' = (Ok v, s')) /\
    Vendor.name v = nm /\ Vendor.id v = z /\
    vsas s' !! z = Some ∅ /\ dict s' = dict s /\
    (forall nm2 extra2,
       addVendor nm2 (Num.Int z) extra2 s'
       = (Throw (ParseError "duplicate VENDOR entry"), s')).
Proof.
  unfold addVendor.
  destruct (vendors s !! inl z) eqn:E; [discriminate |].
  unfold fresh. cbn beta iota zeta. cbn [next set_vsas].
  destruct (Vendor.new (next s) nm (Num.Int z) extra) as [v | e] eqn:Hnew;
    [| discriminate].
  intros [= <-]. exists v.
  pose proof (vendor_new_shape _ _ _ _ _ Hnew) as (Hname & Hid).
  assert (Hl : forall d vs nx,
            vendors (set_vendor (inr (toLowerCase nm)) v
                       (set_vendor (inl z) v (MkState d (vendors s) vs nx)))
            !! inl z = Some v).
  { intros. cbn. rewrite lookup_insert_ne by discriminate. apply lookup_insert_eq. }
  split; [unfold vendor_; rewrite Hl; reflexivity |].
  split.
  { intros nm' Hnm. unfold beginVendor. cbn [vendors set_vendor].
    rewrite Hnm, lookup_insert_eq. reflexivity. }
  split; [exact Hname |]. split; [exact Hid |].
  split; [cbn; apply lookup_insert_eq |].
  split; [reflexivity |].
  intros nm2 extra2. rewrite Hl. reflexivity.
Qed.

Lemma registered_vendor_found_witness :
  exists s' v,
    addVendor (str "Cisco") (Num.Int 9) [] empty = (Ok tt, s') /\
    vendor_ (JNumber (Num.Int 9)) s' = (Ok (Some v), s') /\
    beginVendor (str "CISCO") s' = (Ok v, s').
Proof.
  eexists.
  assert (H : addVendor (str "Cisco") (Num.Int 9) [] empty = (Ok tt, _))
    by reflexivity.
  destruct (registered_vendor_found _ _ _ _ _ H) as (v & Hid & Hname & _).
  exists v. split; [exact H |].
  split; [exact Hid | apply Hname; vm_compute; reflexivity].
Defined.

End TableFacts.

(* --------------------------------------------------------------------- *)
(** ** [Attribute.toWire] and the rest of the buffer *)
(* --------------------------------------------------------------------- *)

Section FrameFacts.
Import Frame.

Lemma untouched_refl lo hi buf : untouched lo hi buf buf.
Proof. split; [reflexivity | intros; reflexivity]. Qed.

Lemma untouched_trans lo hi lo1 hi1 lo2 hi2 b0 b1 b2 :
  untouched lo1 hi1 b0 b1 -> untouched lo2 hi2 b1 b2 ->
  (lo <= lo1)%nat -> (lo <= lo2)%nat -> (hi1 <= hi)%nat -> (hi2 <= hi)%nat ->
  untouched lo hi b0 b2.
Proof.
  intros [L1 H1] [L2 H2] ? ? ? ?. split; [congruence |].
  intros i Hi. rewrite H2 by lia. apply H1. lia.
Qed.

Lemma untouched_widen lo hi lo1 hi1 b0 b1 :
  untouched lo1 hi1 b0 b1 -> (lo <= lo1)%nat -> (hi1 <= hi)%nat ->
  untouched lo hi b0 b1.
Proof.
  intros [L1 H1] ? ?. split; [exact L1 |]. intros i Hi. apply H1. lia.
Qed.

Lemma blit_untouched src off (l : list Z) :
  untouched off (off + length src) l (blit src off l).
Proof.
  split; [apply blit_length |].
  intros i Hi.
  destruct (decide (i < length l)%nat) as [Hin | Hout].
  2:{ rewrite (lookup_ge_None_2 l) by lia.
      apply lookup_ge_None_2. rewrite blit_length. lia. }
  unfold blit. destruct Hi as [Hi | Hi].
  - rewrite lookup_app_l by (rewrite length_take; lia).
    rewrite lookup_take_lt by lia. reflexivity.
  - rewrite lookup_app_r by (rewrite length_take; lia).
    rewrite lookup_app_r by (rewrite !length_take; lia).
    rewrite !length_take, lookup_drop. f_equal. lia.
Qed.

Lemma put_frame v off n buf r buf' :
  Attribute.put v off n buf = (r, buf') ->
  untouched off (off + n) buf buf' /\
  (forall off', r = Ok off' -> off' = (off + n)%nat).
Proof.
  unfold Attribute.put, writeUIntBE.
  destruct (decide (0 <= v < 256 ^ Z.of_nat n));
    [destruct (decide (off + n <= length buf)%nat) |];
    intros [= <- <-];
    try (split; [apply untouched_refl | discriminate]).
  split.
  - rewrite <- (be_bytes_length n v) at 1. apply blit_untouched.
  - intros off' [= <-]. reflexivity.
Qed.

(** X12.  [attr.toWire(buf, offset, ...)] only writes into its own field:
    whatever the attribute and whether it returns or throws, the buffer
    keeps its length and every byte before [offset] and from
    [offset + length] on, [length] being the length it computes for the
    attribute; when it returns, it returns [offset + length], which is
    less than the length of the buffer. *)
Theorem toWire_frame a offset secret authenticator buf r buf' :
  Attribute.toWire a offset secret authenticator buf = (r, buf') ->
  untouched offset (offset + wire_length a secret authenticator) buf buf' /\
  (forall off', r = Ok off' ->
     off' = (offset + wire_length a secret authenticator)%nat /\
     (off' < length buf)%nat).
Proof.
  unfold Attribute.toWire, wire_length.
  fold (Layout.data a secret authenticator).
  set (d := Layout.data a secret authenticator).
  set (len := (2 + length d + _)%nat).
  assert (Hlen : (2 <= len)%nat) by (unfold len; lia).
  destruct (length buf <=? offset + len)%nat eqn:Hroom.
  { intros [= <- <-]. split; [apply untouched_refl | discriminate]. }
  apply Nat.leb_gt in Hroom.
  rewrite ST_bind_eq.
  destruct (Attribute.put _ offset 1 buf) as [[o1 | e1] b1] eqn:P1;
    apply put_frame in P1 as [F1 O1].
  2:{ intros [= <- <-]. split; [| discriminate].
      apply (untouched_widen _ _ _ _ _ _ F1); lia. }
  rewrite (O1 _ eq_refl). clear O1.
  rewrite ST_bind_eq.
  destruct (Attribute.put _ (offset + 1) 1 b1) as [[o2 | e2] b2] eqn:P2;
    apply put_frame in P2 as [F2 O2].
  2:{ intros [= <- <-]. split; [| discriminate].
      eapply untouched_trans; [exact F1 | exact F2 | lia..]. }
  rewrite (O2 _ eq_refl). clear O2.
  assert (F12 : untouched offset (offset + 2) buf b2)
    by (eapply untouched_trans; [exact F1 | exact F2 | lia..]).
  clear F1 F2 b1.
  rewrite ST_bind_eq.
  subst len.
  destruct (Dictionary.vendor (Attribute.dict a)) as [v |];
    cbv beta iota in Hroom, Hlen |- *.
  - (* the vendor header *)
    rewrite ST_bind_eq.
    destruct (Attribute.put _ (offset + 1 + 1) 4 b2) as [[o3 | e3] b3] eqn:P3;
      apply put_frame in P3 as [F3 O3].
    2:{ intros [= <- <-]. split; [| discriminate].
        eapply untouched_trans; [exact F12 | exact F3 | lia..]. }
    rewrite (O3 _ eq_refl). clear O3.
    assert (F13 : untouched offset (offset + 6) buf b3)
      by (eapply untouched_trans; [exact F12 | exact F3 | lia..]).
    clear F12 F3 b2.
    rewrite ST_bind_eq.
    destruct (Dictionary.sub_id (Attribute.dict a)) as [sub |].
    2:{ intros [= <- <-]. split; [| discriminate].
        apply (untouched_widen _ _ _ _ _ _ F13); lia. }
    destruct (Attribute.put sub (offset + 1 + 1 + 4) (Vendor.typeSize v) b3)
      as [[o4 | e4] b4] eqn:P4; apply put_frame in P4 as [F4 O4].
    2:{ intros [= <- <-]. split; [| discriminate].
        eapply untouched_trans; [exact F13 | exact F4 | lia..]. }
    rewrite (O4 _ eq_refl). clear O4.
    assert (F14 : untouched offset (offset + 6 + Vendor.typeSize v) buf b4)
      by (eapply untouched_trans; [exact F13 | exact F4 | lia..]).
    clear F13 F4 b3.
    destruct (Vendor.lengthSize v =? 0)%nat eqn:Hls.
    + apply Nat.eqb_eq in Hls. cbn [mret ST_ret].
      intros [= <- <-]. split.
      * eapply untouched_trans; [exact F14 | apply blit_untouched | lia..].
      * intros off' [= <-]. lia.
    + destruct (Attribute.put _ (offset + 1 + 1 + 4 + Vendor.typeSize v)
                  (Vendor.lengthSize v) b4) as [[o5 | e5] b5] eqn:P5;
        apply put_frame in P5 as [F5 O5].
      2:{ intros [= <- <-]. split; [| discriminate].
          eapply untouched_trans; [exact F14 | exact F5 | lia..]. }
      rewrite (O5 _ eq_refl). clear O5.
      assert (F15 : untouched offset
                      (offset + 6 + Vendor.typeSize v + Vendor.lengthSize v)
                      buf b5)
        by (eapply untouched_trans; [exact F14 | exact F5 | lia..]).
      intros [= <- <-]. split.
      * eapply untouched_trans; [exact F15 | apply blit_untouched | lia..].
      * intros off' [= <-]. lia.
  - cbn [mret ST_ret]. intros [= <- <-]. split.
    + eapply untouched_trans; [exact F12 | apply blit_untouched | lia..].
    + intros off' [= <-]. lia.
Qed.

Lemma toWire_frame_witness :
  exists buf',
    Attribute.toWire Examples.alice 3 Examples.secret Examples.zeros
                     (replicate 12 7) = (Ok 10%nat, buf') /\
    untouched 3 10 (replicate 12 7) buf'.
Proof.
  eexists.
  assert (H : Attribute.toWire Examples.alice 3 Examples.secret Examples.zeros
                (replicate 12 7) = (Ok 10%nat, _)) by (vm_compute; reflexivity).
  split; [exact H |].
  exact (proj1 (toWire_frame _ _ _ _ _ _ _ H)).
Defined.

End FrameFacts.

(* --------------------------------------------------------------------- *)
(** ** Attribute framing *)
(* --------------------------------------------------------------------- *)

Section Framing.
Import AttributeList.

Lemma blit_slice n m (l : list Z) : blit (slice n m l) n l = l.
Proof.
  unfold blit, slice.
  destruct (decide (n <= length l)%nat) as [Hn | Hn].
  - set (X := drop n l).
    assert (HX : length X = (length l - n)%nat) by apply length_drop.
    set (j := length (take (m - n) X)).
    assert (Hj : j = Nat.min (m - n) (length X)) by apply length_take.
    rewrite (take_ge (take _ _)) by (fold j; lia).
    assert (Htake : take (m - n) X = take j X).
    { destruct (decide (m - n <= length X)%nat).
      - f_equal. lia.
      - rewrite !take_ge by lia. reflexivity. }
    rewrite Htake.
    replace (drop (n + j) l) with (drop j X)
      by (unfold X; rewrite drop_drop; reflexivity).
    rewrite take_drop. unfold X. apply take_drop.
  - rewrite (take_ge l) by lia. rewrite !drop_ge by lia.
    rewrite !take_nil. cbn [app]. apply app_nil_r.
Qed.


End Framing.

(* --------------------------------------------------------------------- *)
(** ** Attributes the dictionary does not know *)
(* --------------------------------------------------------------------- *)

Section Decoding.
Import Wire.
Import Dictionary.


(** X14.  An attribute whose number the dictionary does not know is decoded
    all the same: [Attribute.fromWire] registers the number as
    Unknown-Attribute-z (type octets) and returns an attribute of that
    descriptor holding the value bytes as they are.  When there are no
    value bytes it throws a RangeError, after having registered the
    number. *)
Theorem unknown_attribute_decoded s z data secret authenticator :
  1 <= z <= 255 -> Dictionary.dict s !! inl z = None ->
  (length data <= 253)%nat ->
  exists e s1,
    Dictionary.get (JNumber (Num.Int z)) s = (Ok (Some e), s1) /\
    Dictionary.name e = str "Unknown-Attribute-" ++ str (pretty z) /\
    Attribute.fromWire secret authenticator (s, Layout.standard z data)
    = (match data with
       | [] => Throw (RangeError "invalid buffer length")
       | _ => Ok (Attribute.Mk e (AV.Mk AV.Buffer (AV.Bytes data)))
       end, (s1, Layout.standard z data)).
Proof.
  intros Hz Hnone Hlen.
  destruct (get_number_lookup s z Hz) as (e & s1 & Hget & _ & Hnew).
  destruct (Hnew Hnone) as (He & _).
  exists e, s1. split; [exact Hget |]. split; [rewrite He; reflexivity |].
  set (buffer := Layout.standard z data).
  assert (Hblen : length buffer = (2 + length data)%nat) by reflexivity.
  unfold Attribute.fromWire.
  replace (length buffer <? 2)%nat with false by (symmetry; apply Nat.ltb_ge; lia).
  change (at_ buffer 0) with z.
  change (at_ buffer 1) with (Z.of_nat (2 + length data)).
  rewrite Hblen, Z.eqb_refl. cbn [negb].
  rewrite ST_bind_eq, dget_eq, Hget.
  cbn [fst snd Attribute.defined mret ST_ret].
  rewrite ST_bind_eq. cbn [mret ST_ret].
  assert (Hvsa : Dictionary.isVSA e = false) by (rewrite He; reflexivity).
  rewrite ST_bind_eq, Hvsa. cbn [mret ST_ret].
  unfold Attribute.too_short, Attribute.too_long.
  cbn [AV.minimumLength AV.maximumLength].
  replace (slice 2 (2 + length data) buffer) with data.
  2:{ unfold slice, buffer, Layout.standard.
      change (drop 2 ([_; _] ++ data)) with data.
      symmetry. apply take_ge. lia. }
  rewrite ST_bind_eq. unfold lift.
  assert (Hdec : Attribute.decrypt e data secret authenticator = Ok (JBuffer data))
    by (rewrite He; reflexivity).
  rewrite Hdec.
  unfold Attribute.wrap.
  assert (Hreal : Dictionary.realType e = AV.Buffer) by (rewrite He; reflexivity).
  rewrite Hreal. unfold AV.fromBuffer, AV.bufferCheck.
  cbn [AV.fixed_length AV.is_numeric].
  destruct data as [| x data].
  - reflexivity.
  - replace ((length (x :: data) <? 1)%nat || (253 <? length (x :: data))%nat)
      with false
      by (symmetry; apply orb_false_iff; split; apply Nat.ltb_ge; cbn [length] in *; lia).
    reflexivity.
Qed.

Lemma unknown_attribute_decoded_witness :
  1 <= 200 <= 255 /\ Dictionary.dict Examples.dictionary !! inl 200 = None /\
  exists e s1,
    Dictionary.name e = str "Unknown-Attribute-200" /\
    Attribute.fromWire Examples.secret Examples.zeros
      (Examples.dictionary, [200; 5; 1; 2; 3])
    = (Ok (Attribute.Mk e (AV.Mk AV.Buffer (AV.Bytes [1; 2; 3]))),
       (s1, [200; 5; 1; 2; 3])).
Proof.
  assert (Hnone : Dictionary.dict Examples.dictionary !! inl 200 = None)
    by (vm_compute; reflexivity).
  split; [lia |]. split; [exact Hnone |].
  destruct (unknown_attribute_decoded Examples.dictionary 200 [1; 2; 3]
              Examples.secret Examples.zeros ltac:(lia) Hnone ltac:(cbn; lia))
    as (e & s1 & _ & Hname & Hfrom).
  exists e, s1. split; [exact Hname | exact Hfrom].
Defined.

End Decoding.

(* --------------------------------------------------------------------- *)
(** ** Datagrams: what [RadiusPacket.fromWire] checks *)
(* --------------------------------------------------------------------- *)

Section PacketDecoding.
Import Wire.

(** [RadiusPacket.fromWire] on a header followed by the encodings of plain
    attributes. *)
Lemma fromWire_datagram s c i l1 l2 authenticator attrs secret secret'
    authenticator' fuel :
  Forall (plain s) attrs -> length authenticator = 16%nat ->
  0 <= i <= 255 ->
  be_value [l1; l2] <= Z.of_nat (20 + sizes attrs) ->
  (length attrs < fuel)%nat ->
  exists buf',
    RadiusPacket.fromWire fuel secret
      (s, [c; i; l1; l2] ++ authenticator
          ++ encodings attrs secret' authenticator')
    = Some (match Code.at_byte c with
            | Some code =>
                Ok (RadiusPacket.Mk code i authenticator
                                    (AttributeList.Mk attrs true) false)
            | None => Throw (RangeError "Code lookup for unknown value")
            end, (s, buf')).
Proof.
  intros Hattrs Hauth Hi Hl Hfuel.
  set (encs := encodings attrs secret' authenticator').
  assert (Hencs : length encs = sizes attrs)
    by (apply (encodings_length s); assumption).
  set (pre := [c; i; l1; l2] ++ authenticator).
  assert (Hpre : length pre = 20%nat)
    by (unfold pre; rewrite length_app, Hauth; reflexivity).
  destruct (loop_plain s secret' authenticator' secret authenticator attrs
              Hattrs fuel pre [] Hfuel) as [buf' Hloop].
  fold encs in Hloop. exists buf'.
  assert (Hw : [c; i; l1; l2] ++ authenticator ++ encs = pre ++ encs)
    by (unfold pre; rewrite <- app_assoc; reflexivity).
  assert (Hlen : length (pre ++ encs) = (20 + sizes attrs)%nat)
    by (rewrite length_app, Hpre, Hencs; reflexivity).
  assert (Hread : readUIntBE (pre ++ encs) 2 2 = Ok (be_value [l1; l2])).
  { unfold readUIntBE. rewrite decide_True by (rewrite Hlen; lia).
    rewrite <- Hw. reflexivity. }
  assert (Hat0 : at_ (pre ++ encs) 0 = c) by (rewrite <- Hw; reflexivity).
  assert (Hat1 : at_ (pre ++ encs) 1 = i) by (rewrite <- Hw; reflexivity).
  assert (Hslice : slice 4 20 (pre ++ encs) = authenticator).
  { rewrite <- Hw.
    exact (slice_middle [c; i; l1; l2] authenticator encs 16 (eq_sym Hauth)). }
  rewrite Hw. clearbody pre encs.
  unfold RadiusPacket.fromWire.
  rewrite Hlen, Hread, Hat0, Hat1, Hslice.
  replace (20 + sizes attrs <? 20)%nat with false
    by (symmetry; apply Nat.ltb_ge; lia).
  replace (Z.of_nat (20 + sizes attrs) <? be_value [l1; l2]) with false
    by (symmetry; apply Z.ltb_ge; lia).
  cbn zeta.
  unfold AttributeList.fromWire, AttributeList.parseAttributes.
  rewrite <- Hpre. rewrite Hloop.
  unfold RadiusPacket.new, RadiusPacket.parseCode, RadiusPacket.parseId,
    RadiusPacket.parseAuthenticator, RadiusPacket.parseAttributes.
  destruct (Code.at_byte c) as [code |].
  - cbn [Code.from].
    replace ((i <? 0) || (255 <? i)) with false
      by (symmetry; apply orb_false_iff; split; apply Z.ltb_ge; lia).
    rewrite Hauth. reflexivity.
  - reflexivity.
Qed.


(** X16.  A datagram whose first byte is not a code of the table is refused:
    [RadiusPacket.fromWire] throws a RangeError (after the attributes
    have been decoded). *)
Theorem fromWire_unknown_code s c i l1 l2 authenticator attrs secret secret'
    authenticator' fuel :
  Forall (plain s) attrs -> length authenticator = 16%nat ->
  ~ In c (map fst Code.codeTable) -> 0 <= i <= 255 ->
  be_value [l1; l2] <= Z.of_nat (20 + sizes attrs) ->
  (length attrs < fuel)%nat ->
  exists buf',
    RadiusPacket.fromWire fuel secret
      (s, [c; i; l1; l2] ++ authenticator
          ++ encodings attrs secret' authenticator')
    = Some (Throw (RangeError "Code lookup for unknown value"), (s, buf')).
Proof.
  intros Hattrs Hauth Hc Hi Hl Hfuel.
  destruct (fromWire_datagram s c i l1 l2 authenticator attrs secret secret'
              authenticator' fuel Hattrs Hauth Hi Hl Hfuel) as [buf' H].
  exists buf'. rewrite H, at_byte_spec.
  rewrite bool_decide_eq_false_2 by exact Hc. reflexivity.
Qed.

End PacketDecoding.

(* --------------------------------------------------------------------- *)
(** ** The size of a packet *)
(* --------------------------------------------------------------------- *)

Section PacketSize.
Import Wire.

Lemma toWire_no_room s a offset secret authenticator buf :
  plain s a -> (length buf <= offset + size a)%nat ->
  Attribute.toWire a offset secret authenticator buf
  = (Throw (RangeError "attributes will not fit in buffer"), buf).
Proof.
  intros (_ & _ & Hclear & _) Hroom.
  unfold Attribute.toWire. unfold clear in Hclear. rewrite Hclear.
  fold (size a).
  replace (length buf <=? offset + size a)%nat with true
    by (symmetry; apply Nat.leb_le; exact Hroom).
  reflexivity.
Qed.

Lemma toWire_from_overflow s secret authenticator attrs :
  Forall (plain s) attrs ->
  forall offset buf,
    (offset < length buf)%nat -> (length buf <= offset + sizes attrs)%nat ->
    fst (AttributeList.toWire_from attrs offset secret authenticator buf)
    = Throw (RangeError "attributes will not fit in buffer").
Proof.
  induction 1 as [| a attrs Ha Hattrs IH]; intros offset buf Hlt Hge.
  - cbn in Hge. lia.
  - cbn [AttributeList.toWire_from]. rewrite sizes_cons in Hge.
    rewrite ST_bind_eq.
    destruct (decide (length buf <= offset + size a)%nat) as [Hroom | Hroom].
    + rewrite (toWire_no_room s) by assumption. reflexivity.
    + destruct (plain_wire s a secret authenticator Ha) as (_ & _ & _ & Hto & _).
      rewrite Hto by lia.
      apply IH; rewrite blit_length; lia.
Qed.


End PacketSize.

(* --------------------------------------------------------------------- *)
(** ** Examples on the wire *)
(* --------------------------------------------------------------------- *)

Section WireExamples.
Import Wire.

Lemma user_name_plain data :
  (1 <= length data <= 253)%nat ->
  plain Examples.dictionary
        (Attribute.Mk Examples.user_name (AV.Mk AV.String (AV.Bytes data))).
Proof.
  intros Hlen.
  split; [split; [reflexivity | exact Hlen] |].
  split; [reflexivity |]. split; [reflexivity |].
  split; [| unfold size; cbn; lia].
  left. split; [reflexivity |]. split; [reflexivity |].
  split; [discriminate |]. split; [cbn; lia |]. vm_compute; reflexivity.
Qed.

Lemma alice_plain : plain Examples.dictionary Examples.alice.
Proof. apply user_name_plain. cbn. lia. Qed.


Lemma fromWire_unknown_code_witness :
  exists buf',
    RadiusPacket.fromWire 1 Examples.secret
      (Examples.dictionary, [99; 7; 0; 20] ++ replicate 16 0
         ++ encodings [] Examples.secret Examples.zeros)
    = Some (Throw (RangeError "Code lookup for unknown value"),
            (Examples.dictionary, buf')).
Proof.
  apply (fromWire_unknown_code Examples.dictionary 99 7 0 20 (replicate 16 0)
           [] Examples.secret Examples.secret Examples.zeros 1).
  - apply Forall_nil_2.
  - reflexivity.
  - cbn. intros H. repeat (destruct H as [H | H]; [discriminate H |]). exact H.
  - lia.
  - cbn. lia.
  - cbn. lia.
Defined.


End WireExamples.

(** ** The server: the default answer *)

Section ServerAnswers.
Import RadiusServer Answer Wire.

Lemma code_is_ACCOUNTING_REQUEST c :
  code_is c "ACCOUNTING_REQUEST" = (Code.code c =? 4).
Proof. reflexivity. Qed.

Lemma code_is_STATUS_SERVER c :
  code_is c "STATUS_SERVER" = (Code.code c =? 12).
Proof. reflexivity. Qed.

Lemma add_all_attributes xs l s :
  RadiusPacket.add_all (map AttributeList.AddAttr xs) (AttributeList.Mk l false) s
  = (Ok (AttributeList.Mk (l ++ xs) false), s).
Proof.
  revert l. induction xs as [| x xs IH]; intros l.
  - cbn. rewrite app_nil_r. reflexivity.
  - cbn [map RadiusPacket.add_all]. rewrite ST_bind_eq.
    unfold AttributeList.add. cbn [AttributeList.readonly AttributeList.list_].
    rewrite ST_bind_eq. cbn [mret ST_ret].
    rewrite IH, <- app_assoc. reflexivity.
Qed.

Lemma new_packet c i a s :
  0 <= i <= 255 -> length a = 16%nat ->
  RadiusPacket.new (Code.OfCode c) (JNumber (Num.Int i)) (JBuffer a)
                   RadiusPacket.NoAttrs s
  = (Ok (RadiusPacket.Mk c i a (AttributeList.Mk [] false) true), s).
Proof.
  intros Hi Ha.
  unfold RadiusPacket.new, RadiusPacket.parseCode, RadiusPacket.parseId,
    RadiusPacket.parseAuthenticator, RadiusPacket.parseAttributes.
  cbn [Code.from].
  replace ((i <? 0) || (255 <? i)) with false
    by (symmetry; apply orb_false_iff; split; apply Z.ltb_ge; lia).
  rewrite Ha. reflexivity.
Qed.

(** What [defaultResponse] builds. *)
Lemma defaultResponse_built type req d s :
  Dictionary.dict s !! inr (str "proxy-state") = Some d ->
  0 <= RadiusPacket.identifier req <= 255 ->
  length (RadiusPacket.authenticator req) = 16%nat ->
  defaultResponse type req s
  = (Ok (match response_code type (Code.code (RadiusPacket.code req)) with
         | Some c =>
             Some (RadiusPacket.Mk (Code.Mk c) (RadiusPacket.identifier req)
                     (RadiusPacket.authenticator req)
                     (AttributeList.Mk
                        (proxy_states d
                           (AttributeList.list_ (RadiusPacket.attributes req)))
                        false)
                     true)
         | None => None
         end), s).
Proof.
  intros Hd Hi Ha. unfold defaultResponse, response_code.
  rewrite code_is_ACCESS_REQUEST, code_is_SERVER_STATUS, code_is_ACCOUNTING_REQUEST.
  assert (Hget : RadiusPacket.getAll (JString (str "Proxy-State")) req s
                 = (Ok (proxy_states d
                          (AttributeList.list_ (RadiusPacket.attributes req))), s)).
  { unfold RadiusPacket.getAll. rewrite ST_bind_eq.
    rewrite (get_name_known s (str "Proxy-State") d) by exact Hd. reflexivity. }
  change (Code.prop (str "ACCESS_REJECT")) with (Some (Code.Mk 3)).
  change (Code.prop (str "ACCOUNTING_RESPONSE")) with (Some (Code.Mk 5)).
  destruct type;
    destruct (Code.code (RadiusPacket.code req) =? _); try reflexivity.
  all: cbv beta iota; rewrite ST_bind_eq, new_packet by assumption;
    rewrite ST_bind_eq, Hget; rewrite ST_bind_eq;
    cbn [RadiusPacket.attributes];
    rewrite ST_bind_eq, add_all_attributes; reflexivity.
Qed.

(** X18.  The default response.  For a request with an identifier in 0..255
    and a 16-byte authenticator, when the dictionary knows the name
    Proxy-State: [defaultResponse] gives an Access-Reject to an
    Access-Request on the auth socket and an Accounting-Response to an
    Accounting-Request on the acct socket, with the identifier and the
    authenticator of the request and exactly its Proxy-State attributes,
    in their order; for any other code or socket it gives nothing.  The
    dictionary is not changed. *)
Theorem defaultResponse_result type req d s :
  Dictionary.dict s !! inr (str "proxy-state") = Some d ->
  0 <= RadiusPacket.identifier req <= 255 ->
  length (RadiusPacket.authenticator req) = 16%nat ->
  defaultResponse type req s
  = (Ok (match response_code type (Code.code (RadiusPacket.code req)) with
         | Some c =>
             Some (RadiusPacket.Mk (Code.Mk c) (RadiusPacket.identifier req)
                     (RadiusPacket.authenticator req)
                     (AttributeList.Mk
                        (proxy_states d
                           (AttributeList.list_ (RadiusPacket.attributes req)))
                        false)
                     true)
         | None => None
         end), s).
Proof. exact (defaultResponse_built type req d s). Qed.

Lemma defaultResponse_result_witness :
  exists d,
    Dictionary.dict Examples.dictionary !! inr (str "proxy-state") = Some d /\
    defaultResponse auth
      (RadiusPacket.Mk (Code.Mk 1) 7 Examples.zeros
         (AttributeList.Mk [Examples.alice] true) false) Examples.dictionary
    = (Ok (Some (RadiusPacket.Mk (Code.Mk 3) 7 Examples.zeros
                   (AttributeList.Mk [] false) true)), Examples.dictionary).
Proof.
  eexists.
  assert (Hd : Dictionary.dict Examples.dictionary !! inr (str "proxy-state")
               = Some _) by (vm_compute; reflexivity).
  split; [exact Hd |].
  assert (Hi : 0 <= 7 <= 255) by lia.
  rewrite (defaultResponse_result auth
             (RadiusPacket.Mk (Code.Mk 1) 7 Examples.zeros
                (AttributeList.Mk [Examples.alice] true) false)
             _ Examples.dictionary Hd Hi eq_refl).
  vm_compute. reflexivity.
Defined.

(** A packet that the constructor has made. *)
Lemma new_valid c i a attrs s p s' :
  RadiusPacket.new c i a attrs s = (Ok p, s') ->
  0 <= RadiusPacket.identifier p <= 255 /\
  length (RadiusPacket.authenticator p) = 16%nat.
Proof.
  unfold RadiusPacket.new. rewrite ST_bind_eq. unfold lift at 1.
  destruct (RadiusPacket.parseCode c) as [code |]; [| discriminate].
  rewrite ST_bind_eq. unfold lift at 1.
  destruct (RadiusPacket.parseId i) as [id |] eqn:Hid; [| discriminate].
  rewrite ST_bind_eq. unfold lift at 1.
  destruct (RadiusPacket.parseAuthenticator a) as [au |] eqn:Hau; [| discriminate].
  rewrite ST_bind_eq.
  destruct (RadiusPacket.parseAttributes attrs s) as [[l | e] s1]; [| discriminate].
  cbn [mret ST_ret]. intros [= <- <-].
  cbn [RadiusPacket.identifier RadiusPacket.authenticator]. split.
  - unfold RadiusPacket.parseId in Hid.
    destruct i as [| | | n | | | |]; try discriminate.
    destruct n as [z | | |]; try discriminate.
    destruct ((z <? 0) || (255 <? z)) eqn:E; [discriminate |].
    injection Hid as <-. apply orb_false_iff in E as [E1 E2].
    apply Z.ltb_ge in E1, E2. lia.
  - unfold RadiusPacket.parseAuthenticator in Hau.
    destruct a as [| | | | | b | |]; try discriminate.
    destruct (negb (length b =? 16)%nat) eqn:E; [discriminate |].
    injection Hau as <-. apply negb_false_iff, Nat.eqb_eq in E. exact E.
Qed.

(** A packet that [fromWire] has decoded. *)
Lemma fromWire_valid fuel secret st req st' :
  RadiusPacket.fromWire fuel secret st = Some (Ok req, st') ->
  0 <= RadiusPacket.identifier req <= 255 /\
  length (RadiusPacket.authenticator req) = 16%nat.
Proof.
  unfold RadiusPacket.fromWire. destruct st as [s buf].
  destruct (length buf <? 20)%nat; [discriminate |].
  destruct (readUIntBE buf 2 2) as [len |]; [| discriminate].
  destruct (Z.of_nat (length buf) <? len); [discriminate |].
  cbn zeta.
  destruct (AttributeList.fromWire fuel 20 secret (slice 4 20 buf) (s, buf))
    as [[[attrs | e] [s1 buf1]] |]; try discriminate.
  destruct (RadiusPacket.new _ _ _ _ s1) as [[pkt | e] s2] eqn:Hnew;
    [| discriminate].
  intros [= <- <-]. cbn [RadiusPacket.identifier RadiusPacket.authenticator].
  exact (new_valid _ _ _ _ _ _ _ Hnew).
Qed.

(** X19.  Without the name Proxy-State in the dictionary the server answers
    nothing: [getResponse] throws the RangeError of the failed lookup
    for the requests it would answer, before any handler runs, and gives
    nothing for the others; so the listener of the socket, which catches
    the exception, sends no datagram for any request it has decoded. *)
Theorem no_proxy_state_no_answer type handlers s :
  Dictionary.dict s !! inr (str "proxy-state") = None ->
  (forall req,
     0 <= RadiusPacket.identifier req <= 255 ->
     length (RadiusPacket.authenticator req) = 16%nat ->
     getResponse type req handlers s
     = (match response_code type (Code.code (RadiusPacket.code req)) with
        | Some _ => Throw (RangeError "unrecognised attribute name")
        | None => Ok None
        end, s)) /\
  (forall fuel st msg address port secret s0 req buf,
     clients st !! address = Some secret ->
     handlers = RadiusServer.handlers st ->
     RadiusPacket.fromWire fuel secret (s0, msg) = Some (Ok req, (s, buf)) ->
     on_message fuel type st msg address port s0 = Some ([], s)).
Proof.
  intros Hnone.
  assert (Hresp : forall req,
     0 <= RadiusPacket.identifier req <= 255 ->
     length (RadiusPacket.authenticator req) = 16%nat ->
     getResponse type req handlers s
     = (match response_code type (Code.code (RadiusPacket.code req)) with
        | Some _ => Throw (RangeError "unrecognised attribute name")
        | None => Ok None
        end, s)).
  { intros req Hi Ha. unfold getResponse, defaultResponse, response_code.
    rewrite code_is_ACCESS_REQUEST, code_is_SERVER_STATUS,
      code_is_ACCOUNTING_REQUEST.
    change (Code.prop (str "ACCESS_REJECT")) with (Some (Code.Mk 3)).
    change (Code.prop (str "ACCOUNTING_RESPONSE")) with (Some (Code.Mk 5)).
    assert (Hget : RadiusPacket.getAll (JString (str "Proxy-State")) req s
                   = (Throw (RangeError "unrecognised attribute name"), s)).
    { unfold RadiusPacket.getAll. rewrite ST_bind_eq. unfold Dictionary.get.
      change (toLowerCase (str "Proxy-State")) with (str "proxy-state").
      rewrite Hnone. reflexivity. }
    destruct type;
      destruct (Code.code (RadiusPacket.code req) =? _); try reflexivity.
    all: cbv beta iota; rewrite ST_bind_eq, new_packet by assumption;
      rewrite ST_bind_eq, Hget; reflexivity. }
  split; [exact Hresp |].
  intros fuel st msg address port secret s0 req buf Hclient -> Hfrom.
  destruct (fromWire_valid _ _ _ _ _ Hfrom) as [Hi Ha].
  unfold on_message. rewrite Hclient, Hfrom, (Hresp req Hi Ha).
  destruct (response_code _ _); reflexivity.
Qed.

Lemma no_proxy_state_no_answer_witness :
  Dictionary.dict Dictionary.empty !! inr (str "proxy-state") = None /\
  on_message 1 auth (addClient (str "10.0.0.9") (str "secret") initial)
    ([1; 7; 0; 20] ++ replicate 16 9) (str "10.0.0.9") 40000 Dictionary.empty
  = Some ([], Dictionary.empty).
Proof.
  split; [reflexivity |].
  apply (proj2 (no_proxy_state_no_answer auth [] Dictionary.empty eq_refl)
           1%nat (addClient (str "10.0.0.9") (str "secret") initial)
           ([1; 7; 0; 20] ++ replicate 16 9) (str "10.0.0.9") 40000
           (str "secret") Dictionary.empty
           (RadiusPacket.Mk (Code.Mk 1) 7 (replicate 16 9)
              (AttributeList.Mk [] true) false)
           ([1; 7; 0; 20] ++ replicate 16 9));
    vm_compute; reflexivity.
Defined.

Lemma invokeHandlers_idle req type handlers st :
  Forall (idle type) handlers ->
  invokeHandlers req type handlers st = (Ok tt, st).
Proof.
  induction 1 as [| h handlers Hh _ IH]; [reflexivity |].
  cbn [invokeHandlers]. unfold idle in Hh. rewrite Hh. exact IH.
Qed.

Lemma proxy_states_plain s d attrs :
  Forall (plain s) attrs ->
  Forall (plain s) (proxy_states d attrs) /\
  (sizes (proxy_states d attrs) <= sizes attrs)%nat.
Proof.
  unfold proxy_states.
  induction 1 as [| a attrs Ha _ [IH1 IH2]].
  - split; [apply Forall_nil_2 | reflexivity].
  - rewrite filter_cons. destruct (decide _).
    + split; [apply Forall_cons_2; assumption |].
      rewrite !sizes_cons. lia.
    + split; [assumption |]. rewrite sizes_cons. lia.
Qed.

Lemma be_bytes_2 v : be_bytes 2 v = [(v / 256) mod 256; v mod 256].
Proof. reflexivity. Qed.



End ServerAnswers.

(** ** The client: answers and retransmissions *)

Section ClientAnswers.
Import RadiusClient Retry Settling.

(** The action [choose] picks, by the two codes. *)
Lemma choose_cases rq rs :
  (choose rq rs = Some DoResolve <->
     (Code.code rq = 1 /\ Code.code rs = 2) \/
     (Code.code rq = 4 /\ Code.code rs = 5)) /\
  (choose rq rs = Some DoReject <-> Code.code rq = 1 /\ Code.code rs = 3).
Proof.
  destruct rq as [q], rs as [r]. unfold choose, Code.toString.
  cbn [Code.code Code.codeTable List.find fst].
  repeat match goal with
         | |- context [?c =? q] =>
             destruct (Z.eqb_spec c q) as [<- | ?]
         end;
    cbn [fmap option_fmap option_map snd String.eqb Ascii.eqb Bool.eqb];
    repeat match goal with
           | |- context [?c =? r] =>
               destruct (Z.eqb_spec c r) as [<- | ?]
           end;
    cbn [fmap option_fmap option_map snd String.eqb Ascii.eqb Bool.eqb];
    (split; split; [try discriminate; intros _; lia
                   | intros H; try reflexivity; exfalso; lia
                   | try discriminate; intros _; lia
                   | intros H; try reflexivity; exfalso; lia]).
Qed.

(** X21.  Which answers settle a request.  [resolve] is chosen exactly for
    an Access-Accept answering an Access-Request and for an
    Accounting-Response answering an Accounting-Request, [reject] exactly
    for an Access-Reject answering an Access-Request; for every other pair
    of codes (an Access-Challenge, say, or any answer to a request with
    another code) no action is chosen and the datagram is ignored. *)
Theorem choose_table rq rs :
  (choose rq rs = Some DoResolve <->
     (Code.code rq = 1 /\ Code.code rs = 2) \/
     (Code.code rq = 4 /\ Code.code rs = 5)) /\
  (choose rq rs = Some DoReject <-> Code.code rq = 1 /\ Code.code rs = 3).
Proof. exact (choose_cases rq rs). Qed.

Lemma choose_needs_request_code rq rs :
  Code.code rq <> 1 -> Code.code rq <> 4 -> choose rq rs = None.
Proof.
  intros H1 H4. destruct (choose_cases rq rs) as [Hres Hrej].
  destruct (choose rq rs) as [[|] |]; [| | reflexivity]; exfalso.
  - destruct (proj1 Hres eq_refl) as [[? _] | [? _]]; contradiction.
  - destruct (proj1 Hrej eq_refl) as [? _]. contradiction.
Qed.



(** An event after the promise has been settled and the timer cleared. *)
Lemma settled_step rq st ev x :
  promise st = Some x -> timer st = false ->
  promise (step rq st ev) = Some x /\ timer (step rq st ev) = false /\
  sent (step rq st ev) = sent st.
Proof.
  intros Hp Ht. unfold step.
  destruct (uncaught st); [auto |].
  destruct ev as [| address port res | e].
  - rewrite Ht. auto.
  - unfold on_message.
    destruct (current st); [| auto].
    destruct (negb _ || negb _); [auto |].
    destruct res as [res |]; [| auto].
    destruct (choose _ _) as [[|] |]; [| | auto];
      unfold settle, close, set_timer; cbn; rewrite Hp; cbn; auto.
  - unfold settle, close. cbn. rewrite Hp. cbn. auto.
Qed.

(** X23.  An answer settles the request once and for all.  When a datagram
    that passes the checks arrives from the address and port of the
    current attempt with a code that settles the request, the promise is
    resolved (or rejected) with that packet; after that no event changes
    the promise and nothing more is sent, whatever happens: the timer has
    been cleared and later answers and errors find the promise
    settled. *)
Theorem answer_settles rq st cur res act evs :
  uncaught st = None -> promise st = None ->
  current st = Some cur ->
  choose (code rq) (RadiusPacket.code res) = Some act ->
  let st1 := step rq st (Message (a_address cur) (a_port cur) (Some res)) in
  let outcome := match act with
                 | DoResolve => Resolved res
                 | DoReject => RejectedWith res
                 end in
  promise st1 = Some outcome /\
  closed st1 = true /\
  promise (fold_left (step rq) evs st1) = Some outcome /\
  sent (fold_left (step rq) evs st1) = sent st.
Proof.
  intros Hunc Hprom Hcur Hact st1 outcome.
  assert (H1 : promise st1 = Some outcome /\ timer st1 = false /\
               closed st1 = true /\ sent st1 = sent st).
  { unfold st1, step. rewrite Hunc. unfold on_message. rewrite Hcur.
    rewrite bool_decide_eq_true_2 by reflexivity. rewrite Z.eqb_refl.
    cbn [negb orb]. rewrite Hact.
    destruct act; unfold settle, close, set_timer; cbn; rewrite Hprom; cbn; auto. }
  destruct H1 as (Hp1 & Ht1 & Hc1 & Hs1).
  split; [exact Hp1 |]. split; [exact Hc1 |].
  rewrite <- Hs1. clear Hs1 Hc1.
  revert Hp1 Ht1. generalize st1. clear st1.
  induction evs as [| ev evs IH]; intros st1 Hp1 Ht1; [auto |].
  cbn [fold_left].
  destruct (settled_step rq st1 ev outcome Hp1 Ht1) as (Hp2 & Ht2 & Hs2).
  destruct (IH _ Hp2 Ht2) as [Hp Hs]. split; [exact Hp | congruence].
Qed.

Lemma answer_settles_witness :
  let rq := Request (Code.Mk 1) RadiusPacket.NoAttrs 3 (fun _ => 0) in
  let st := start rq Examples.two_servers Dictionary.empty in
  let res := RadiusPacket.Mk (Code.Mk 2) 250 Examples.zeros
               (AttributeList.Mk [] true) false in
  exists cur,
    current st = Some cur /\
    promise (fold_left (step rq) [TimerFires; SocketError (Error "EIO")]
               (step rq st (Message (a_address cur) (a_port cur) (Some res))))
    = Some (Resolved res).
Proof.
  intros rq st res. eexists.
  assert (Hcur : current st = Some _) by (vm_compute; reflexivity).
  split; [exact Hcur |].
  exact (proj1 (proj2 (proj2
           (answer_settles rq st _ res DoResolve
              [TimerFires; SocketError (Error "EIO")]
              ltac:(vm_compute; reflexivity) ltac:(vm_compute; reflexivity)
              Hcur eq_refl)))).
Defined.

(** [getState]: the remembered states are kept, and the one returned is
    remembered. *)
Lemma getState_slots rq n st r st' :
  getState rq n st = (r, st') ->
  length (servers st') = length (servers st) /\
  (forall m a, slots st !! m = Some a -> slots st' !! m = Some a) /\
  (forall a, r = Ok a -> slots st' !! n = Some a) /\
  timer st' = timer st /\ attempt st' = attempt st /\
  closed st' = closed st /\ promise st' = promise st /\
  sent st' = sent st /\ uncaught st' = uncaught st /\
  current st' = current st.
Proof.
  unfold getState.
  destruct (slots st !! n) as [a |] eqn:Hslot.
  { intros [= <- <-]. repeat split; auto. intros a' [= <-]. exact Hslot. }
  destruct (servers st !! n) as [srv |].
  2:{ intros [= <- <-]. repeat split; auto. discriminate. }
  cbn zeta.
  destruct (build rq _ _ _ (dictionary st)) as [[buffer | e] d'];
    intros [= <- <-]; cbn;
    (split; [apply length_insert |]).
  - split.
    + intros m a Hm. destruct (decide (m = n)) as [-> | Hne]; [congruence |].
      rewrite lookup_insert_ne by congruence. exact Hm.
    + split; [intros a [= <-]; apply lookup_insert_eq |].
      repeat split; reflexivity.
  - split; [auto |]. split; [discriminate |]. repeat split; reflexivity.
Qed.

Lemma sent_from_slots_grow k st st' :
  sent_from_slots k st ->
  (forall m a, slots st !! m = Some a -> slots st' !! m = Some a) ->
  sent st' = sent st ->
  sent_from_slots k st'.
Proof.
  intros H Hslots Hsent i dg Hi. rewrite Hsent in Hi.
  destruct (H i dg Hi) as (a & Ha & ->). exists a. split; [apply Hslots |]; auto.
Qed.

(** [send] when one datagram has been sent for each earlier attempt. *)
Lemma send_steady rq k st r st' :
  length (servers st) = k -> sent_from_slots k st ->
  (closed st = false -> length (sent st) = attempt st) ->
  send rq st = (r, st') ->
  length (servers st') = k /\ sent_from_slots k st' /\
  attempt st' = attempt st /\ closed st' = closed st /\
  promise st' = promise st /\ uncaught st' = uncaught st /\
  match r with
  | Ok _ => length (sent st') = S (attempt st) /\ timer st' = true
  | Throw _ => sent st' = sent st /\ (timer st' = timer st \/ closed st = true)
  end.
Proof.
  intros Hk Hfrom Hlen. unfold send. rewrite Hk.
  destruct (getState rq (attempt st mod k) st) as [[cur | e] st1] eqn:Hget;
    apply getState_slots in Hget
      as (Hsrv & Hkeep & Hnew & Ht & Ha & Hc & Hp & Hs & Hu & Hcu).
  2:{ intros [= <- <-]. split; [congruence |].
      split; [eapply sent_from_slots_grow; eassumption |].
      repeat split; auto. }
  cbn [closed].
  destruct (closed st1) eqn:Hclosed.
  - intros [= <- <-]. cbn. split; [congruence |].
    split; [eapply sent_from_slots_grow; eassumption |].
    repeat split; auto; try (right; congruence).
  - intros [= <- <-]. cbn. split; [congruence |].
    assert (Hl : length (sent st) = attempt st) by (apply Hlen; congruence).
    split.
    + intros i dg Hi. cbn in Hi. rewrite Hs in Hi.
      destruct (decide (i < length (sent st))%nat) as [Hlt | Hge].
      * rewrite lookup_app_l in Hi by exact Hlt.
        destruct (Hfrom i dg Hi) as (a & Hslot & ->).
        exists a. split; [apply Hkeep; exact Hslot | reflexivity].
      * rewrite lookup_app_r in Hi by lia.
        destruct (i - length (sent st))%nat as [| j] eqn:Hj;
          [| destruct j; discriminate].
        cbn in Hi. injection Hi as <-.
        assert (i = attempt st) as -> by lia.
        exists cur. split; [apply Hnew; reflexivity | reflexivity].
    + rewrite Hs, length_app. cbn. repeat split; try assumption; try congruence. lia.
Qed.

Lemma settle_fields x st :
  sent (settle x st) = sent st /\ slots (settle x st) = slots st /\
  servers (settle x st) = servers st /\ timer (settle x st) = timer st /\
  attempt (settle x st) = attempt st /\ uncaught (settle x st) = uncaught st /\
  closed (settle x st) = closed st.
Proof. unfold settle. destruct (promise st); repeat split; reflexivity. Qed.

Lemma steady_settle k x st : steady k st -> steady k (settle x st).
Proof.
  intros (Hk & Hfrom & Harm).
  destruct (settle_fields x st) as (Hs & Hsl & Hsv & Ht & Ha & Hu & Hc).
  split; [congruence |]. split.
  - intros i dg Hi. rewrite Hs in Hi. rewrite Hsl. apply Hfrom. exact Hi.
  - rewrite Ht, Hu, Hc, Hs, Ha. exact Harm.
Qed.

Lemma steady_closed k st st' :
  steady k st -> servers st' = servers st -> slots st' = slots st ->
  sent st' = sent st -> closed st' = true -> steady k st'.
Proof.
  intros (Hk & Hfrom & _) Hsv Hsl Hs Hc.
  split; [congruence |]. split.
  - intros i dg Hi. rewrite Hs in Hi. rewrite Hsl. apply Hfrom. exact Hi.
  - intros _ _ H. congruence.
Qed.

Lemma start_steady rq srvs d : steady (length srvs) (start rq srvs d).
Proof.
  unfold start.
  set (st0 := RState srvs d ∅ false None 0 false None [] 0 None).
  assert (H0 : sent_from_slots (length srvs) st0)
    by (intros i dg Hi; unfold st0 in Hi; cbn in Hi; rewrite lookup_nil in Hi;
        discriminate).
  destruct (send rq st0) as [[[] | e] st1] eqn:Hsend;
    apply (send_steady rq (length srvs)) in Hsend
      as (Hk & Hfrom & Ha & Hc & Hp & Hu & Hres);
    try reflexivity; try exact H0.
  - destruct Hres as [Hlen _].
    split; [exact Hk |]. split; [exact Hfrom |]. intros _ _ _. congruence.
  - apply steady_settle. destruct Hres as [Hs [Ht | Hcl]]; [| discriminate].
    split; [exact Hk |]. split; [exact Hfrom |].
    intros H. rewrite Ht in H. discriminate.
Qed.

Lemma step_steady rq k st ev : steady k st -> steady k (step rq st ev).
Proof.
  intros Hst. unfold step.
  destruct (uncaught st) eqn:Hunc; [exact Hst |].
  destruct ev as [| address port res | e].
  - destruct (timer st) eqn:Htimer; [| exact Hst].
    destruct Hst as (Hk & Hfrom & Harm). unfold on_timer.
    set (st1 := RState _ _ _ _ _ (S _) _ _ _ _ _).
    assert (Hfrom1 : sent_from_slots k st1) by exact Hfrom.
    destruct (attempt st1 <? max_attempts rq st1)%nat.
    + destruct (send rq st1) as [[[] | e] st2] eqn:Hsend;
        apply (send_steady rq k) in Hsend
          as (Hk2 & Hfrom2 & Ha2 & Hc2 & Hp2 & Hu2 & Hres);
        try exact Hk; try exact Hfrom1.
      * destruct Hres as [Hlen _].
        split; [exact Hk2 |]. split; [exact Hfrom2 |].
        intros _ _ _. rewrite Hlen, Ha2. reflexivity.
      * intros Hcl. exact (Harm Htimer Hunc Hcl).
      * split; [exact Hk2 |]. split; [exact Hfrom2 |].
        intros _ H. discriminate H.
      * intros Hcl. exact (Harm Htimer Hunc Hcl).
    + apply steady_settle.
      apply (steady_closed k st); [split; [| split]; assumption | reflexivity..].
  - unfold on_message.
    destruct (current st); [| exact Hst].
    destruct (negb _ || negb _); [exact Hst |].
    destruct res as [res |]; [| exact Hst].
    destruct (choose _ _) as [[|] |]; [| | exact Hst];
      apply steady_settle; apply (steady_closed k st); auto.
  - apply steady_settle. apply (steady_closed k st); auto.
Qed.

Lemma run_steady rq srvs d evs : steady (length srvs) (run rq srvs d evs).
Proof.
  unfold run. pose proof (start_steady rq srvs d) as H.
  revert H. generalize (start rq srvs d).
  induction evs as [| ev evs IH]; intros st H; [exact H |].
  cbn [fold_left]. apply IH, step_steady, H.
Qed.

(** X24.  A retransmission is the same datagram: whatever the request, the
    servers and the events, the datagram of attempt [i + k] is the one of
    attempt [i] (same packet bytes, hence same identifier and
    authenticator, same port, same address), [k] being the number of
    servers: the packet made for a server at its first attempt is
    remembered and sent again at each later round. *)
Theorem retransmission_same_datagram rq srvs d evs i dg dg' :
  let st := run rq srvs d evs in
  sent st !! i = Some dg ->
  sent st !! (i + length srvs)%nat = Some dg' ->
  dg' = dg.
Proof.
  intros st Hi Hi'.
  destruct (run_steady rq srvs d evs) as (_ & Hfrom & _). fold st in Hfrom.
  destruct (Hfrom i dg Hi) as (a & Ha & ->).
  destruct (Hfrom _ dg' Hi') as (a' & Ha' & ->).
  assert (Hmod : ((i + length srvs) mod length srvs = i mod length srvs)%nat).
  { destruct (length srvs) as [| k] eqn:E.
    - cbn. lia.
    - rewrite <- (Nat.Div0.add_mod_idemp_r i (S k) (S k)), Nat.Div0.mod_same.
      rewrite Nat.add_0_r. reflexivity. }
  rewrite Hmod in Ha'. congruence.
Qed.

Lemma retransmission_same_datagram_witness :
  let st := run Examples.accounting Examples.two_servers Dictionary.empty
                [TimerFires; TimerFires] in
  exists dg, sent st !! 0%nat = Some dg /\ sent st !! 2%nat = Some dg.
Proof.
  intros st.
  destruct (sent st !! 0%nat) as [dg |] eqn:H0;
    [| unfold st in H0; vm_compute in H0; discriminate].
  destruct (sent st !! 2%nat) as [dg' |] eqn:H2;
    [| unfold st in H2; vm_compute in H2; discriminate].
  exists dg. split; [reflexivity |]. f_equal.
  exact (retransmission_same_datagram Examples.accounting Examples.two_servers
           Dictionary.empty [TimerFires; TimerFires] 0 dg dg' H0 H2).
Defined.

End ClientAnswers.

(** ** Hidden values of more than 128 bytes *)

Section LongPasswords.

Lemma land_f0_wrapped x : 256 <= x < 272 -> Z.land x 0xf0 = 0.
Proof.
  intros H.
  assert (Hall : forallb (fun k => Z.land (Z.of_nat k) 0xf0 =? 0) (seq 256 16) = true)
    by (vm_compute; reflexivity).
  rewrite forallb_forall in Hall.
  specialize (Hall (Z.to_nat x)).
  rewrite Z2Nat.id in Hall by lia.
  apply Z.eqb_eq, Hall. apply in_seq. lia.
Qed.

(** X25.  A value of 241 bytes or more is lost when it is hidden: the
    length [encodeMD5] computes, [(length + 15) & 0xf0], wraps around,
    and for a value of 241 to 256 bytes (a wrapped value has at most 253)
    the result is the empty buffer, whatever the secret and the
    authenticator. *)
Theorem encodeMD5_drops_long_value p secret authenticator :
  (241 <= length p <= 256)%nat ->
  Attribute.encodeMD5 p secret authenticator = [].
Proof.
  intros H. unfold Attribute.encodeMD5.
  rewrite land_f0_wrapped by lia. reflexivity.
Qed.

Lemma encodeMD5_drops_long_value_witness :
  (241 <= length (replicate 250 120%Z) <= 256)%nat /\
  Attribute.encodeMD5 (replicate 250 120%Z) Examples.secret Examples.zeros = [].
Proof.
  assert (H : (241 <= length (replicate 250 120%Z) <= 256)%nat)
    by (rewrite length_replicate; lia).
  split; [exact H |].
  exact (encodeMD5_drops_long_value _ Examples.secret Examples.zeros H).
Defined.

(** X26.  A value of 129 to 240 bytes is hidden by [encodeMD5] into more
    than 128 bytes (its length rounded up to a multiple of 16), which
    [decodeMD5] refuses: it throws the error for an illegal encrypted
    password length, whatever the secret and the authenticator. *)
Theorem long_value_not_revealed p secret authenticator secret' authenticator' :
  (129 <= length p <= 240)%nat ->
  length (Attribute.encodeMD5 p secret authenticator)
    = (16 * ((length p + 15) / 16))%nat /\
  Attribute.decodeMD5 (Attribute.encodeMD5 p secret authenticator)
                      secret' authenticator'
  = Throw (Error "illegal encrypted password length").
Proof.
  intros H.
  assert (Hlen : length (Attribute.encodeMD5 p secret authenticator)
                 = (16 * ((length p + 15) / 16))%nat).
  { rewrite encodeMD5_refines by lia. apply encode_length. }
  split; [exact Hlen |].
  unfold Attribute.decodeMD5. rewrite Hlen.
  assert (Hk : (9 <= (length p + 15) / 16)%nat)
    by (apply Nat.div_le_lower_bound; lia).
  replace (128 <? 16 * ((length p + 15) / 16))%nat with true
    by (symmetry; apply Nat.ltb_lt; lia).
  rewrite orb_true_r. reflexivity.
Qed.

Lemma long_value_not_revealed_witness :
  (129 <= length (replicate 130 120%Z) <= 240)%nat /\
  Attribute.decodeMD5
    (Attribute.encodeMD5 (replicate 130 120%Z) Examples.secret Examples.zeros)
    Examples.secret Examples.zeros
  = Throw (Error "illegal encrypted password length").
Proof.
  assert (H : (129 <= length (replicate 130 120%Z) <= 240)%nat)
    by (rewrite length_replicate; lia).
  split; [exact H |].
  exact (proj2 (long_value_not_revealed _ Examples.secret Examples.zeros
                  Examples.secret Examples.zeros H)).
Defined.

End LongPasswords.

(** ** The attributes of a packet *)

Section PacketAttributes.

Lemma new_attributes c i a l s p s' :
  RadiusPacket.new c i a (RadiusPacket.TheList l) s = (Ok p, s') ->
  RadiusPacket.attributes p = l /\ s' = s.
Proof.
  unfold RadiusPacket.new. rewrite ST_bind_eq. unfold lift at 1.
  destruct (RadiusPacket.parseCode c) as [code |]; [| discriminate].
  rewrite ST_bind_eq. unfold lift at 1.
  destruct (RadiusPacket.parseId i) as [id |]; [| discriminate].
  rewrite ST_bind_eq. unfold lift at 1.
  destruct (RadiusPacket.parseAuthenticator a) as [au |]; [| discriminate].
  rewrite ST_bind_eq. cbn [RadiusPacket.parseAttributes mret ST_ret].
  intros [= <- <-]. split; reflexivity.
Qed.

(** X27.  A packet that [RadiusPacket.fromWire] has decoded cannot be
    added to: its attribute list is read-only, so [pkt.add] throws for
    any argument, before looking anything up, and the dictionary is
    unchanged. *)
Theorem decoded_packet_read_only fuel secret st p st' x s :
  RadiusPacket.fromWire fuel secret st = Some (Ok p, st') ->
  AttributeList.readonly (RadiusPacket.attributes p) = true /\
  RadiusPacket.settable p = false /\
  RadiusPacket.add x p s = (Throw (Error "AttributeList is read-only"), s).
Proof.
  unfold RadiusPacket.fromWire. destruct st as [s0 buf].
  destruct (length buf <? 20)%nat; [discriminate |].
  destruct (readUIntBE buf 2 2) as [len |]; [| discriminate].
  destruct (Z.of_nat (length buf) <? len); [discriminate |].
  cbn zeta. unfold AttributeList.fromWire.
  destruct (AttributeList.parseAttributes fuel 20 secret (slice 4 20 buf) (s0, buf))
    as [[[attrs | e] [s1 buf1]] |]; try discriminate.
  destruct (RadiusPacket.new _ _ _ _ s1) as [[pkt | e] s2] eqn:Hnew;
    [| discriminate].
  apply new_attributes in Hnew as [Hattrs _].
  intros [= <- <-].
  destruct pkt as [c i a l b]. cbn in Hattrs. subst l.
  split; [reflexivity |]. split; [reflexivity |].
  unfold RadiusPacket.add. rewrite ST_bind_eq. reflexivity.
Qed.

Lemma decoded_packet_read_only_witness :
  exists p st',
    RadiusPacket.fromWire 1 Examples.secret
      (Dictionary.empty, [2; 7; 0; 20] ++ Examples.zeros) = Some (Ok p, st') /\
    RadiusPacket.add
      (AttributeList.AddNew (Attribute.ById (JNumber (Num.Int 1)))
                            (JString (str "alice"))) p Dictionary.empty
    = (Throw (Error "AttributeList is read-only"), Dictionary.empty).
Proof.
  eexists _, _.
  assert (H : RadiusPacket.fromWire 1 Examples.secret
                (Dictionary.empty, [2; 7; 0; 20] ++ Examples.zeros)
              = Some (Ok _, _)) by (vm_compute; reflexivity).
  split; [exact H |].
  exact (proj2 (proj2 (decoded_packet_read_only _ _ _ _ _ _ Dictionary.empty H))).
Defined.

(** X28.  [pkt.add(attr)] appends: on a packet whose list is not read-only
    it succeeds without touching the dictionary, and afterwards
    [getAll(id)] is what it was before, followed by the new attribute when
    its descriptor is the one [id] stands for; [has(id)] tells whether
    that list has an element and [get(id)] gives its first one. *)
Theorem add_then_getAll p a id d s :
  AttributeList.readonly (RadiusPacket.attributes p) = false ->
  Dictionary.get id s = (Ok (Some d), s) ->
  exists p',
    RadiusPacket.add (AttributeList.AddAttr a) p s = (Ok p', s) /\
    RadiusPacket.code p' = RadiusPacket.code p /\
    RadiusPacket.identifier p' = RadiusPacket.identifier p /\
    forall before,
      RadiusPacket.getAll id p s = (Ok before, s) ->
      let after :=
        before ++ (if RadiusPacket.same_entry (Attribute.dict a) d
                   then [a] else []) in
      RadiusPacket.getAll id p' s = (Ok after, s) /\
      RadiusPacket.get id p' s = (Ok (head after), s) /\
      RadiusPacket.has id p' s
      = (Ok (match after with [] => false | _ => true end), s).
Proof.
  intros Hrw Hget.
  unfold RadiusPacket.add, AttributeList.add. rewrite ST_bind_eq, Hrw.
  rewrite ST_bind_eq. cbn [mret ST_ret].
  eexists. split; [reflexivity |].
  cbn [RadiusPacket.code RadiusPacket.identifier].
  split; [reflexivity |]. split; [reflexivity |].
  intros before Hbefore. set (after := before ++ _).
  assert (Hall : RadiusPacket.getAll id
            (RadiusPacket.Mk (RadiusPacket.code p) (RadiusPacket.identifier p)
               (RadiusPacket.authenticator p)
               (AttributeList.Mk
                  (AttributeList.list_ (RadiusPacket.attributes p) ++ [a])
                  false)
               (RadiusPacket.settable p)) s = (Ok after, s)).
  { unfold RadiusPacket.getAll in *. rewrite ST_bind_eq in *.
    rewrite Hget in *. cbn [mret ST_ret] in *.
    injection Hbefore as <-.
    cbn [RadiusPacket.attributes AttributeList.list_].
    rewrite filter_app. unfold after. do 3 f_equal.
    rewrite filter_cons, filter_nil.
    destruct (RadiusPacket.same_entry (Attribute.dict a) d); reflexivity. }
  split; [exact Hall |].
  unfold RadiusPacket.get, RadiusPacket.has.
  rewrite !ST_bind_eq, Hall. split; reflexivity.
Qed.

Lemma add_then_getAll_witness :
  exists p',
    RadiusPacket.add (AttributeList.AddAttr Examples.alice) Examples.accept
                     Examples.dictionary = (Ok p', Examples.dictionary) /\
    RadiusPacket.getAll (JString (str "User-Name")) p' Examples.dictionary
    = (Ok [Examples.alice; Examples.alice], Examples.dictionary).
Proof.
  assert (Hrw : AttributeList.readonly (RadiusPacket.attributes Examples.accept)
                = false) by reflexivity.
  assert (Hget : Dictionary.get (JString (str "User-Name")) Examples.dictionary
                 = (Ok (Some Examples.user_name), Examples.dictionary))
    by (vm_compute; reflexivity).
  destruct (add_then_getAll Examples.accept Examples.alice
              (JString (str "User-Name")) Examples.user_name
              Examples.dictionary Hrw Hget) as (p' & Hadd & _ & _ & Hall).
  exists p'. split; [exact Hadd |].
  refine (proj1 (Hall [Examples.alice] _)).
  unfold RadiusPacket.getAll. rewrite ST_bind_eq, Hget. reflexivity.
Defined.

End PacketAttributes.
